(** * run_ner.py: a shallow embedding of the token-classification driver

    The development follows [src/eval-ner_nli/run_ner.py].  Python values
    that the script only passes around (tag values, dictionary keys) are
    [pyval]s; exceptions are an explicit [result]; dictionaries are [gmap]s
    when only lookups matter and association lists when iteration order
    does. *)

From stdpp Require Import gmap strings list sorting.
From Stdlib Require Import ZArith Lia Ascii.

#[local] Set Warnings "-clear-no-such-hyp".
Local Open Scope Z_scope.

(** ** Python values, exceptions and results *)

(** A tag is a string (scanned vocabulary) or a small integer (the
    [ClassLabel] encoding); both are used as dictionary keys. *)
Inductive pyval :=
| VStr (s : string)
| VInt (z : Z).

Global Instance pyval_eq_dec : EqDecision pyval.
Proof. solve_decision. Defined.

Global Instance pyval_countable : Countable pyval.
Proof.
  refine (inj_countable'
            (λ v, match v with VStr s => inl s | VInt z => inr z end)
            (λ x, match x with inl s => VStr s | inr z => VInt z end) _).
  by intros [].
Defined.

Inductive exn :=
| ValueError (msg : string)
| AssertionError (msg : string)
| AttributeError (msg : string)
| TypeError (msg : string)
| KeyError (key : pyval)
| IndexError (msg : string).

Inductive result (A : Type) :=
| Ok (a : A)
| Raise (e : exn).
Global Arguments Ok {A} a.
Global Arguments Raise {A} e.

Global Instance result_ret : MRet result := λ A a, Ok a.
Global Instance result_bind : MBind result := λ A B f m,
  match m with
  | Ok a => f a
  | Raise e => Raise e
  end.

(** [l[i]] for a non-negative index. *)
Definition list_getitem {A} (l : list A) (i : nat) : result A :=
  match l !! i with
  | Some x => Ok x
  | None => Raise (IndexError "list index out of range")
  end.

(** [l[i]] for a signed index: a negative index counts from the end. *)
Definition list_getitem_Z {A} (l : list A) (i : Z) : result A :=
  let i := if bool_decide (i < 0) then i + Z.of_nat (length l) else i in
  if bool_decide (i < 0) then Raise (IndexError "list index out of range")
  else list_getitem l (Z.to_nat i).

(** What Python accepts as an index into a list of length [n]. *)
Definition valid_index (n : nat) (i : Z) : Prop :=
  - Z.of_nat n ≤ i < Z.of_nat n.

(** [x in l] on a list of strings: a scan that compares with [==]. *)
Fixpoint list_contains (x : string) (l : list string) : bool :=
  match l with
  | [] => false
  | y :: l => if String.eqb x y then true else list_contains x l
  end.

(** [needle in haystack] on strings: does [needle] start at some position
    of [haystack]? *)
Fixpoint str_contains (needle haystack : string) : bool :=
  if String.prefix needle haystack then true
  else match haystack with
       | EmptyString => false
       | String _ rest => str_contains needle rest
       end.

(** [s.split(sep)] for a one-character separator: the pieces between the
    occurrences of [sep], at least one piece. *)
Fixpoint str_split (sep : ascii) (s : string) : list string :=
  match s with
  | EmptyString => [EmptyString]
  | String c rest =>
      let pieces := str_split sep rest in
      if Ascii.eqb c sep then EmptyString :: pieces
      else match pieces with
           | piece :: pieces => String c piece :: pieces
           | [] => [String c EmptyString]
           end
  end.

(** [str.lower] itself is not modelled: its case folding over all of
    Unicode is taken as given, as a function [lower] wherever the script
    calls it.  [lower_ascii] is what it does to a string of ASCII
    characters, which is all that the worked examples feed it. *)
Definition ascii_lower (c : ascii) : ascii :=
  let n := nat_of_ascii c in
  if (65 <=? n)%nat && (n <=? 90)%nat then ascii_of_nat (n + 32) else c.

Fixpoint lower_ascii (s : string) : string :=
  match s with
  | EmptyString => EmptyString
  | String c rest => String (ascii_lower c) (lower_ascii rest)
  end.

(** [d[key]] on a dictionary kept as its list of items, in insertion
    order. *)
Fixpoint items_getitem {X} (d : list (string * X)) (key : string) : result X :=
  match d with
  | [] => Raise (KeyError (VStr key))
  | (k, x) :: d => if String.eqb k key then Ok x else items_getitem d key
  end.

(** [key in d] on such a dictionary. *)
Definition items_contains {X} (d : list (string * X)) (key : string) : bool :=
  list_contains key d.*1.

Definition is_none {A} (o : option A) : bool :=
  match o with
  | None => true
  | Some _ => false
  end.

(** Truthiness of an [Optional[str]]: set and not empty. *)
Definition truthy (o : option string) : bool :=
  match o with
  | Some (String _ _) => true
  | _ => false
  end.

(** [d[k]] on a dictionary. *)
Definition dict_getitem {V} (d : gmap pyval V) (k : pyval) : result V :=
  match d !! k with
  | Some v => Ok v
  | None => Raise (KeyError k)
  end.

(** ** Label alignment ([tokenize_and_align_labels], lines 591-631) *)

Module Align.

(** What the script reads of one row of the tokenizer's [BatchEncoding]:
    the token ids and [word_ids(batch_index=i)]; a word id is [None] for
    special and padding tokens. *)
Record encoding := Encoding {
  input_ids : list Z;
  word_ids : list (option nat)
}.

(** The batch handed to [Dataset.map(..., batched=True)]:
    [examples[text_column_name]] and [examples[label_column_name]]. *)
Record examples := Examples {
  text_column : list (list string);
  label_column : list (list pyval)
}.

Definition ignore_index : Z := -100.

Section align.
Context (label_to_id : gmap pyval Z) (label_all_tokens : bool).

(** The body of [for word_idx in word_ids] (lines 606-618): the label
    appended for one subword, given the tracker's current value. *)
Definition label_for (label : list pyval) (previous_word_idx : option nat)
    (word_idx : option nat) : result Z :=
  match word_idx with
  | None => Ok ignore_index
  | Some w =>
      if decide (word_idx ≠ previous_word_idx) then
        t ← list_getitem label w; dict_getitem label_to_id t
      else if label_all_tokens then
        t ← list_getitem label w; dict_getitem label_to_id t
      else Ok ignore_index
  end.

(** The inner loop with its two mutable variables, [previous_word_idx]
    and the accumulator [label_ids]. *)
Fixpoint align_loop (label : list pyval) (word_ids : list (option nat))
    (previous_word_idx : option nat) (label_ids : list Z)
    : result (list Z) :=
  match word_ids with
  | [] => Ok label_ids
  | word_idx :: rest =>
      x ← label_for label previous_word_idx word_idx;
      align_loop label rest word_idx (label_ids ++ [x])
  end.

(** Lines 604-618 for one example. *)
Definition align_labels (label : list pyval) (word_ids : list (option nat))
    : result (list Z) :=
  align_loop label word_ids None [].

(** The outer loop [for i, label in enumerate(examples[label_column_name])]
    over the batch, appending to [labels]. *)
Fixpoint labels_loop (tokenized_inputs : list encoding) (i : nat)
    (column : list (list pyval)) (labels : list (list Z))
    : result (list (list Z)) :=
  match column with
  | [] => Ok labels
  | label :: rest =>
      enc ← list_getitem tokenized_inputs i;
      label_ids ← align_labels label (word_ids enc);
      labels_loop tokenized_inputs (S i) rest (labels ++ [label_ids])
  end.

(** [tokenizer] stands for the fast tokenizer called with the script's
    fixed padding, truncation and [is_split_into_words=True]. *)
Definition tokenize_and_align_labels
    (tokenizer : list (list string) → list encoding) (ex : examples)
    : result (list encoding * list (list Z)) :=
  let tokenized_inputs := tokenizer (text_column ex) in
  labels ← labels_loop tokenized_inputs 0%nat (label_column ex) [];
  Ok (tokenized_inputs, labels).
End align.

(** The tracker's value when position [i] of a scan started with [prev] is
    reached: the word id of the position before. *)
Definition tracker_from (prev : option nat) (W : list (option nat)) (i : nat)
    : option nat :=
  match i with
  | O => prev
  | S j => default None (W !! j)
  end.

(** The script starts every example with [previous_word_idx = None]. *)
Definition tracker (W : list (option nat)) (i : nat) : option nat :=
  tracker_from None W i.

End Align.

(** ** A worked batch: a four-word sentence, one word cut into two pieces *)

Module Scenario.
Import Align.

Definition label_to_id : gmap pyval Z :=
  {[ VStr "B-LOC" := 0; VStr "I-LOC" := 1; VStr "O" := 2 ]}.

Definition ex : examples :=
  Examples [["New"; "York"; "is"; "big"]]
           [[VStr "B-LOC"; VStr "I-LOC"; VStr "O"; VStr "O"]].

(** A toy tokenizer: a word of more than three characters is cut into two
    pieces, and every sentence is wrapped in two special tokens. *)
Definition pieces (i : nat) (word : string) : list (option nat) :=
  if (3 <? String.length word)%nat then [Some i; Some i] else [Some i].

Definition tokenizer (texts : list (list string)) : list encoding :=
  (λ words, let W := None :: mjoin (imap pieces words) ++ [None] in
            Encoding (replicate (length W) 0) W) <$> texts.
End Scenario.

(** ** Label vocabulary ([get_label_list] and lines 351-358) *)

Module Vocab.

(** Python compares [str] values code point by code point; on UTF-8 encoded
    strings that is the byte-wise order [String.le]. *)
Definition str_le : relation string := String.le.

(** [enumerate(l)], counting from [i]. *)
Fixpoint enumerate_from {A} (i : nat) (l : list A) : list (nat * A) :=
  match l with
  | [] => []
  | x :: l => (i, x) :: enumerate_from (S i) l
  end.

Section get_label_list.
(** The order in which [list(unique_labels)] walks a set is not fixed by
    the language (string hashes are salted per process): [set_iter] is
    that order. *)
Context (set_iter : gset string → list string).

(** Lines 344-346: [unique_labels = unique_labels | set(label)]. *)
Definition scan_labels (labels : list (list string)) : gset string :=
  foldl (λ unique_labels label, unique_labels ∪ list_to_set label) ∅ labels.

Definition get_label_list (labels : list (list string)) : list string :=
  let unique_labels := scan_labels labels in
  let label_list := set_iter unique_labels in
  merge_sort str_le label_list.
End get_label_list.

(** [{l: i for i, l in enumerate(label_list)}]: a later entry for the same
    key replaces an earlier one. *)
Definition enumerate_dict (label_list : list string) : gmap pyval Z :=
  foldl (λ d '(i, l), <[VStr l := Z.of_nat i]> d) ∅
        (enumerate_from 0 label_list).

(** [{i: i for i in range(len(label_list))}]. *)
Definition identity_dict (n : nat) : gmap pyval Z :=
  foldl (λ d i, <[VInt (Z.of_nat i) := Z.of_nat i]> d) ∅ (seq 0 n).

(** The element type of the label column, [features[...].feature]. *)
Inductive feature :=
  | ClassLabel (names : list string)
  | Value (dtype : string).

(** Lines 351-358. *)
Definition label_vocabulary (set_iter : gset string → list string)
    (feat : feature) (train_labels : list (list string))
    : list string * gmap pyval Z :=
  match feat with
  | ClassLabel names =>
      let label_list := names in
      (label_list, identity_dict (length label_list))
  | Value _ =>
      let label_list := get_label_list set_iter train_labels in
      (label_list, enumerate_dict label_list)
  end.

(** A process whose sets are walked in [elements] order, and one that walks
    them backwards. *)
Definition iter_elements : gset string → list string := elements.
Definition iter_reversed : gset string → list string := λ X, reverse (elements X).

End Vocab.

(** ** Configuration records *)

Module Args.

(** [ModelArguments] (lines 58-138). *)
Record ModelArguments := {
  model_name_or_path : string;
  config_name : option string;
  tokenizer_name : option string;
  cache_dir : option string;
  model_revision : string;
  use_auth_token : bool;
  use_metaemb : bool;
  use_domain_metaemb : bool;
  use_average : bool;
  use_attention : bool;
  ignore_tod : bool;
  method : string;
  model_name_or_path_2 : option string;
  model_name_or_path_3 : option string;
  model_name_or_path_4 : option string;
  model_name_or_path_5 : option string;
  model_name_or_path_6 : option string
}.

(** [DataTrainingArguments] (lines 140-223), every field with its declared
    type; [Optional[...]] fields are options. *)
Record DataTrainingArguments := {
  task_name : option string;
  dataset_name : option string;
  dataset_config_name : option string;
  train_file : option string;
  validation_file : option string;
  test_file : option string;
  text_column_name : option string;
  label_column_name : option string;
  overwrite_cache : bool;
  preprocessing_num_workers : option Z;
  max_seq_length : option Z;
  pad_to_max_length : bool;
  max_train_samples : option Z;
  max_eval_samples : option Z;
  max_predict_samples : option Z;
  label_all_tokens : bool;
  return_entity_level_metrics : bool
}.

(** The fields of the trainer's [TrainingArguments] that the script reads
    to decide what to do. *)
Record TrainingArguments := {
  output_dir : string;
  overwrite_output_dir : bool;
  do_train : bool;
  do_eval : bool;
  do_predict : bool;
  resume_from_checkpoint : option string;
  fp16 : bool
}.

(** The fields of the adapter library's [MultiLingAdapterArguments] that the
    script reads. *)
Record MultiLingAdapterArguments := {
  train_adapter : bool;
  load_adapter : option string;
  adapter_config : option string;
  load_lang_adapter : option string;
  lang_adapter_config : option string;
  language : option string
}.

(** [ModelArguments] for a BERT checkpoint with a second embedding source,
    the other fields at their defaults, for the given composer switches. *)
Definition model_args_with (metaemb domain_metaemb : bool) : ModelArguments := {|
  model_name_or_path := "bert-base-uncased";
  config_name := None;
  tokenizer_name := None;
  cache_dir := None;
  model_revision := "main";
  use_auth_token := false;
  use_metaemb := metaemb;
  use_domain_metaemb := domain_metaemb;
  use_average := true;
  use_attention := false;
  ignore_tod := false;
  method := "subword";
  model_name_or_path_2 := Some "bert-mlm-emb-only";
  model_name_or_path_3 := None;
  model_name_or_path_4 := None;
  model_name_or_path_5 := None;
  model_name_or_path_6 := None
|}.

(** The field defaults of [DataTrainingArguments]. *)
Definition data_defaults : DataTrainingArguments := {|
  task_name := Some "ner";
  dataset_name := None;
  dataset_config_name := None;
  train_file := None;
  validation_file := None;
  test_file := None;
  text_column_name := None;
  label_column_name := None;
  overwrite_cache := false;
  preprocessing_num_workers := None;
  max_seq_length := None;
  pad_to_max_length := false;
  max_train_samples := None;
  max_eval_samples := None;
  max_predict_samples := None;
  label_all_tokens := false;
  return_entity_level_metrics := false
|}.

(** [self.task_name = ...]. *)
Definition set_task_name (self : DataTrainingArguments) (t : option string)
    : DataTrainingArguments := {|
  task_name := t;
  dataset_name := dataset_name self;
  dataset_config_name := dataset_config_name self;
  train_file := train_file self;
  validation_file := validation_file self;
  test_file := test_file self;
  text_column_name := text_column_name self;
  label_column_name := label_column_name self;
  overwrite_cache := overwrite_cache self;
  preprocessing_num_workers := preprocessing_num_workers self;
  max_seq_length := max_seq_length self;
  pad_to_max_length := pad_to_max_length self;
  max_train_samples := max_train_samples self;
  max_eval_samples := max_eval_samples self;
  max_predict_samples := max_predict_samples self;
  label_all_tokens := label_all_tokens self;
  return_entity_level_metrics := return_entity_level_metrics self
|}.

(** [file.split(".")[-1]]. *)
Definition file_extension (file : string) : result string :=
  list_getitem_Z (str_split "." file) (-1).

(** [extension = file.split(".")[-1]; assert extension in ["csv", "json"],
    msg]. *)
Definition assert_csv_or_json (file msg : string) : result unit :=
  extension ← file_extension file;
  if list_contains extension ["csv"; "json"] then Ok ()
  else Raise (AssertionError msg).

Definition need_source_message : string :=
  "Need either a dataset name or a training/validation file.".

(** [DataTrainingArguments.__post_init__] (lines 225-235), run when the
    argument parser constructs the data arguments; [lower] is [str.lower]. *)
Definition post_init (lower : string → string) (self : DataTrainingArguments)
    : result DataTrainingArguments :=
  if is_none (dataset_name self) && is_none (train_file self)
     && is_none (validation_file self)
  then Raise (ValueError need_source_message)
  else
    _ ← match train_file self with
        | Some file =>
            assert_csv_or_json file
              "`train_file` should be a csv or a json file."
        | None => Ok ()
        end;
    _ ← match validation_file self with
        | Some file =>
            assert_csv_or_json file
              "`validation_file` should be a csv or a json file."
        | None => Ok ()
        end;
    match task_name self with
    | Some t => Ok (set_task_name self (Some (lower t)))
    | None =>
        Raise (AttributeError "'NoneType' object has no attribute 'lower'")
    end.

(** Data arguments naming a hub dataset and, perhaps, local files. *)
Definition data_args_with (name train validation test : option string)
    : DataTrainingArguments := {|
  task_name := Some "ner";
  dataset_name := name;
  dataset_config_name := None;
  train_file := train;
  validation_file := validation;
  test_file := test;
  text_column_name := None;
  label_column_name := None;
  overwrite_cache := false;
  preprocessing_num_workers := None;
  max_seq_length := None;
  pad_to_max_length := false;
  max_train_samples := None;
  max_eval_samples := None;
  max_predict_samples := None;
  label_all_tokens := false;
  return_entity_level_metrics := false
|}.

End Args.

(** ** Column name resolution (lines 327-339) *)

Module Columns.
Import Args.

(** How an f-string renders an [Optional[str]] field. *)
Definition format_optional (o : option string) : string :=
  match o with
  | Some s => s
  | None => "None"
  end.

(** Lines 327-332. *)
Definition resolve_text_column (data_args : DataTrainingArguments)
    (column_names : list string) : result string :=
  match text_column_name data_args with
  | Some name => Ok name
  | None =>
      if list_contains "tokens" column_names then Ok "tokens"
      else list_getitem column_names 0
  end.

(** Lines 334-339. *)
Definition resolve_label_column (data_args : DataTrainingArguments)
    (column_names : list string) : result string :=
  match label_column_name data_args with
  | Some name => Ok name
  | None =>
      if list_contains (format_optional (task_name data_args) +:+ "_tags")
                       column_names
      then Ok (format_optional (task_name data_args) +:+ "_tags")
      else list_getitem column_names 1
  end.

Definition resolve_columns (data_args : DataTrainingArguments)
    (column_names : list string) : result (string * string) :=
  text_column_name ← resolve_text_column data_args column_names;
  label_column_name ← resolve_label_column data_args column_names;
  Ok (text_column_name, label_column_name).
End Columns.

(** ** Metrics reducer ([compute_metrics], lines 684-714) *)

Module Metrics.

(** A value of the scorer's result dictionary: a number, or a nested
    per-entity dictionary.  Numbers are only passed along, so their type
    [V] is left open. *)
Inductive metric_value (V : Type) :=
  | Scalar (v : V)
  | Nested (d : list (string * V)).
Global Arguments Scalar {V} v.
Global Arguments Nested {V} d.

Section compute_metrics.
Context {V : Type}.
Context (label_list : list string).
(** [metric.compute(predictions=..., references=...)] of the seqeval
    scorer; its result is a dictionary, walked in insertion order. *)
Context (metric_compute :
  list (list string) → list (list string) → list (string * metric_value V)).

(** [[label_list[p] for (p, l) in zip(prediction, label) if l != -100]] *)
Fixpoint kept_predictions (pairs : list (Z * Z)) : result (list string) :=
  match pairs with
  | [] => Ok []
  | (p, l) :: pairs =>
      if decide (l ≠ -100) then
        x ← list_getitem_Z label_list p;
        xs ← kept_predictions pairs;
        Ok (x :: xs)
      else kept_predictions pairs
  end.

(** [[label_list[l] for (p, l) in zip(prediction, label) if l != -100]] *)
Fixpoint kept_labels (pairs : list (Z * Z)) : result (list string) :=
  match pairs with
  | [] => Ok []
  | (p, l) :: pairs =>
      if decide (l ≠ -100) then
        x ← list_getitem_Z label_list l;
        xs ← kept_labels pairs;
        Ok (x :: xs)
      else kept_labels pairs
  end.

(** The outer comprehension [for prediction, label in zip(predictions,
    labels)], with [inner] one of the two above. *)
Fixpoint per_example (inner : list (Z * Z) → result (list string))
    (rows : list (list Z * list Z)) : result (list (list string)) :=
  match rows with
  | [] => Ok []
  | (prediction, label) :: rows =>
      x ← inner (zip prediction label);
      xs ← per_example inner rows;
      Ok (x :: xs)
  end.

Definition true_predictions (predictions labels : list (list Z)) :=
  per_example kept_predictions (zip predictions labels).
Definition true_labels (predictions labels : list (list Z)) :=
  per_example kept_labels (zip predictions labels).

(** Lines 700-707: the flattening loop over [results.items()]. *)
Definition flatten_entry (final_results : gmap string (metric_value V))
    (item : string * metric_value V) : gmap string (metric_value V) :=
  let '(key, value) := item in
  match value with
  | Nested d =>
      foldl (λ final_results '(n, v),
               <[key +:+ "_" +:+ n := Scalar v]> final_results)
            final_results d
  | Scalar v => <[key := Scalar v]> final_results
  end.

Definition flatten_results (results : list (string * metric_value V))
    : gmap string (metric_value V) :=
  foldl flatten_entry ∅ results.

(** Lines 709-714: the four overall entries under short names. *)
Definition overall_results (results : list (string * metric_value V))
    : result (gmap string (metric_value V)) :=
  precision ← items_getitem results "overall_precision";
  recall ← items_getitem results "overall_recall";
  f1 ← items_getitem results "overall_f1";
  accuracy ← items_getitem results "overall_accuracy";
  Ok (<["accuracy" := accuracy]>
      (<["f1" := f1]>
       (<["recall" := recall]>
        (<["precision" := precision]> ∅)))).

(** [compute_metrics], from the line after [np.argmax]: [predictions]
    holds the arg-max class of every position. *)
Definition compute_metrics (return_entity_level_metrics : bool)
    (predictions labels : list (list Z))
    : result (gmap string (metric_value V)) :=
  true_predictions ← true_predictions predictions labels;
  true_labels ← true_labels predictions labels;
  let results := metric_compute true_predictions true_labels in
  if return_entity_level_metrics then Ok (flatten_results results)
  else overall_results results.
End compute_metrics.

(** A scorer result shaped like seqeval's: one nested entry per entity
    type, then the four overall numbers. *)
Definition seqeval_like : list (string * metric_value Z) :=
  [("LOC", Nested [("precision", 1); ("recall", 1); ("f1", 1); ("number", 1)]);
   ("overall_precision", Scalar 1); ("overall_recall", Scalar 1);
   ("overall_f1", Scalar 1); ("overall_accuracy", Scalar 1)].

End Metrics.

(** ** Freezing the embedding sources (lines 447-449 and 513-515) *)

Module Freeze.
Import Args.

(** A parameter object is known by its identity; [requires_grad] is the
    flag of every parameter object, and [named_parameters()] yields
    (name, object) pairs.  The same object under two names is one entry of
    the store. *)
Abbreviation param := nat (only parsing).
Abbreviation flags := (gmap nat bool) (only parsing).

(** The loop [for param in model.bert.named_parameters(): if "embedding_"
    in param[0]: param[1].requires_grad=False]. *)
Definition freeze_step (requires_grad : flags) (np : string * param)
    : flags :=
  if str_contains "embedding_" np.1 then <[np.2 := false]> requires_grad
  else requires_grad.

Definition freeze_embeddings (named_parameters : list (string * param))
    (requires_grad : flags) : flags :=
  foldl freeze_step requires_grad named_parameters.

(** The two composer branches of [main] (lines 420-518), as far as the
    flags go: [named_parameters] is what [model.bert.named_parameters()]
    yields once the composite embedding module of that branch has been
    put in place. *)
Definition metaemb_setup (model_args : ModelArguments)
    (named_parameters : list (string * param)) (requires_grad : flags)
    : flags :=
  if use_metaemb model_args then
    freeze_embeddings named_parameters requires_grad
  else if use_domain_metaemb model_args then
    freeze_embeddings named_parameters requires_grad
  else requires_grad.

(** The name convention: the name has "embedding_" somewhere in it. *)
Definition matches (name : string) : Prop :=
  ∃ pre post, name = pre +:+ "embedding_" +:+ post.

(** Parameters of a BERT encoder whose embeddings are a composite of two
    sources, all trainable at first. *)
Definition bert_named_parameters : list (string * param) :=
  [("embeddings.embedding_1.word_embeddings.weight", 0%nat);
   ("embeddings.embedding_2.word_embeddings.weight", 1%nat);
   ("embeddings.attention.weight", 2%nat);
   ("encoder.layer.0.output.dense.weight", 3%nat)].

Definition all_trainable : flags :=
  {[ 0%nat := true; 1%nat := true; 2%nat := true; 3%nat := true ]}.
End Freeze.

(** ** Writing the predictions (lines 761-781) *)

Module Predict.

Definition newline : string := String "010" EmptyString.

(** Does the character occur in the string? *)
Fixpoint has_char (c : ascii) (s : string) : bool :=
  match s with
  | EmptyString => false
  | String c' rest => if Ascii.eqb c' c then true else has_char c rest
  end.

(** [" ".join(prediction) + "\n"]. *)
Definition prediction_line (prediction : list string) : string :=
  String.concat " " prediction +:+ newline.

(** What the writer holds after the loop [for prediction in
    true_predictions: writer.write(...)]. *)
Definition written (true_predictions : list (list string)) : string :=
  foldl (λ file prediction, file +:+ prediction_line prediction)
        EmptyString true_predictions.

(** Lines 764-781 from the arg-max on: the filtered predictions, then the
    text of predictions.txt. *)
Definition predictions_file (label_list : list string)
    (predictions labels : list (list Z)) : result string :=
  true_predictions ← Metrics.true_predictions label_list predictions labels;
  Ok (written true_predictions).

End Predict.

(** ** The driver ([main], lines 238-795) *)

Module Main.
Import Args.

(** Calls into the dataset, model and adapter libraries and the trainer,
    in the order [main] makes them.  The libraries are taken to answer;
    their own failures are not the script's.  What the script hands to a
    library to run (the function mapped over a split, the scorer wrapper
    given to the trainer) runs, and fails, where the library runs it. *)
Inductive event :=
| load_dataset (path : string) (name : option string)
    (data_files : option (list (string * string)))
| AutoConfig_from_pretrained (name : string)
| AutoTokenizer_from_pretrained (name : option string)
| tokenizer_add_tokens (vocab_file : string)
| AutoModelForTokenClassification_from_pretrained (name : string)
| BertEmbed_from_pretrained (name : option string)
| replace_embeddings (composite : string)
| freeze_embedding_sources
| AdapterConfig_load (config : option string)
| model_load_adapter (adapter : option string) (load_as : option string)
| model_add_adapter (task : string)
| model_train_adapter (task : string)
| set_active_adapters (lang : option string) (task : string)
| dataset_map (split : string)
| load_metric (path : string)
| trainer_init
| trainer_train (checkpoint : option string)
| trainer_evaluate
| trainer_predict
| write_file (path content : string).

(** A run: the calls made so far, and a value or the exception that ended
    the run. *)
Inductive io (A : Type) :=
| Io (trace : list event) (outcome : result A).
Global Arguments Io {A} trace outcome.

Definition trace {A} (m : io A) : list event :=
  match m with Io tr _ => tr end.
Definition outcome {A} (m : io A) : result A :=
  match m with Io _ r => r end.

Global Instance io_ret : MRet io := λ A a, Io [] (Ok a).
Global Instance io_bind : MBind io := λ A B f m,
  match m with
  | Io tr (Ok a) => match f a with Io tr' r => Io (tr ++ tr') r end
  | Io tr (Raise e) => Io tr (Raise e)
  end.

Definition call (e : event) : io unit := Io [e] (Ok ()).
Definition lift {A} (r : result A) : io A := Io [] r.
Definition raise {A} (e : exn) : io A := Io [] (Raise e).

(** A split of the loaded data: its column names, the element feature of
    its columns, its number of rows, its columns of string sequences (the
    words, string tags) and its columns of class-id sequences ([ClassLabel]
    tags). *)
Record Dataset := {
  column_names : list string;
  features : list (string * Vocab.feature);
  num_rows : nat;
  columns : list (string * list (list string));
  class_columns : list (string * list (list Z))
}.

(** What the world outside the script answers. *)
Record world := {
  output_dir_isdir : bool;
  get_last_checkpoint : option string;
  output_dir_listing : list string;
  loaded_dataset : string → option string →
                   option (list (string * string)) →
                   list (string * Dataset);
  set_iter : gset string → list string;
  config_model_type : string;
  tokenizer_is_fast : bool;
  config_adapters : list string;
  (** [str.lower], as [__post_init__] calls it. *)
  str_lower : string → string;
  (** The loaded tokenizer, called on the word sequences of a batch with
      the script's fixed arguments: one encoding per sequence. *)
  tokenizer : list (list string) → list Align.encoding;
  (** [metric.compute] of the loaded scorer. *)
  metric_compute : list (list string) → list (list string) →
                   list (string * Metrics.metric_value Z);
  (** What the trainer hands to [compute_metrics], as arg-max classes and
      labels: once per evaluation round during [train], once in
      [evaluate], once in [predict] (which also returns it). *)
  train_evaluations : list (list (list Z) * list (list Z));
  evaluate_output : list (list Z) * list (list Z);
  predict_output : list (list Z) * list (list Z);
  is_world_process_zero : bool
}.

Definition output_dir_message (dir : string) : string :=
  "Output directory (" +:+ dir +:+
  ") already exists and is not empty. Use --overwrite_output_dir to overcome.".
Definition adapter_message : string :=
  "Adapters can only be loaded in adapters training mode." +:+
  "Use --train_adapter to enable adapter training".
Definition fast_tokenizer_message : string :=
  "This example script only works for models that have a fast tokenizer. Checkout the big table of models " +:+
  "at https://huggingface.co/transformers/index.html#supported-frameworks to find the model types that meet this " +:+
  "requirement".
Definition train_message : string := "--do_train requires a train dataset".
Definition eval_message : string := "--do_eval requires a validation dataset".
Definition predict_message : string := "--do_predict requires a test dataset".
Definition financial : string := "financial/BERT_MLM_EMB_ONLY_TOKENIZER".
Definition financial_tokenizer : string :=
  "./cache/transformer/tokenizer/background-x/bert-base-uncased/financial".

(** Lines 274-287. *)
Definition detect_last_checkpoint (training_args : TrainingArguments)
    (w : world) : result (option string) :=
  if output_dir_isdir w && do_train training_args
     && negb (overwrite_output_dir training_args)
  then
    let last_checkpoint := get_last_checkpoint w in
    if is_none last_checkpoint
       && bool_decide (0 < length (output_dir_listing w))%nat
    then Raise (ValueError (output_dir_message (output_dir training_args)))
    else Ok last_checkpoint
  else Ok None.

(** Lines 302-316. *)
Definition get_raw_datasets (data_args : DataTrainingArguments) (w : world)
    : io (list (string * Dataset)) :=
  match dataset_name data_args with
  | Some name =>
      call (load_dataset name (dataset_config_name data_args) None);;
      mret (loaded_dataset w name (dataset_config_name data_args) None)
  | None =>
      let data_files := [] in
      let data_files :=
        match train_file data_args with
        | Some file => data_files ++ [("train", file)]
        | None => data_files
        end in
      let data_files :=
        match validation_file data_args with
        | Some file => data_files ++ [("validation", file)]
        | None => data_files
        end in
      let data_files :=
        match test_file data_args with
        | Some file => data_files ++ [("test", file)]
        | None => data_files
        end in
      extension ← lift
        match train_file data_args with
        | Some file => file_extension file
        | None =>
            Raise (AttributeError
                     "'NoneType' object has no attribute 'split'")
        end;
      call (load_dataset extension None (Some data_files));;
      mret (loaded_dataset w extension None (Some data_files))
  end.

(** What the data part of [main] hands to the rest. *)
Record data_context := {
  raw_datasets : list (string * Dataset);
  text_column : string;
  label_column : string;
  label_list : list string;
  label_to_id : gmap pyval Z
}.

(** Lines 320-358: column names, features and the label vocabulary. *)
Definition select_columns_and_labels (data_args : DataTrainingArguments)
    (training_args : TrainingArguments) (w : world)
    (raw_datasets : list (string * Dataset)) : result data_context :=
  split ← items_getitem raw_datasets
            (if do_train training_args then "train" else "validation");
  let column_names := column_names split in
  let features := features split in
  text_column_name ← Columns.resolve_text_column data_args column_names;
  label_column_name ← Columns.resolve_label_column data_args column_names;
  feature ← items_getitem features label_column_name;
  vocabulary ←
    match feature with
    | Vocab.ClassLabel _ =>
        Ok (Vocab.label_vocabulary (set_iter w) feature [])
    | Vocab.Value _ =>
        train ← items_getitem raw_datasets "train";
        labels ← items_getitem (columns train) label_column_name;
        Ok (Vocab.label_vocabulary (set_iter w) feature labels)
    end;
  Ok {| raw_datasets := raw_datasets;
        text_column := text_column_name;
        label_column := label_column_name;
        label_list := vocabulary.1;
        label_to_id := vocabulary.2 |}.

(** Lines 366-419: configuration, tokenizer and model. *)
Definition load_model_and_tokenizer (model_args : ModelArguments) (w : world)
    : io unit :=
  call (AutoConfig_from_pretrained
          (if truthy (config_name model_args)
           then default "" (config_name model_args)
           else model_name_or_path model_args));;
  let tokenizer_name_or_path :=
    if truthy (tokenizer_name model_args)
    then default "" (tokenizer_name model_args)
    else model_name_or_path model_args in
  (if list_contains (config_model_type w) ["gpt2"; "roberta"] then
     call (AutoTokenizer_from_pretrained (Some tokenizer_name_or_path))
   else if str_contains financial tokenizer_name_or_path then
     call (AutoTokenizer_from_pretrained (Some financial_tokenizer));;
     call (tokenizer_add_tokens (financial_tokenizer +:+ "/vocab_new.txt"))
   else
     call (AutoTokenizer_from_pretrained (Some tokenizer_name_or_path)));;
  call (AutoModelForTokenClassification_from_pretrained
          (model_name_or_path model_args)).

(** [None if path==None else BertEmbed.from_pretrained(path)]. *)
Definition optional_embedding (path : option string) : io unit :=
  if is_none path then mret () else call (BertEmbed_from_pretrained path).
Definition optional_tokenizer (path : option string) : io unit :=
  if is_none path then mret ()
  else call (AutoTokenizer_from_pretrained path).

Definition load_embeddings (model_args : ModelArguments) : io unit :=
  call (BertEmbed_from_pretrained (Some (model_name_or_path model_args)));;
  call (BertEmbed_from_pretrained (model_name_or_path_2 model_args));;
  optional_embedding (model_name_or_path_3 model_args);;
  optional_embedding (model_name_or_path_4 model_args);;
  optional_embedding (model_name_or_path_5 model_args);;
  optional_embedding (model_name_or_path_6 model_args).

(** Lines 420-518: the two composer variants. *)
Definition setup_meta_embeddings (model_args : ModelArguments) : io unit :=
  if use_metaemb model_args then
    load_embeddings model_args;;
    call (replace_embeddings "BertMetaEmbed");;
    call freeze_embedding_sources
  else if use_domain_metaemb model_args then
    load_embeddings model_args;;
    call (AutoTokenizer_from_pretrained
            (Some (model_name_or_path model_args)));;
    match model_name_or_path_2 model_args with
    | None => raise (TypeError "argument of type 'NoneType' is not iterable")
    | Some path_2 =>
        if str_contains financial path_2 then
          call (AutoTokenizer_from_pretrained (Some financial_tokenizer));;
          call (tokenizer_add_tokens
                  (financial_tokenizer +:+ "/vocab_new.txt"))
        else call (AutoTokenizer_from_pretrained (Some path_2))
    end;;
    optional_tokenizer (model_name_or_path_3 model_args);;
    optional_tokenizer (model_name_or_path_4 model_args);;
    optional_tokenizer (model_name_or_path_5 model_args);;
    optional_tokenizer (model_name_or_path_6 model_args);;
    call (replace_embeddings "BertMetaDomainEmbed");;
    call freeze_embedding_sources
  else mret ().

(** Lines 521-575. *)
Definition setup_adapters (data_args : DataTrainingArguments)
    (adapter_args : MultiLingAdapterArguments) (w : world) : io unit :=
  if train_adapter adapter_args then
    let task_name :=
      if truthy (dataset_name data_args)
      then default "" (dataset_name data_args) else "ner" in
    (if negb (list_contains task_name (config_adapters w)) then
       call (AdapterConfig_load (adapter_config adapter_args));;
       if truthy (load_adapter adapter_args) then
         call (model_load_adapter (load_adapter adapter_args)
                                  (Some task_name))
       else call (model_add_adapter task_name)
     else mret ());;
    lang_adapter_name ←
      (if truthy (load_lang_adapter adapter_args) then
         call (AdapterConfig_load (lang_adapter_config adapter_args));;
         call (model_load_adapter (load_lang_adapter adapter_args)
                                  (language adapter_args));;
         mret (if is_none (language adapter_args)
               then load_lang_adapter adapter_args
               else language adapter_args)
       else mret None);
    call (model_train_adapter task_name);;
    call (set_active_adapters
            (if truthy lang_adapter_name then lang_adapter_name else None)
            task_name)
  else
    if truthy (load_adapter adapter_args)
       || truthy (load_lang_adapter adapter_args)
    then raise (ValueError adapter_message)
    else mret ().

(** [dataset.select(range(n))]: the first [n] rows, none when [n] is not
    positive; the dataset library refuses a range that runs past the last
    row with an [IndexError] (its message, which names the index and the
    size, is shortened here). *)
Definition select_range (dataset : Dataset) (n : Z) : result Dataset :=
  if bool_decide (Z.of_nat (num_rows dataset) < n)
  then Raise (IndexError "Index out of range for dataset")
  else Ok {| column_names := column_names dataset;
             features := features dataset;
             num_rows := Z.to_nat n;
             columns :=
               (λ column, (column.1, take (Z.to_nat n) column.2))
                 <$> columns dataset;
             class_columns :=
               (λ column, (column.1, take (Z.to_nat n) column.2))
                 <$> class_columns dataset |}.

(** [examples[label_column_name]]: the cells of the tag column, strings or
    class ids. *)
Definition label_cells (dataset : Dataset) (name : string)
    : result (list (list pyval)) :=
  match items_getitem (columns dataset) name with
  | Ok rows => Ok (fmap (M := list) (fmap (M := list) VStr) rows)
  | Raise _ =>
      rows ← items_getitem (class_columns dataset) name;
      Ok (fmap (M := list) (fmap (M := list) VInt) rows)
  end.

(** What [dataset.map(tokenize_and_align_labels, batched=True)] runs: the
    script's function on the rows of the split, here as one batch (the
    tokenizer and the alignment work row by row); a split without rows is
    returned as it is. *)
Definition map_tokenize_and_align_labels (data_args : DataTrainingArguments)
    (w : world) (context : data_context) (dataset : Dataset) : result unit :=
  if bool_decide (num_rows dataset = 0%nat) then Ok ()
  else
    words ← items_getitem (columns dataset) (text_column context);
    tags ← label_cells dataset (label_column context);
    Align.tokenize_and_align_labels (label_to_id context)
      (label_all_tokens data_args) (tokenizer w)
      (Align.Examples words tags);;
    Ok ().

(** One of the three blocks of lines 633-676: the split check, the
    optional truncation to [max_samples] rows and the map. *)
Definition prepare_split (requested : bool) (split message : string)
    (max_samples : option Z) (data_args : DataTrainingArguments) (w : world)
    (context : data_context) (raw_datasets : list (string * Dataset))
    : io unit :=
  if requested then
    if negb (items_contains raw_datasets split)
    then raise (ValueError message)
    else
      dataset ← lift (items_getitem raw_datasets split);
      dataset ← lift match max_samples with
                     | Some n => select_range dataset n
                     | None => Ok dataset
                     end;
      call (dataset_map split);;
      lift (map_tokenize_and_align_labels data_args w context dataset)
  else mret ().

(** Lines 578-676: the tokenizer check and the three splits. *)
Definition preprocess (data_args : DataTrainingArguments)
    (training_args : TrainingArguments) (w : world) (context : data_context)
    (raw_datasets : list (string * Dataset)) : io unit :=
  (if negb (tokenizer_is_fast w)
   then raise (ValueError fast_tokenizer_message) else mret ());;
  prepare_split (do_train training_args) "train" train_message
                (max_train_samples data_args) data_args w context
                raw_datasets;;
  prepare_split (do_eval training_args) "validation" eval_message
                (max_eval_samples data_args) data_args w context
                raw_datasets;;
  prepare_split (do_predict training_args) "test" predict_message
                (max_predict_samples data_args) data_args w context
                raw_datasets.

(** [compute_metrics(p)] as the trainer calls it; the trainer keeps the
    returned dictionary for its logs. *)
Definition call_compute_metrics (data_args : DataTrainingArguments)
    (w : world) (context : data_context)
    (p : list (list Z) * list (list Z)) : result unit :=
  Metrics.compute_metrics (label_list context) (metric_compute w)
    (return_entity_level_metrics data_args) p.1 p.2;;
  Ok ().

(** The evaluation rounds of [trainer.train]. *)
Fixpoint compute_metrics_rounds (data_args : DataTrainingArguments)
    (w : world) (context : data_context)
    (rounds : list (list (list Z) * list (list Z))) : result unit :=
  match rounds with
  | [] => Ok ()
  | p :: rounds =>
      call_compute_metrics data_args w context p;;
      compute_metrics_rounds data_args w context rounds
  end.

(** Does the path end in a slash? *)
Fixpoint ends_with_slash (path : string) : bool :=
  match path with
  | EmptyString => false
  | String c EmptyString => Ascii.eqb c "/"
  | String _ rest => ends_with_slash rest
  end.

(** [os.path.join(dir, file)] for a relative [file]. *)
Definition os_path_join (dir file : string) : string :=
  match dir with
  | EmptyString => file
  | _ => if ends_with_slash dir then dir +:+ file else dir +:+ "/" +:+ file
  end.

(** Lines 678-781: the scorer, the trainer and the requested phases. *)
Definition run_trainer (data_args : DataTrainingArguments)
    (training_args : TrainingArguments) (w : world) (context : data_context)
    (last_checkpoint : option string) : io unit :=
  call (load_metric "./metrics/seqeval");;
  call trainer_init;;
  (if do_train training_args then
     call (trainer_train
             (if is_none (resume_from_checkpoint training_args)
              then last_checkpoint
              else resume_from_checkpoint training_args));;
     lift (compute_metrics_rounds data_args w context (train_evaluations w))
   else mret ());;
  (if do_eval training_args then
     call trainer_evaluate;;
     lift (call_compute_metrics data_args w context (evaluate_output w))
   else mret ());;
  (if do_predict training_args then
     call trainer_predict;;
     lift (call_compute_metrics data_args w context (predict_output w));;
     file ← lift (Predict.predictions_file (label_list context)
                    (predict_output w).1 (predict_output w).2);
     if is_world_process_zero w then
       call (write_file (os_path_join (output_dir training_args)
                                      "predictions.txt") file)
     else mret ()
   else mret ()).

(** [main]: the argument parser constructs the four argument objects
    (running [__post_init__] on the data arguments), then the blocks
    above run in the order of the source. *)
Definition main (model_args : ModelArguments)
    (data_args : DataTrainingArguments)
    (training_args : TrainingArguments)
    (adapter_args : MultiLingAdapterArguments) (w : world) : io unit :=
  data_args ← lift (post_init (str_lower w) data_args);
  last_checkpoint ← lift (detect_last_checkpoint training_args w);
  raw_datasets ← get_raw_datasets data_args w;
  context ← lift (select_columns_and_labels data_args training_args w
                    raw_datasets);
  load_model_and_tokenizer model_args w;;
  setup_meta_embeddings model_args;;
  setup_adapters data_args adapter_args w;;
  preprocess data_args training_args w context raw_datasets;;
  run_trainer data_args training_args w context last_checkpoint.

(** A hub dataset with the three usual splits and [ClassLabel] tags. *)
Definition conll_split : Dataset := {|
  column_names := ["id"; "tokens"; "ner_tags"];
  features := [("ner_tags", Vocab.ClassLabel ["O"; "B-LOC"; "I-LOC"])];
  num_rows := 1;
  columns := [("tokens", [["New"; "York"; "is"; "big"]])];
  class_columns := [("ner_tags", [[1; 2; 0; 0]])]
|}.

(** Local files with string tags. *)
Definition file_split : Dataset := {|
  column_names := ["words"; "labels"];
  features := [("words", Vocab.Value "string");
               ("labels", Vocab.Value "string")];
  num_rows := 2;
  columns := [("words", [["Paris"; "is"]; ["York"; "big"]]);
              ("labels", [["O"; "B-LOC"]; ["I-LOC"; "O"]])];
  class_columns := []
|}.

(** A world with a fresh output directory, a BERT checkpoint with a fast
    tokenizer and no adapters; a hub dataset has train, validation and
    test, and local files give the splits they name.  The trainer does
    not evaluate during training, and hands one seven-token sequence to
    the scorer in [evaluate] and in [predict]. *)
Definition a_world : world := {|
  output_dir_isdir := false;
  get_last_checkpoint := None;
  output_dir_listing := [];
  loaded_dataset := λ path name data_files,
    match data_files with
    | None => [("train", conll_split); ("validation", conll_split);
               ("test", conll_split)]
    | Some files => (λ f, (f.1, file_split)) <$> files
    end;
  set_iter := elements;
  config_model_type := "bert";
  tokenizer_is_fast := true;
  config_adapters := [];
  str_lower := lower_ascii;
  tokenizer := Scenario.tokenizer;
  metric_compute := λ _ _, Metrics.seqeval_like;
  train_evaluations := [];
  evaluate_output := ([[0; 1; 2; 2; 0; 0; 0]],
                      [[-100; 1; 2; -100; 0; 0; -100]]);
  predict_output := ([[0; 1; 2; 2; 0; 0; 0]],
                     [[-100; 1; 2; -100; 0; 0; -100]]);
  is_world_process_zero := true
|}.

Definition training_args_with (train eval predict : bool)
    : TrainingArguments := {|
  output_dir := "out";
  overwrite_output_dir := false;
  do_train := train;
  do_eval := eval;
  do_predict := predict;
  resume_from_checkpoint := None;
  fp16 := false
|}.

Definition adapter_args_with (train : bool) (load : option string)
    : MultiLingAdapterArguments := {|
  train_adapter := train;
  load_adapter := load;
  adapter_config := Some "pfeiffer";
  load_lang_adapter := None;
  lang_adapter_config := None;
  language := None
|}.

(** The errors that [main] raises only late: the adapter error and the
    missing validation or test split. *)
Definition late_error (e : exn) : Prop :=
  e = ValueError adapter_message ∨ e = ValueError eval_message ∨
  e = ValueError predict_message.

(** Model loading, as the trace shows it. *)
Definition is_model_load (e : event) : Prop :=
  match e with
  | AutoModelForTokenClassification_from_pretrained _ => True
  | _ => False
  end.
End Main.

(** ** The model configuration's label maps (lines 358-375) *)

Module ModelConfig.

(** [num_labels = len(label_list)]. *)
Definition num_labels (label_list : list string) : nat := length label_list.

(** [{i: l for l, i in label_to_id.items()}], with [items] the items of
    [label_to_id] in the order the dictionary yields them; a later item
    with the same id replaces an earlier one. *)
Definition id2label (items : list (pyval * Z)) : gmap Z pyval :=
  foldl (λ d '(l, i), <[i := l]> d) ∅ items.

End ModelConfig.

(** ** Reading a run *)

Module Run.
Import Main.

(** The calls that construct or drive the trainer. *)
Definition is_trainer_call (e : event) : bool :=
  match e with
  | trainer_init | trainer_train _ | trainer_evaluate | trainer_predict => true
  | _ => false
  end.

(** A computation none of whose calls touches the trainer. *)
Definition quiet {A} (m : io A) : Prop :=
  Forall (λ e, is_trainer_call e = false) (trace m).

(** The errors of the script's own checks that come after the model has
    been loaded. *)
Definition check_error (e : exn) : Prop :=
  ∃ msg, e = ValueError msg ∧
    msg ∈ [adapter_message; fast_tokenizer_message; train_message;
           eval_message; predict_message].

(** The exceptions of a failed lookup: a dictionary key or a list index. *)
Definition lookup_error (e : exn) : Prop :=
  (∃ key, e = KeyError key) ∨ (∃ msg, e = IndexError msg).

(** The exceptions of the scorer wrapper and of the prediction filter: a
    class id or a label that is no index of [label_list], or a scorer
    result without one of the four overall entries. *)
Definition metrics_error (e : exn) : Prop :=
  e = IndexError "list index out of range" ∨
  ∃ key, e = KeyError (VStr key) ∧
    key ∈ ["overall_precision"; "overall_recall"; "overall_f1";
           "overall_accuracy"].

(** The trainer calls of a run that trains, evaluates and predicts as
    requested, training from [checkpoint]. *)
Definition requested_phases (training_args : Args.TrainingArguments)
    (checkpoint : option string) : list event :=
  [trainer_init]
  ++ (if Args.do_train training_args then [trainer_train checkpoint] else [])
  ++ (if Args.do_eval training_args then [trainer_evaluate] else [])
  ++ (if Args.do_predict training_args then [trainer_predict] else []).

(** A hub dataset that has a validation split only, with string tags. *)
Definition validation_only_world : world := {|
  output_dir_isdir := false;
  get_last_checkpoint := None;
  output_dir_listing := [];
  loaded_dataset := λ _ _ _, [("validation", file_split)];
  set_iter := elements;
  config_model_type := "bert";
  tokenizer_is_fast := true;
  config_adapters := [];
  str_lower := lower_ascii;
  tokenizer := Scenario.tokenizer;
  metric_compute := λ _ _, Metrics.seqeval_like;
  train_evaluations := [];
  evaluate_output := ([], []);
  predict_output := ([], []);
  is_world_process_zero := true
|}.

(** Local files whose validation split carries a tag that the train split
    does not have. *)
Definition unseen_tag_split : Dataset := {|
  column_names := ["words"; "labels"];
  features := [("words", Vocab.Value "string");
               ("labels", Vocab.Value "string")];
  num_rows := 1;
  columns := [("words", [["Rome"; "is"]]); ("labels", [["B-MISC"; "O"]])];
  class_columns := []
|}.

Definition unseen_tag_world : world := {|
  output_dir_isdir := false;
  get_last_checkpoint := None;
  output_dir_listing := [];
  loaded_dataset := λ _ _ _,
    [("train", file_split); ("validation", unseen_tag_split)];
  set_iter := elements;
  config_model_type := "bert";
  tokenizer_is_fast := true;
  config_adapters := [];
  str_lower := lower_ascii;
  tokenizer := Scenario.tokenizer;
  metric_compute := λ _ _, Metrics.seqeval_like;
  train_evaluations := [];
  evaluate_output := ([], []);
  predict_output := ([], []);
  is_world_process_zero := true
|}.

(** A hub dataset, and a trainer that hands a class id to the scorer
    wrapper for which [label_list] has no name. *)
Definition stray_class_world : world := {|
  output_dir_isdir := false;
  get_last_checkpoint := None;
  output_dir_listing := [];
  loaded_dataset := λ _ _ _,
    [("train", conll_split); ("validation", conll_split)];
  set_iter := elements;
  config_model_type := "bert";
  tokenizer_is_fast := true;
  config_adapters := [];
  str_lower := lower_ascii;
  tokenizer := Scenario.tokenizer;
  metric_compute := λ _ _, Metrics.seqeval_like;
  train_evaluations := [];
  evaluate_output := ([[0; 7]], [[0; 0]]);
  predict_output := ([], []);
  is_world_process_zero := true
|}.

End Run.

(** * Properties *)

Lemma list_getitem_Ok {A} (l : list A) i x :
  list_getitem l i = Ok x ↔ l !! i = Some x.
Proof. unfold list_getitem. destruct (l !! i); naive_solver. Qed.

Lemma dict_getitem_Ok {V} (d : gmap pyval V) k v :
  dict_getitem d k = Ok v ↔ d !! k = Some v.
Proof. unfold dict_getitem. destruct (d !! k); naive_solver. Qed.

Lemma bind_Ok {A B} (m : result A) (f : A → result B) b :
  m ≫= f = Ok b ↔ ∃ a, m = Ok a ∧ f a = Ok b.
Proof.
  destruct m as [a|e]; simpl.
  - split; [by exists a|]. by intros (a' & [= <-] & ?).
  - split; [done|]. by intros (a' & ? & ?).
Qed.

(** ** Label alignment *)

Section align_facts.
Import Align.
Context (label_to_id : gmap pyval Z) (label_all_tokens : bool).
Implicit Types (label : list pyval) (W : list (option nat)).

Lemma align_loop_Ok label W prev acc ls :
  align_loop label_to_id label_all_tokens label W prev acc = Ok ls ↔
  ∃ ls', ls = acc ++ ls' ∧ length ls' = length W ∧
    ∀ i o, W !! i = Some o →
      ∃ x, ls' !! i = Some x ∧
        label_for label_to_id label_all_tokens label (tracker_from prev W i) o
        = Ok x.
Proof.
  revert prev acc ls. induction W as [|o W IH]; intros prev acc ls; simpl.
  - split.
    + intros [= <-]. exists []. rewrite app_nil_r. naive_solver.
    + intros (ls' & -> & Hlen & _). destruct ls'; [|done].
      by rewrite app_nil_r.
  - rewrite bind_Ok. setoid_rewrite IH. split.
    + intros (x & Hx & ls' & -> & Hlen & Hpt).
      exists (x :: ls'). rewrite <-app_assoc. split_and!; [done|simpl; lia|].
      intros [|i] o' Hi; simplify_eq/=; [eauto|].
      destruct (Hpt i o' Hi) as (y & ? & Hy). exists y. split; [done|].
      destruct i; simpl in *; [done|]. done.
    + intros (ls' & -> & Hlen & Hpt). destruct ls' as [|x ls']; [done|].
      destruct (Hpt 0%nat o eq_refl) as (x' & [= <-] & Hx).
      exists x. split; [done|]. exists ls'. rewrite <-app_assoc.
      split_and!; [done|simpl in *; lia|].
      intros i o' Hi. destruct (Hpt (S i) o' Hi) as (y & ? & Hy).
      exists y. split; [done|]. by destruct i.
Qed.

Lemma labels_loop_Ok (encs : list encoding) i column acc labels :
  labels_loop label_to_id label_all_tokens encs i column acc = Ok labels ↔
  ∃ ls', labels = acc ++ ls' ∧ length ls' = length column ∧
    ∀ k label, column !! k = Some label →
      ∃ enc label_ids, encs !! (i + k)%nat = Some enc ∧
        ls' !! k = Some label_ids ∧
        align_labels label_to_id label_all_tokens label (word_ids enc)
        = Ok label_ids.
Proof.
  revert i acc labels.
  induction column as [|label column IH]; intros i acc labels; simpl.
  - split.
    + intros [= <-]. exists []. rewrite app_nil_r. naive_solver.
    + intros (ls' & -> & Hlen & _). destruct ls'; [|done].
      by rewrite app_nil_r.
  - rewrite bind_Ok. setoid_rewrite bind_Ok. setoid_rewrite IH.
    setoid_rewrite list_getitem_Ok. split.
    + intros (enc & Henc & ids & Hids & ls' & -> & Hlen & Hpt).
      exists (ids :: ls'). rewrite <-app_assoc.
      split_and!; [done|simpl; lia|].
      intros [|k] label' Hk; simplify_eq/=.
      * exists enc, ids. by rewrite Nat.add_0_r.
      * destruct (Hpt k label' Hk) as (enc' & ids' & ? & ? & ?).
        exists enc', ids'.
        by replace (i + S k)%nat with (S i + k)%nat by lia.
    + intros (ls' & -> & Hlen & Hpt). destruct ls' as [|ids ls']; [done|].
      destruct (Hpt 0%nat label eq_refl) as (enc & ids' & Henc & [= <-] & ?).
      rewrite Nat.add_0_r in Henc.
      exists enc. split; [done|]. exists ids. split; [done|].
      exists ls'. rewrite <-app_assoc. split_and!; [done|simpl in *; lia|].
      intros k label' Hk.
      destruct (Hpt (S k) label' Hk) as (enc' & ids' & ? & ? & ?).
      exists enc', ids'.
      by replace (S i + k)%nat with (i + S k)%nat by lia.
Qed.

(** One subword's label, read off the three cases of the loop body. *)
Lemma label_for_Ok label prev o x :
  label_for label_to_id label_all_tokens label prev o = Ok x ↔
  match o with
  | None => x = -100
  | Some w =>
      if decide (prev = Some w) then
        if label_all_tokens then
          ∃ t, label !! w = Some t ∧ label_to_id !! t = Some x
        else x = -100
      else ∃ t, label !! w = Some t ∧ label_to_id !! t = Some x
  end.
Proof.
  unfold label_for, ignore_index. destruct o as [w|]; [|naive_solver].
  destruct (decide (prev = Some w)) as [->|Hne].
  - rewrite decide_False by naive_solver. destruct label_all_tokens.
    + rewrite bind_Ok. setoid_rewrite list_getitem_Ok.
      by setoid_rewrite dict_getitem_Ok.
    + naive_solver.
  - rewrite decide_True by naive_solver.
    rewrite bind_Ok. setoid_rewrite list_getitem_Ok.
    by setoid_rewrite dict_getitem_Ok.
Qed.

(** When every word id is in range and every tag has an id, no lookup of
    the loop body raises. *)
Lemma label_for_total label prev o :
  (∀ w, o = Some w → (w < length label)%nat) →
  (∀ t, t ∈ label → is_Some (label_to_id !! t)) →
  ∃ x, label_for label_to_id label_all_tokens label prev o = Ok x.
Proof.
  intros Hrange Hcover. destruct o as [w|]; [|by eexists].
  destruct (lookup_lt_is_Some_2 label w (Hrange w eq_refl)) as [t Ht].
  destruct (Hcover t) as [x Hx]; [by eapply list_elem_of_lookup_2|].
  assert (list_getitem label w ≫= dict_getitem label_to_id = Ok x) as Hget.
  { apply bind_Ok. exists t. by rewrite list_getitem_Ok, dict_getitem_Ok. }
  unfold label_for. case_decide; [eauto|]. destruct label_all_tokens; eauto.
Qed.

Lemma align_loop_total label W prev acc :
  (∀ i w, W !! i = Some (Some w) → (w < length label)%nat) →
  (∀ t, t ∈ label → is_Some (label_to_id !! t)) →
  ∃ ls, align_loop label_to_id label_all_tokens label W prev acc = Ok ls.
Proof.
  intros Hrange Hcover. revert prev acc.
  induction W as [|o W IH]; intros prev acc; simpl; [by eexists|].
  destruct (label_for_total label prev o) as [x ->]; [|done|].
  { intros w ->. by apply (Hrange 0%nat). }
  simpl. apply IH. intros i w Hi. by apply (Hrange (S i)).
Qed.

Lemma align_labels_pointwise label W ls :
  align_labels label_to_id label_all_tokens label W = Ok ls →
  length ls = length W ∧
  ∀ i o, W !! i = Some o →
    ∃ x, ls !! i = Some x ∧
      label_for label_to_id label_all_tokens label (tracker W i) o = Ok x.
Proof.
  unfold align_labels. rewrite align_loop_Ok.
  by intros (ls' & -> & ? & ?).
Qed.

Lemma labels_loop_total (encs : list encoding) i column acc :
  (i + length column ≤ length encs)%nat →
  (∀ k tags enc j w,
      column !! k = Some tags → encs !! (i + k)%nat = Some enc →
      word_ids enc !! j = Some (Some w) → (w < length tags)%nat) →
  (∀ tags t, tags ∈ column → t ∈ tags → is_Some (label_to_id !! t)) →
  ∃ labels,
    labels_loop label_to_id label_all_tokens encs i column acc = Ok labels.
Proof.
  revert i acc. induction column as [|tags column IH];
    intros i acc Hle Hrange Hcover; simpl in *; [by eexists|].
  destruct (lookup_lt_is_Some_2 encs i) as [enc Henc]; [lia|].
  unfold list_getitem. rewrite Henc. simpl.
  destruct (align_loop_total tags (word_ids enc) None []) as [ids Hids].
  { intros j w. apply (Hrange 0%nat tags enc); [done|].
    by rewrite Nat.add_0_r. }
  { intros t. apply Hcover. by left. }
  unfold align_labels. rewrite Hids. simpl. apply IH; [lia| |].
  - intros k tags' enc' j w Hk Henc'. apply (Hrange (S k) tags' enc'); [done|].
    by replace (i + S k)%nat with (S i + k)%nat by lia.
  - intros tags' t ?. apply Hcover. by right.
Qed.
End align_facts.

(** C1. [tokenize_and_align_labels] returns, for every example of the batch,
    exactly one integer per subword position, in subword order: -100 where
    the word id is [None]; [label_to_id[tag[word_idx]]] where the word id
    differs from the tracker (the previous position's word id, [None] at the
    start); and on a continuation subword [label_to_id[tag[word_idx]]] when
    [label_all_tokens] holds and -100 otherwise.  The examples pair every
    word list with a tag list of equal length, the tokenizer returns one
    encoding per example with word ids below the word count, and every tag
    has an id. *)
Theorem tokenize_and_align_labels_spec
    (label_to_id : gmap pyval Z) (label_all_tokens : bool)
    (tokenizer : list (list string) → list Align.encoding)
    (ex : Align.examples) :
  Forall2 (λ words tags, length words = length tags)
          (Align.text_column ex) (Align.label_column ex) →
  length (tokenizer (Align.text_column ex)) = length (Align.text_column ex) →
  (∀ i words enc j w,
      Align.text_column ex !! i = Some words →
      tokenizer (Align.text_column ex) !! i = Some enc →
      Align.word_ids enc !! j = Some (Some w) → (w < length words)%nat) →
  (∀ tags t, tags ∈ Align.label_column ex → t ∈ tags →
      is_Some (label_to_id !! t)) →
  ∃ labels,
    Align.tokenize_and_align_labels label_to_id label_all_tokens tokenizer ex
    = Ok (tokenizer (Align.text_column ex), labels) ∧
    length labels = length (Align.label_column ex) ∧
    ∀ i tags enc,
      Align.label_column ex !! i = Some tags →
      tokenizer (Align.text_column ex) !! i = Some enc →
      ∃ label_ids,
        labels !! i = Some label_ids ∧
        length label_ids = length (Align.word_ids enc) ∧
        ∀ j word_idx, Align.word_ids enc !! j = Some word_idx →
          match word_idx with
          | None => label_ids !! j = Some (-100)
          | Some w =>
              ∃ t id, tags !! w = Some t ∧ label_to_id !! t = Some id ∧
                label_ids !! j =
                Some (if decide (Some w ≠ Align.tracker (Align.word_ids enc) j)
                      then id
                      else if label_all_tokens then id else -100)
          end.
Proof.
  intros Hrows Hlen Hrange Hcover.
  set (encs := tokenizer (Align.text_column ex)) in *.
  pose proof (Forall2_length _ _ _ Hrows) as Hcols.
  destruct (labels_loop_total label_to_id label_all_tokens encs 0
              (Align.label_column ex) []) as [labels Hloop]; [simpl; lia| |done|].
  { intros k tags enc j w Hk Henc.
    destruct (Forall2_lookup_r _ _ _ _ _ Hrows Hk) as (words & Hw & <-).
    eauto. }
  exists labels. unfold Align.tokenize_and_align_labels. fold encs.
  rewrite Hloop. split; [done|].
  apply labels_loop_Ok in Hloop as (ls' & -> & Hlen' & Hpt).
  split; [done|]. intros i tags enc Hi Henc.
  destruct (Hpt i tags Hi) as (enc' & ids & Henc' & Hids & Halign).
  simpl in Henc'. simplify_eq. exists ids. split; [done|].
  apply align_labels_pointwise in Halign as [Hl Hpos]. split; [done|].
  intros j o Hj. destruct (Hpos j o Hj) as (x & Hx & Hfor).
  apply label_for_Ok in Hfor. destruct o as [w|]; [|by subst].
  assert (∃ t id, tags !! w = Some t ∧ label_to_id !! t = Some id)
    as (t & id & Ht & Hid).
  { destruct (Forall2_lookup_r _ _ _ _ _ Hrows Hi) as (words & Hw & Hwl).
    destruct (lookup_lt_is_Some_2 tags w) as [t Ht].
    { rewrite <-Hwl. by eapply (Hrange i). }
    destruct (Hcover tags t) as [id Hid];
      [by eapply list_elem_of_lookup_2..|].
    by exists t, id. }
  exists t, id. split_and!; [done..|]. rewrite Hx. f_equal.
  destruct (decide (Align.tracker (Align.word_ids enc) j = Some w)) as [Heq|Hne].
  - rewrite decide_False by (rewrite Heq; naive_solver).
    destruct label_all_tokens; [|done].
    destruct Hfor as (t' & ? & ?). by simplify_eq.
  - rewrite decide_True by naive_solver.
    destruct Hfor as (t' & ? & ?). by simplify_eq.
Qed.

Example scenario_first_subword_only :
  Align.tokenize_and_align_labels Scenario.label_to_id false
    Scenario.tokenizer Scenario.ex
  = Ok (Scenario.tokenizer (Align.text_column Scenario.ex),
        [[-100; 0; 1; -100; 2; 2; -100]]).
Proof. vm_compute. reflexivity. Qed.

Example scenario_all_subwords :
  Align.tokenize_and_align_labels Scenario.label_to_id true
    Scenario.tokenizer Scenario.ex
  = Ok (Scenario.tokenizer (Align.text_column Scenario.ex),
        [[-100; 0; 1; 1; 2; 2; -100]]).
Proof. vm_compute. reflexivity. Qed.

Lemma tokenize_and_align_labels_spec_witness :
  ∃ labels,
    Align.tokenize_and_align_labels Scenario.label_to_id false
      Scenario.tokenizer Scenario.ex
    = Ok (Scenario.tokenizer (Align.text_column Scenario.ex), labels) ∧
    length labels = 1%nat.
Proof.
  destruct (tokenize_and_align_labels_spec Scenario.label_to_id false
              Scenario.tokenizer Scenario.ex) as (labels & H1 & H2 & _).
  - repeat constructor.
  - reflexivity.
  - intros [|i] words enc j w Hi Henc Hj; [|done].
    injection Hi as <-. injection Henc as <-.
    do 7 (destruct j as [|j]; [simpl in Hj; try discriminate Hj;
                                injection Hj as <-; simpl; lia|]).
    discriminate Hj.
  - intros tags t Htags Ht.
    apply list_elem_of_singleton in Htags as ->.
    repeat (apply elem_of_cons in Ht as [->|Ht]; [by eexists|]).
    by apply elem_of_nil in Ht.
  - exists labels. by split.
Defined.

(** C2. Whatever the word-id map looks like (word ids need not come in
    runs), the label at a position that is the first occurrence of its word
    id is [label_to_id[tag[word_idx]]], under either labelling policy. *)
Theorem first_occurrence_label
    (label_to_id : gmap pyval Z) (label_all_tokens : bool)
    (tags : list pyval) (W : list (option nat)) (i w : nat) :
  (∀ j w', W !! j = Some (Some w') → (w' < length tags)%nat) →
  (∀ t, t ∈ tags → is_Some (label_to_id !! t)) →
  W !! i = Some (Some w) →
  (∀ j, (j < i)%nat → W !! j ≠ Some (Some w)) →
  ∃ label_ids t id,
    Align.align_labels label_to_id label_all_tokens tags W = Ok label_ids ∧
    length label_ids = length W ∧
    tags !! w = Some t ∧ label_to_id !! t = Some id ∧
    label_ids !! i = Some id.
Proof.
  intros Hrange Hcover Hi Hfirst.
  destruct (align_loop_total label_to_id label_all_tokens tags W None [])
    as [ls Hls]; [done..|].
  apply align_labels_pointwise in Hls as Hpt. destruct Hpt as [Hlen Hpt].
  destruct (Hpt i _ Hi) as (x & Hx & Hfor).
  apply label_for_Ok in Hfor. rewrite decide_False in Hfor.
  - destruct Hfor as (t & ? & ?). by exists ls, t, x.
  - unfold Align.tracker, Align.tracker_from. destruct i as [|i]; [done|].
    intros Heq. apply (Hfirst i); [lia|].
    destruct (W !! i) as [o|] eqn:Ho; simpl in Heq; by subst.
Qed.

Lemma first_occurrence_label_witness :
  ∃ label_ids,
    Align.align_labels Scenario.label_to_id false
      [VStr "B-LOC"; VStr "O"] [Some 0; Some 1; Some 0]%nat = Ok label_ids ∧
    label_ids !! 1%nat = Some 2.
Proof.
  destruct (first_occurrence_label Scenario.label_to_id false
              [VStr "B-LOC"; VStr "O"] [Some 0; Some 1; Some 0]%nat 1 1)
    as (ls & t & id & H1 & _ & Ht & Hid & Hl).
  - intros j w' Hj.
    do 3 (destruct j as [|j]; [injection Hj as <-; simpl; lia|]).
    discriminate Hj.
  - intros t Ht.
    repeat (apply elem_of_cons in Ht as [->|Ht]; [by eexists|]).
    by apply elem_of_nil in Ht.
  - reflexivity.
  - intros j Hj. destruct j as [|j]; [discriminate|lia].
  - exists ls. split; [done|].
    injection Ht as <-. rewrite Hl. f_equal.
    change (Scenario.label_to_id !! VStr "O" = Some id) in Hid.
    vm_compute in Hid. by injection Hid as <-.
Defined.

(** ** Label vocabulary *)

Section vocab_facts.
Import Vocab.
Implicit Types (labels : list (list string)) (X : gset string).

Lemma elem_of_scan_from labels X t :
  t ∈ foldl (λ acc label, acc ∪ list_to_set label) X labels ↔
  t ∈ X ∨ ∃ tags, tags ∈ labels ∧ t ∈ tags.
Proof.
  revert X. induction labels as [|tags labels IH]; intros X; simpl.
  - split; [by left|]. intros [?|(tags & Hin & _)]; [done|].
    by apply elem_of_nil in Hin.
  - rewrite IH, elem_of_union, elem_of_list_to_set. split.
    + intros [[?|?]|(tags' & ? & ?)]; [by left|right..].
      * exists tags. split; [by left|done].
      * exists tags'. split; [by right|done].
    + intros [?|(tags' & [->|?]%elem_of_cons & ?)]; [by left; left| |].
      * by left; right.
      * right. by exists tags'.
Qed.

Lemma elem_of_scan_labels labels t :
  t ∈ scan_labels labels ↔ ∃ tags, tags ∈ labels ∧ t ∈ tags.
Proof.
  unfold scan_labels. rewrite elem_of_scan_from. set_solver.
Qed.

Lemma scan_labels_Permutation labels labels' :
  labels ≡ₚ labels' → scan_labels labels = scan_labels labels'.
Proof.
  intros Hp. apply set_eq. intros t. rewrite !elem_of_scan_labels.
  by setoid_rewrite Hp.
Qed.

Lemma enumerate_from_lookup {A} (l : list A) n i x :
  enumerate_from n l !! i = Some x ↔ ∃ y, x = ((n + i)%nat, y) ∧ l !! i = Some y.
Proof.
  revert n i. induction l as [|y l IH]; intros n i; simpl.
  - split; [done|]. by intros (? & _ & ?).
  - destruct i as [|i]; simpl.
    + rewrite Nat.add_0_r. naive_solver.
    + rewrite IH. by replace (S n + i)%nat with (n + S i)%nat by lia.
Qed.
End vocab_facts.

Section vocab_facts2.
Import Vocab.
Implicit Types (labels : list (list string)) (X : gset string).

Local Abbreviation ins :=
  (λ (d : gmap pyval Z) '(i, l), <[VStr l := Z.of_nat i]> d).

Lemma enumerate_fold_other (l : list string) n (d : gmap pyval Z) k :
  (∀ t, t ∈ l → k ≠ VStr t) →
  foldl ins d (enumerate_from n l) !! k = d !! k.
Proof.
  revert n d. induction l as [|x l IH]; intros n d Hk; simpl; [done|].
  rewrite IH by (intros t ?; apply Hk; by right).
  apply lookup_insert_ne. intros <-. by apply (Hk x); [left|].
Qed.

Lemma enumerate_fold_lookup (l : list string) n (d : gmap pyval Z) i t :
  NoDup l → l !! i = Some t →
  foldl ins d (enumerate_from n l) !! VStr t = Some (Z.of_nat (n + i)).
Proof.
  intros Hnd. revert n d i.
  induction Hnd as [|x l Hx Hnd IH]; intros n d i Hi; [done|].
  destruct i as [|i]; simplify_eq/=.
  - rewrite enumerate_fold_other, Nat.add_0_r; [apply lookup_insert_eq|].
    intros t' ? [= <-]. done.
  - rewrite (IH (S n) _ i) by done. do 2 f_equal. lia.
Qed.

Lemma enumerate_dict_lookup (l : list string) k v :
  NoDup l →
  enumerate_dict l !! k = Some v ↔
  ∃ i t, k = VStr t ∧ v = Z.of_nat i ∧ l !! i = Some t.
Proof.
  intros Hnd. unfold enumerate_dict. split.
  - intros Hk.
    destruct k as [t|z]; [destruct (decide (t ∈ l)) as [Hin|Hno]|].
    + apply list_elem_of_lookup_1 in Hin as [i Hi]. exists i, t.
      rewrite (enumerate_fold_lookup l 0 ∅ i t) in Hk by done.
      by simplify_eq/=.
    + rewrite enumerate_fold_other in Hk by naive_solver. done.
    + rewrite enumerate_fold_other in Hk by done. done.
  - intros (i & t & -> & -> & Hi).
    by rewrite (enumerate_fold_lookup l 0 ∅ i t).
Qed.

Section iter.
Context (set_iter : gset string → list string).
Hypothesis set_iter_elements : ∀ X, set_iter X ≡ₚ elements X.

Lemma get_label_list_Permutation labels :
  get_label_list set_iter labels ≡ₚ elements (scan_labels labels).
Proof.
  unfold get_label_list. by rewrite merge_sort_Permutation.
Qed.

Lemma get_label_list_Sorted labels :
  Sorted str_le (get_label_list set_iter labels).
Proof. apply (Sorted_merge_sort str_le). Qed.

Lemma get_label_list_NoDup labels :
  NoDup (get_label_list set_iter labels).
Proof. rewrite get_label_list_Permutation. apply NoDup_elements. Qed.

Lemma elem_of_get_label_list labels t :
  t ∈ get_label_list set_iter labels ↔ ∃ tags, tags ∈ labels ∧ t ∈ tags.
Proof.
  by rewrite get_label_list_Permutation, elem_of_elements,
    elem_of_scan_labels.
Qed.
End iter.

(** Two sorted enumerations of the same set are the same list. *)
Lemma sorted_enumeration_unique (l1 l2 : list string) :
  Sorted str_le l1 → Sorted str_le l2 → l1 ≡ₚ l2 → l1 = l2.
Proof. apply (Sorted_unique str_le). Qed.
End vocab_facts2.

Example get_label_list_conll :
  Vocab.get_label_list Vocab.iter_reversed
    [["O"; "B-LOC"]; ["I-LOC"; "O"]; []; ["B-PER"; "O"; "B-LOC"]]
  = ["B-LOC"; "B-PER"; "I-LOC"; "O"].
Proof. vm_compute. reflexivity. Qed.

(** C3. The scan-based builder returns the sorted list of the distinct tag
    values occurring in any of the label sequences, and [label_to_id] sends
    each tag to its position in that list and has no other key.  The result
    does not depend on the order in which the set is walked (so a re-run
    gives the same list and mapping), nor on the order of the sequences, and
    the builder applied to its own output returns it unchanged. *)
Theorem label_vocabulary_scan
    (set_iter set_iter' : gset string → list string)
    (dtype : string) (labels : list (list string)) :
  (∀ X, set_iter X ≡ₚ elements X) →
  (∀ X, set_iter' X ≡ₚ elements X) →
  ∃ label_list label_to_id,
    Vocab.label_vocabulary set_iter (Vocab.Value dtype) labels
    = (label_list, label_to_id) ∧
    label_list = Vocab.get_label_list set_iter labels ∧
    Sorted Vocab.str_le label_list ∧
    NoDup label_list ∧
    (∀ t, t ∈ label_list ↔ ∃ tags, tags ∈ labels ∧ t ∈ tags) ∧
    (∀ k v, label_to_id !! k = Some v ↔
            ∃ i t, k = VStr t ∧ v = Z.of_nat i ∧ label_list !! i = Some t) ∧
    Vocab.label_vocabulary set_iter' (Vocab.Value dtype) labels
    = (label_list, label_to_id) ∧
    (∀ labels', labels' ≡ₚ labels →
       Vocab.label_vocabulary set_iter (Vocab.Value dtype) labels'
       = (label_list, label_to_id)) ∧
    Vocab.label_vocabulary set_iter (Vocab.Value dtype) [label_list]
    = (label_list, label_to_id).
Proof.
  intros Hiter Hiter'. eexists _, _. split; [reflexivity|].
  pose proof (get_label_list_Sorted set_iter labels) as Hsorted.
  pose proof (get_label_list_NoDup set_iter Hiter labels) as Hnd.
  split_and!; [done..| | | | |].
  - apply elem_of_get_label_list, Hiter.
  - intros k v. by apply enumerate_dict_lookup.
  - simpl.
    assert (Vocab.get_label_list set_iter' labels
            = Vocab.get_label_list set_iter labels) as ->; [|done].
    apply sorted_enumeration_unique; [apply get_label_list_Sorted..|].
    by rewrite !get_label_list_Permutation.
  - intros labels' Hp. simpl. unfold Vocab.get_label_list.
    by rewrite (scan_labels_Permutation _ _ Hp).
  - simpl.
    assert (Vocab.get_label_list set_iter [Vocab.get_label_list set_iter labels]
            = Vocab.get_label_list set_iter labels) as ->; [|done].
    apply sorted_enumeration_unique; [apply get_label_list_Sorted..|].
    rewrite get_label_list_Permutation by done.
    apply NoDup_Permutation; [apply NoDup_elements|done|].
    intros t. rewrite elem_of_elements, elem_of_scan_labels. split.
    + intros (tags & Hin & ?). by apply list_elem_of_singleton in Hin as ->.
    + intros ?. eexists. split; [apply list_elem_of_singleton|]; done.
Qed.

Lemma label_vocabulary_scan_witness :
  Vocab.label_vocabulary Vocab.iter_reversed (Vocab.Value "string")
    [["O"; "B-LOC"]; ["I-LOC"; "O"]]
  = (["B-LOC"; "I-LOC"; "O"], Scenario.label_to_id).
Proof.
  destruct (label_vocabulary_scan Vocab.iter_elements Vocab.iter_reversed
              "string" [["O"; "B-LOC"]; ["I-LOC"; "O"]])
    as (label_list & label_to_id & H1 & _ & _ & _ & _ & _ & H2 & _).
  - done.
  - intros X. apply reverse_Permutation.
  - rewrite H2, <-H1. vm_compute. reflexivity.
Defined.

(** ** Column name resolution *)

Lemma list_contains_elem_of x l :
  list_contains x l = true ↔ x ∈ l.
Proof.
  induction l as [|y l IH]; simpl.
  - split; [done|]. by intros ?%elem_of_nil.
  - rewrite elem_of_cons. destruct (String.eqb_spec x y) as [->|Hne].
    + naive_solver.
    + rewrite IH. naive_solver.
Qed.



Example column_resolution_conll :
  Columns.resolve_columns Args.data_defaults
    ["id"; "tokens"; "pos_tags"; "chunk_tags"; "ner_tags"]
  = Ok ("tokens", "ner_tags").
Proof. reflexivity. Qed.

Example column_resolution_positional :
  Columns.resolve_columns Args.data_defaults ["words"; "labels"]
  = Ok ("words", "labels").
Proof. reflexivity. Qed.

Example column_resolution_one_column :
  Columns.resolve_columns Args.data_defaults ["tokens"]
  = Raise (IndexError "list index out of range").
Proof. reflexivity. Qed.

(** ** Metrics reducer *)

Section metrics_facts.
Import Metrics.
Context (label_list : list string).
Implicit Types (pairs : list (Z * Z)) (rows : list (list Z * list Z)).

Lemma list_getitem_Z_total (i : Z) :
  valid_index (length label_list) i →
  ∃ x, list_getitem_Z label_list i = Ok x.
Proof.
  unfold valid_index, list_getitem_Z. intros Hi.
  set (j := if bool_decide (i < 0) then i + Z.of_nat (length label_list)
            else i).
  assert (0 ≤ j < Z.of_nat (length label_list)) as Hj.
  { unfold j. case_bool_decide; lia. }
  rewrite bool_decide_false by lia.
  destruct (lookup_lt_is_Some_2 label_list (Z.to_nat j)) as [x Hx]; [lia|].
  exists x. unfold list_getitem. by rewrite Hx.
Qed.

Local Ltac kept_step IH :=
  simpl; case_decide;
  [ rewrite filter_cons_True by done;
    rewrite bind_Ok; setoid_rewrite bind_Ok; setoid_rewrite IH; split;
    [ intros (x & ? & xs & ? & [= <-]); by apply Forall2_cons
    | intros (x & xs & ? & ? & ->)%Forall2_cons_inv_l; eauto 10 ]
  | rewrite filter_cons_False by naive_solver; apply IH ].

Lemma kept_predictions_Ok pairs out :
  kept_predictions label_list pairs = Ok out ↔
  Forall2 (λ pl s, list_getitem_Z label_list pl.1 = Ok s)
          (filter (λ pl, pl.2 ≠ -100) pairs) out.
Proof.
  revert out. induction pairs as [|[p l] pairs IH]; intros out.
  - simpl. split; [intros [= <-]; constructor|by intros ->%Forall2_nil_inv_l].
  - kept_step IH.
Qed.

Lemma kept_labels_Ok pairs out :
  kept_labels label_list pairs = Ok out ↔
  Forall2 (λ pl s, list_getitem_Z label_list pl.2 = Ok s)
          (filter (λ pl, pl.2 ≠ -100) pairs) out.
Proof.
  revert out. induction pairs as [|[p l] pairs IH]; intros out.
  - simpl. split; [intros [= <-]; constructor|by intros ->%Forall2_nil_inv_l].
  - kept_step IH.
Qed.

Lemma per_example_Ok inner rows out :
  per_example inner rows = Ok out ↔
  Forall2 (λ row x, inner (zip row.1 row.2) = Ok x) rows out.
Proof.
  revert out. induction rows as [|[prediction label] rows IH];
    intros out; simpl.
  - split; [intros [= <-]; constructor|by intros ->%Forall2_nil_inv_l].
  - rewrite bind_Ok. setoid_rewrite bind_Ok. setoid_rewrite IH. split.
    + intros (x & ? & xs & ? & [= <-]). by constructor.
    + intros (x & xs & ? & ? & ->)%Forall2_cons_inv_l. eauto 10.
Qed.

(** The rows kept by the filter raise nothing when their indices are
    valid. *)
Lemma kept_total pairs :
  (∀ p l, (p, l) ∈ pairs → l ≠ -100 →
     valid_index (length label_list) p ∧ valid_index (length label_list) l) →
  (∃ ps, kept_predictions label_list pairs = Ok ps) ∧
  (∃ ls, kept_labels label_list pairs = Ok ls).
Proof.
  induction pairs as [|[p l] pairs IH]; intros Hvalid; simpl;
    [by eauto|].
  destruct IH as [[ps Hps] [ls Hls]].
  { intros p' l' ?. apply Hvalid. by right. }
  rewrite Hps, Hls. case_decide; [|by eauto].
  destruct (Hvalid p l) as [Hp Hl]; [by left|done|].
  apply list_getitem_Z_total in Hp as [x ->].
  apply list_getitem_Z_total in Hl as [y ->]. simpl. by eauto.
Qed.

Lemma per_example_total inner rows :
  (∀ row, row ∈ rows → ∃ x, inner (zip row.1 row.2) = Ok x) →
  ∃ out, per_example inner rows = Ok out.
Proof.
  induction rows as [|[prediction label] rows IH]; intros Hrows; simpl;
    [by eauto|].
  destruct (Hrows (prediction, label)) as [x Hx]; [by left|].
  simpl in Hx. rewrite Hx.
  destruct IH as [xs ->]; [intros row ?; apply Hrows; by right|].
  simpl. by eauto.
Qed.

Lemma filter_all_ignored (prediction label : list Z) :
  Forall (eq (-100)) label →
  filter (λ pl : Z * Z, pl.2 ≠ -100) (zip prediction label) = [].
Proof.
  intros Hall. revert prediction.
  induction Hall as [|l label <- _ IH]; intros [|p prediction]; simpl;
    try done.
  rewrite filter_cons_False by (simpl; naive_solver). apply IH.
Qed.
End metrics_facts.

(** C5. Per example, the reducer keeps exactly the positions of the zipped
    (prediction, gold label) row whose gold label is not -100, in order, in
    both the prediction list and the reference list, and hands the two
    filtered lists to the scorer; an example whose gold labels are all -100
    contributes two empty lists.  The class indices at the kept positions
    are taken to be valid indices into [label_list]. *)
Theorem compute_metrics_filters_ignored {V : Type}
    (label_list : list string)
    (metric_compute : list (list string) → list (list string) →
                      list (string * Metrics.metric_value V))
    (return_entity_level_metrics : bool)
    (predictions labels : list (list Z)) :
  (∀ k prediction label p l,
      predictions !! k = Some prediction → labels !! k = Some label →
      (p, l) ∈ zip prediction label → l ≠ -100 →
      valid_index (length label_list) p ∧
      valid_index (length label_list) l) →
  ∃ true_predictions true_labels,
    Metrics.true_predictions label_list predictions labels
    = Ok true_predictions ∧
    Metrics.true_labels label_list predictions labels = Ok true_labels ∧
    Metrics.compute_metrics label_list metric_compute
      return_entity_level_metrics predictions labels
    = (let results := metric_compute true_predictions true_labels in
       if return_entity_level_metrics
       then Ok (Metrics.flatten_results results)
       else Metrics.overall_results results) ∧
    length true_predictions = (length predictions `min` length labels)%nat ∧
    length true_labels = (length predictions `min` length labels)%nat ∧
    ∀ k prediction label,
      predictions !! k = Some prediction → labels !! k = Some label →
      ∃ ps ls,
        true_predictions !! k = Some ps ∧ true_labels !! k = Some ls ∧
        Forall2 (λ pl s, list_getitem_Z label_list pl.1 = Ok s)
                (filter (λ pl, pl.2 ≠ -100) (zip prediction label)) ps ∧
        Forall2 (λ pl s, list_getitem_Z label_list pl.2 = Ok s)
                (filter (λ pl, pl.2 ≠ -100) (zip prediction label)) ls ∧
        (Forall (eq (-100)) label → ps = [] ∧ ls = []).
Proof.
  intros Hvalid.
  assert (∀ row, row ∈ zip predictions labels →
    (∃ ps, Metrics.kept_predictions label_list (zip row.1 row.2) = Ok ps) ∧
    (∃ ls, Metrics.kept_labels label_list (zip row.1 row.2) = Ok ls)) as Hrows.
  { intros [prediction label] (k & Hk)%list_elem_of_lookup_1.
    apply lookup_zip_with_Some in Hk as (? & ? & [= <- <-] & ? & ?).
    apply kept_total. intros p l. by apply (Hvalid k). }
  destruct (per_example_total (Metrics.kept_predictions label_list)
              (zip predictions labels)) as [tp Htp]; [naive_solver|].
  destruct (per_example_total (Metrics.kept_labels label_list)
              (zip predictions labels)) as [tl Htl]; [naive_solver|].
  exists tp, tl. unfold Metrics.compute_metrics, Metrics.true_predictions,
    Metrics.true_labels. rewrite Htp, Htl. split_and!; [done..| | |].
  - apply per_example_Ok, Forall2_length in Htp.
    by rewrite <-Htp, length_zip.
  - apply per_example_Ok, Forall2_length in Htl.
    by rewrite <-Htl, length_zip.
  - intros k prediction label Hp Hl.
    assert (zip predictions labels !! k = Some (prediction, label)) as Hk.
    { apply lookup_zip_with_Some. naive_solver. }
    apply per_example_Ok in Htp, Htl.
    destruct (Forall2_lookup_l _ _ _ _ _ Htp Hk) as (ps & Hps & Hkp).
    destruct (Forall2_lookup_l _ _ _ _ _ Htl Hk) as (ls & Hls & Hkl).
    simpl in Hkp, Hkl. apply kept_predictions_Ok in Hkp.
    apply kept_labels_Ok in Hkl.
    exists ps, ls. split_and!; [done..|].
    intros Hall. rewrite filter_all_ignored in Hkp, Hkl by done.
    by apply Forall2_nil_inv_l in Hkp as ->, Hkl as ->.
Qed.

Example compute_metrics_filter_run :
  Metrics.true_predictions ["B-LOC"; "I-LOC"; "O"]
    [[2; 0; 1; 1; 2; 2; 0]; [1; 1; 1]]
    [[-100; 0; 1; -100; 2; 2; -100]; [-100; -100; -100]]
  = Ok [["B-LOC"; "I-LOC"; "O"; "O"]; []].
Proof. reflexivity. Qed.

Lemma compute_metrics_filters_ignored_witness :
  ∃ true_predictions true_labels,
    Metrics.true_predictions ["B-LOC"; "I-LOC"; "O"]
      [[2; 0; 1]; [1; 1]] [[-100; 0; 2]; [-100; -100]] = Ok true_predictions ∧
    Metrics.true_labels ["B-LOC"; "I-LOC"; "O"]
      [[2; 0; 1]; [1; 1]] [[-100; 0; 2]; [-100; -100]] = Ok true_labels ∧
    true_predictions !! 1%nat = Some [] ∧ true_labels !! 1%nat = Some [].
Proof.
  destruct (compute_metrics_filters_ignored (V := Z)
              ["B-LOC"; "I-LOC"; "O"] (λ _ _, Metrics.seqeval_like) false
              [[2; 0; 1]; [1; 1]] [[-100; 0; 2]; [-100; -100]])
    as (tp & tl & Htp & Htl & _ & _ & _ & Hrows).
  - intros k prediction label p l Hp Hl Hin Hne.
    destruct k as [|[|k]]; [| |done].
    + injection Hp as <-. injection Hl as <-.
      repeat (apply elem_of_cons in Hin as [[= -> ->]|Hin];
              [try done; unfold valid_index; simpl; lia|]).
      by apply elem_of_nil in Hin.
    + injection Hp as <-. injection Hl as <-.
      repeat (apply elem_of_cons in Hin as [[= -> ->]|Hin]; [done|]).
      by apply elem_of_nil in Hin.
  - exists tp, tl. split_and!; [done..| |].
    + destruct (Hrows 1%nat [1; 1] [-100; -100] eq_refl eq_refl)
        as (ps & ls & H1 & _ & _ & _ & Hempty).
      destruct Hempty as [-> _]; [by repeat constructor|done].
    + destruct (Hrows 1%nat [1; 1] [-100; -100] eq_refl eq_refl)
        as (ps & ls & _ & H2 & _ & _ & Hempty).
      destruct Hempty as [_ ->]; [by repeat constructor|done].
Defined.

Section metrics_shape_facts.
Import Metrics.
Context {V : Type}.
Implicit Types (results : list (string * metric_value V))
  (final : gmap string (metric_value V)).

Lemma items_getitem_Ok {X} (d : list (string * X)) key x :
  items_getitem d key = Ok x → (key, x) ∈ d.
Proof.
  induction d as [|[k y] d IH]; simpl; [done|].
  destruct (String.eqb_spec k key) as [->|_].
  - intros [= ->]. by left.
  - intros ?. right. by apply IH.
Qed.

Lemma items_getitem_total {X} (d : list (string * X)) key :
  key ∈ d.*1 → ∃ x, items_getitem d key = Ok x.
Proof.
  induction d as [|[k y] d IH]; simpl; [by intros ?%elem_of_nil|].
  destruct (String.eqb_spec k key) as [->|Hne]; [by eauto|].
  intros [?|?]%elem_of_cons; [done|]. by apply IH.
Qed.

Lemma nested_fold_dom key (d : list (string * V)) final k :
  k ∈ dom (foldl (λ final '(n, v), <[key +:+ "_" +:+ n := Scalar v]> final)
                 final d) ↔
  k ∈ dom final ∨ ∃ n v, (n, v) ∈ d ∧ k = key +:+ "_" +:+ n.
Proof.
  revert final. induction d as [|[n v] d IH]; intros final; simpl.
  - split; [by left|]. intros [?|(n & v & ?%elem_of_nil & _)]; done.
  - rewrite IH, dom_insert, elem_of_union, elem_of_singleton. split.
    + intros [[->|?]|(n' & v' & ? & ->)]; [right|by left|right].
      * exists n, v. split; [by left|done].
      * exists n', v'. split; [by right|done].
    + intros [?|(n' & v' & [[= -> ->]|?]%elem_of_cons & ->)];
        [by left; right|by left; left|].
      right. by exists n', v'.
Qed.

Lemma flatten_entry_dom final key value k :
  k ∈ dom (flatten_entry final (key, value)) ↔
  k ∈ dom final ∨
  match value with
  | Scalar _ => k = key
  | Nested d => ∃ n v, (n, v) ∈ d ∧ k = key +:+ "_" +:+ n
  end.
Proof.
  destruct value as [v|d]; simpl.
  - rewrite dom_insert, elem_of_union, elem_of_singleton. naive_solver.
  - apply nested_fold_dom.
Qed.

Lemma flatten_fold_dom results final k :
  k ∈ dom (foldl flatten_entry final results) ↔
  k ∈ dom final ∨
  (∃ v, (k, Scalar v) ∈ results) ∨
  (∃ key d n v, (key, Nested d) ∈ results ∧ (n, v) ∈ d ∧
                k = key +:+ "_" +:+ n).
Proof.
  revert final. induction results as [|[key value] results IH];
    intros final; cbn [foldl].
  - split; [by left|].
    intros [?|[(v & ?%elem_of_nil)|(? & ? & ? & ? & ?%elem_of_nil & _)]];
      done.
  - rewrite IH, flatten_entry_dom. split.
    + intros [[?|Hk]|[(v & ?)|(key' & d & n & v & ? & ? & ->)]].
      * by left.
      * right. destruct value as [v|d].
        -- subst k. left. exists v. by left.
        -- destruct Hk as (n & v & ? & ->). right.
           exists key, d, n, v. split; [by left|done].
      * right. left. exists v. by right.
      * right. right. exists key', d, n, v. split; [by right|done].
    + intros [?|[(v & [[= -> <-]|?]%elem_of_cons)
                |(key' & d & n & v & [[= -> <-]|?]%elem_of_cons & ? & ->)]].
      * by left; left.
      * by left; right.
      * right. left. by exists v.
      * left. right. by exists n, v.
      * right. right. by exists key', d, n, v.
Qed.
End metrics_shape_facts.

(** C6, as the claim states it, fails on the entity-level branch: with
    [return_entity_level_metrics=True] and a scorer result shaped like
    seqeval's, the returned dictionary has the expanded key ["LOC_precision"]
    and the scorer's own ["overall_precision"], but none of the short keys
    ["precision"], ["recall"], ["f1"], ["accuracy"]. *)
Lemma entity_level_output_lacks_short_keys :
  ∃ m,
    Metrics.compute_metrics ["B-LOC"; "I-LOC"; "O"]
      (λ _ _, Metrics.seqeval_like) true
      [[2; 0; 1; 2]] [[-100; 0; 1; -100]] = Ok m ∧
    m !! "LOC_precision" = Some (Metrics.Scalar 1) ∧
    m !! "overall_precision" = Some (Metrics.Scalar 1) ∧
    m !! "precision" = None ∧ m !! "recall" = None ∧
    m !! "f1" = None ∧ m !! "accuracy" = None.
Proof.
  eexists. split; [reflexivity|].
  split_and!; vm_compute; reflexivity.
Qed.

(** C6, amended.  Once the filter has produced the two lists handed to the
    scorer: with [return_entity_level_metrics=False] the output is the
    dictionary with exactly the keys precision, recall, f1, accuracy, holding
    the scorer's four [overall_*] entries (and it is returned exactly when
    the scorer's result has those entries); with [=True] the output always
    exists and its keys are the scorer's scalar keys, unchanged, together
    with the expanded keys [<entity>_<metric>] of every nested entry. *)
Theorem metrics_output_shape {V : Type}
    (label_list : list string)
    (metric_compute : list (list string) → list (list string) →
                      list (string * Metrics.metric_value V))
    (predictions labels : list (list Z))
    (true_predictions true_labels : list (list string)) :
  Metrics.true_predictions label_list predictions labels
  = Ok true_predictions →
  Metrics.true_labels label_list predictions labels = Ok true_labels →
  let results := metric_compute true_predictions true_labels in
  (∀ m, Metrics.compute_metrics label_list metric_compute false
          predictions labels = Ok m ↔
        ∃ p r f a,
          items_getitem results "overall_precision" = Ok p ∧
          items_getitem results "overall_recall" = Ok r ∧
          items_getitem results "overall_f1" = Ok f ∧
          items_getitem results "overall_accuracy" = Ok a ∧
          m = <["accuracy" := a]> (<["f1" := f]> (<["recall" := r]>
                (<["precision" := p]> ∅)))) ∧
  (∀ m, Metrics.compute_metrics label_list metric_compute false
          predictions labels = Ok m →
        dom m = {[ "precision"; "recall"; "f1"; "accuracy" ]}) ∧
  (∃ m, Metrics.compute_metrics label_list metric_compute true
          predictions labels = Ok m ∧
        ∀ k, k ∈ dom m ↔
          (∃ v, (k, Metrics.Scalar v) ∈ results) ∨
          (∃ key d n v, (key, Metrics.Nested d) ∈ results ∧ (n, v) ∈ d ∧
                        k = key +:+ "_" +:+ n)).
Proof.
  intros Htp Htl results. unfold Metrics.compute_metrics.
  rewrite Htp, Htl. simpl. fold results.
  assert (∀ m, Metrics.overall_results results = Ok m ↔
    ∃ p r f a,
      items_getitem results "overall_precision" = Ok p ∧
      items_getitem results "overall_recall" = Ok r ∧
      items_getitem results "overall_f1" = Ok f ∧
      items_getitem results "overall_accuracy" = Ok a ∧
      m = <["accuracy" := a]> (<["f1" := f]> (<["recall" := r]>
            (<["precision" := p]> ∅)))) as Hoverall.
  { intros m. unfold Metrics.overall_results.
    rewrite bind_Ok. setoid_rewrite bind_Ok. setoid_rewrite bind_Ok.
    setoid_rewrite bind_Ok. split.
    - intros (p & ? & r & ? & f & ? & a & ? & [= <-]). by exists p, r, f, a.
    - intros (p & r & f & a & ? & ? & ? & ? & ->). eauto 12. }
  split_and!; [done| |].
  - intros m (p & r & f & a & _ & _ & _ & _ & ->)%Hoverall.
    rewrite !dom_insert_L, dom_empty_L. set_solver.
  - eexists. split; [done|]. intros k. unfold Metrics.flatten_results.
    rewrite flatten_fold_dom, dom_empty_L. set_solver.
Qed.

Lemma metrics_output_shape_witness :
  ∃ m,
    Metrics.compute_metrics ["B-LOC"; "I-LOC"; "O"]
      (λ _ _, Metrics.seqeval_like) false
      [[2; 0; 1; 2]] [[-100; 0; 1; -100]] = Ok m ∧
    dom m = {[ "precision"; "recall"; "f1"; "accuracy" ]}.
Proof.
  destruct (metrics_output_shape (V := Z) ["B-LOC"; "I-LOC"; "O"]
              (λ _ _, Metrics.seqeval_like)
              [[2; 0; 1; 2]] [[-100; 0; 1; -100]]
              [["B-LOC"; "I-LOC"]] [["B-LOC"; "I-LOC"]])
    as (_ & Hdom & _).
  - reflexivity.
  - reflexivity.
  - eexists. split; [reflexivity|]. by apply Hdom.
Defined.

(** ** Freezing the embedding sources *)

Section freeze_facts.
Import Freeze.
Implicit Types (nps : list (string * nat)) (rg : gmap nat bool).

Lemma prefix_app needle haystack :
  String.prefix needle haystack = true ↔ ∃ post, haystack = needle +:+ post.
Proof.
  revert haystack. induction needle as [|c needle IH]; intros haystack.
  - simpl. destruct haystack; naive_solver.
  - destruct haystack as [|c' haystack]; simpl; [naive_solver|].
    destruct (Ascii.ascii_dec c c') as [->|Hne].
    + rewrite IH. split; intros [post Hpost]; exists post;
        [by rewrite Hpost|by injection Hpost].
    + split; [done|]. intros [post [= ? _]]. done.
Qed.

Lemma str_contains_spec needle haystack :
  str_contains needle haystack = true ↔
  ∃ pre post, haystack = pre +:+ needle +:+ post.
Proof.
  induction haystack as [|c haystack IH].
  - cbn [str_contains]. destruct (String.prefix needle "") eqn:Hp.
    + apply prefix_app in Hp as [post Hpost]. split; [|done].
      intros _. exists "", post. exact Hpost.
    + split; [done|]. intros (pre & post & Heq).
      destruct pre; [|done].
      assert (String.prefix needle "" = true) as Hp'; [|congruence].
      apply prefix_app. exists post. exact Heq.
  - cbn [str_contains].
    destruct (String.prefix needle (String c haystack)) eqn:Hp.
    + apply prefix_app in Hp as [post Hpost]. split; [|done].
      intros _. exists "", post. exact Hpost.
    + rewrite IH. split.
      * intros (pre & post & ->). by exists (String c pre), post.
      * intros (pre & post & Heq). destruct pre as [|c' pre].
        -- assert (String.prefix needle (String c haystack) = true) as Hp';
             [|congruence].
           apply prefix_app. exists post. exact Heq.
        -- injection Heq as -> ->. by exists pre, post.
Qed.

Lemma str_contains_matches name :
  str_contains "embedding_" name = true ↔ matches name.
Proof. apply str_contains_spec. Qed.

(** The flag of a parameter object after the loop, whatever the aliasing:
    cleared when some yielded name of the object matches, else as it
    was. *)
Lemma freeze_embeddings_lookup nps rg (q : nat) :
  freeze_embeddings nps rg !! q =
  if decide (Exists (λ np, str_contains "embedding_" np.1 = true ∧ np.2 = q)
                    nps)
  then Some false else rg !! q.
Proof.
  unfold freeze_embeddings. revert rg.
  induction nps as [|[name p] nps IH]; intros rg; cbn [foldl].
  - rewrite decide_False; [done|]. by intros ?%Exists_nil.
  - rewrite IH. unfold freeze_step. simpl.
    destruct (decide (Exists _ nps)) as [Hex|Hnex].
    + rewrite decide_True; [done|]. by right.
    + destruct (str_contains "embedding_" name) eqn:Hname.
      * destruct (decide (p = q)) as [->|Hne].
        -- rewrite lookup_insert_eq, decide_True; [done|]. by left.
        -- rewrite lookup_insert_ne by done. rewrite decide_False; [done|].
           intros [[_ ?]|?]%Exists_cons; done.
      * rewrite decide_False; [done|].
        intros [[? _]|?]%Exists_cons; simpl in *; congruence.
Qed.

Lemma freeze_embeddings_Permutation nps nps' rg :
  nps ≡ₚ nps' → freeze_embeddings nps rg = freeze_embeddings nps' rg.
Proof.
  intros Hp. apply map_eq. intros q. rewrite !freeze_embeddings_lookup.
  destruct (decide (Exists _ nps)) as [Hex|Hnex].
  - rewrite decide_True; [done|]. by rewrite <-Hp.
  - rewrite decide_False; [done|]. by rewrite <-Hp.
Qed.
End freeze_facts.


Lemma NoDup_snd_name {A B} (l : list (A * B)) a1 a2 b :
  NoDup l.*2 → (a1, b) ∈ l → (a2, b) ∈ l → a1 = a2.
Proof.
  induction l as [|[a b'] l IH]; simpl; [by intros _ ?%elem_of_nil|].
  intros [Hnotin Hnd]%NoDup_cons H1 H2.
  apply elem_of_cons in H1 as [H1|H1], H2 as [H2|H2].
  - congruence.
  - injection H1 as -> ->. destruct Hnotin.
    apply list_elem_of_fmap. by exists (a2, b').
  - injection H2 as -> ->. destruct Hnotin.
    apply list_elem_of_fmap. by exists (a1, b').
  - by apply IH.
Qed.

(** C7. After the set-up of either composer variant, a parameter yielded by
    [named_parameters()] under a name containing "embedding_" has its flag
    cleared; one yielded under a name that does not contain it keeps its
    flag, and so does every parameter that is not yielded at all.  The
    outcome is the same for any other order of the same named parameters:
    only the names decide.  [named_parameters()] yields every parameter
    object once. *)
Theorem metaemb_freeze_by_name
    (model_args : Args.ModelArguments)
    (named_parameters : list (string * nat)) (requires_grad : gmap nat bool) :
  Args.use_metaemb model_args || Args.use_domain_metaemb model_args = true →
  NoDup named_parameters.*2 →
  let after := Freeze.metaemb_setup model_args named_parameters requires_grad in
  (∀ name p, (name, p) ∈ named_parameters → Freeze.matches name →
     after !! p = Some false) ∧
  (∀ name p, (name, p) ∈ named_parameters → ¬ Freeze.matches name →
     after !! p = requires_grad !! p) ∧
  (∀ p, p ∉ named_parameters.*2 → after !! p = requires_grad !! p) ∧
  (∀ named_parameters', named_parameters' ≡ₚ named_parameters →
     Freeze.metaemb_setup model_args named_parameters' requires_grad = after).
Proof.
  intros Hvariant Hnd after.
  assert (after = Freeze.freeze_embeddings named_parameters requires_grad)
    as Hafter.
  { unfold after, Freeze.metaemb_setup.
    destruct (Args.use_metaemb model_args); [done|].
    by destruct (Args.use_domain_metaemb model_args). }
  rewrite Hafter. split_and!.
  - intros name p Hin Hm. rewrite freeze_embeddings_lookup.
    rewrite decide_True; [done|]. apply Exists_exists. exists (name, p).
    split; [done|]. split; [by apply str_contains_matches|done].
  - intros name p Hin Hm. rewrite freeze_embeddings_lookup.
    rewrite decide_False; [done|].
    intros ([name' p'] & Hin' & Hm' & Hp)%Exists_exists. simpl in *. subst p'.
    apply Hm. rewrite (NoDup_snd_name _ _ _ _ Hnd Hin Hin').
    by apply str_contains_matches.
  - intros p Hp. rewrite freeze_embeddings_lookup.
    rewrite decide_False; [done|].
    intros ([name' p'] & Hin' & _ & Heq)%Exists_exists. simpl in *. subst p'.
    apply Hp, list_elem_of_fmap. by exists (name', p).
  - intros nps' Hperm. unfold Freeze.metaemb_setup.
    rewrite (freeze_embeddings_Permutation _ _ _ Hperm).
    destruct (Args.use_metaemb model_args); [done|].
    by destruct (Args.use_domain_metaemb model_args).
Qed.

Example freeze_run :
  Freeze.metaemb_setup (Args.model_args_with false true)
    Freeze.bert_named_parameters Freeze.all_trainable
  = {[ 0%nat := false; 1%nat := false; 2%nat := true; 3%nat := true ]}.
Proof. vm_compute. reflexivity. Qed.

Lemma metaemb_freeze_by_name_witness :
  Freeze.metaemb_setup (Args.model_args_with true false)
    Freeze.bert_named_parameters Freeze.all_trainable !! 1%nat = Some false.
Proof.
  destruct (metaemb_freeze_by_name (Args.model_args_with true false)
              Freeze.bert_named_parameters Freeze.all_trainable)
    as (Hfrozen & _).
  - reflexivity.
  - simpl. repeat (apply NoDup_cons; split;
                   [rewrite ?elem_of_cons, elem_of_nil; intros H;
                    repeat destruct H as [H|H]; discriminate H || exact H|]).
    apply NoDup_nil. exact I.
  - apply (Hfrozen "embeddings.embedding_2.word_embeddings.weight").
    + right. left.
    + exists "embeddings.", "2.word_embeddings.weight". reflexivity.
Defined.

(** ** Configuration construction *)

Example file_extension_json : Args.file_extension "data/train.v2.json" = Ok "json".
Proof. reflexivity. Qed.

Example file_extension_none : Args.file_extension "train" = Ok "train".
Proof. reflexivity. Qed.

Example file_extension_trailing_dot : Args.file_extension "train." = Ok "".
Proof. reflexivity. Qed.

Example post_init_lowers_task :
  Args.post_init lower_ascii
    (Args.set_task_name (Args.data_args_with (Some "conll2003") None None None)
                        (Some "NER"))
  = Ok (Args.data_args_with (Some "conll2003") None None None).
Proof. reflexivity. Qed.

Example post_init_rejects_txt_train_file :
  Args.post_init lower_ascii
    (Args.data_args_with None (Some "train.txt") (Some "dev.json") None)
  = Raise (AssertionError "`train_file` should be a csv or a json file.").
Proof. reflexivity. Qed.


Lemma assert_csv_or_json_Ok file msg :
  Args.assert_csv_or_json file msg = Ok () ↔
  ∃ extension, Args.file_extension file = Ok extension ∧
               extension ∈ ["csv"; "json"].
Proof.
  unfold Args.assert_csv_or_json. rewrite bind_Ok.
  split; intros (extension & Hext & Hin); exists extension; (split; [done|]).
  - apply list_contains_elem_of.
    by destruct (list_contains extension ["csv"; "json"]).
  - apply list_contains_elem_of in Hin. by rewrite Hin.
Qed.

(** What construction does check: an accepted configuration has a csv or
    json extension on its train file and on its validation file. *)
Lemma post_init_checks_train_and_validation (lower : string → string)
    (data_args data_args' : Args.DataTrainingArguments) :
  Args.post_init lower data_args = Ok data_args' →
  (∀ file, Args.train_file data_args = Some file →
     ∃ extension, Args.file_extension file = Ok extension ∧
                  extension ∈ ["csv"; "json"]) ∧
  (∀ file, Args.validation_file data_args = Some file →
     ∃ extension, Args.file_extension file = Ok extension ∧
                  extension ∈ ["csv"; "json"]).
Proof.
  unfold Args.post_init. case_match; [done|].
  rewrite bind_Ok. intros ([] & Htrain & Hrest).
  apply bind_Ok in Hrest as ([] & Hval & _). split.
  - intros file Hfile. rewrite Hfile in Htrain.
    by apply assert_csv_or_json_Ok in Htrain.
  - intros file Hfile. rewrite Hfile in Hval.
    by apply assert_csv_or_json_Ok in Hval.
Qed.

(** C9, the code at the failing input: a configuration that names a hub
    dataset and a test file "test.txt" is constructed without any error,
    whatever [str.lower] makes of the task name, and unchanged when the
    task name "ner" is its own lower case; [__post_init__] never looks at
    [test_file]. *)
Theorem post_init_leaves_test_file_unchecked :
  (∀ lower : string → string,
     Args.post_init lower
       (Args.data_args_with (Some "conll2003") None None (Some "test.txt"))
     = Ok (Args.set_task_name
             (Args.data_args_with (Some "conll2003") None None
                                  (Some "test.txt"))
             (Some (lower "ner")))) ∧
  Args.post_init lower_ascii
    (Args.data_args_with (Some "conll2003") None None (Some "test.txt"))
  = Ok (Args.data_args_with (Some "conll2003") None None (Some "test.txt")) ∧
  Args.file_extension "test.txt" = Ok "txt".
Proof. split_and!; [intros lower|..]; reflexivity. Qed.

(** ** The driver *)

Lemma io_bind_Ok_l {A B} (tr : list Main.event) (a : A) (f : A → Main.io B) :
  Main.Io tr (Ok a) ≫= f
  = Main.Io (tr ++ Main.trace (f a)) (Main.outcome (f a)).
Proof. unfold mbind, Main.io_bind. by destruct (f a). Qed.

Lemma io_bind_Raise_l {A B} (tr : list Main.event) e (f : A → Main.io B) :
  Main.Io tr (Raise e) ≫= f = Main.Io tr (Raise e).
Proof. done. Qed.

(** C10. With no dataset name and no train file but a validation file, the
    construction check for a missing source does not fire (and construction
    succeeds when the validation file has a csv or json extension), yet the
    local-file branch of the dataset loading reads [train_file.split] on
    [None]: it raises an [AttributeError] and [load_dataset] is never
    called. *)
Theorem local_files_need_train_file
    (data_args : Args.DataTrainingArguments) (w : Main.world) (file : string) :
  Args.dataset_name data_args = None →
  Args.train_file data_args = None →
  Args.validation_file data_args = Some file →
  Args.post_init (Main.str_lower w) data_args
  ≠ Raise (ValueError Args.need_source_message) ∧
  (∀ extension task,
     Args.file_extension file = Ok extension →
     extension ∈ ["csv"; "json"] →
     Args.task_name data_args = Some task →
     Args.post_init (Main.str_lower w) data_args
     = Ok (Args.set_task_name data_args (Some (Main.str_lower w task)))) ∧
  Main.get_raw_datasets data_args w
  = Main.Io [] (Raise (AttributeError
                         "'NoneType' object has no attribute 'split'")) ∧
  (∀ model_args training_args adapter_args data_args' last_checkpoint,
     Args.post_init (Main.str_lower w) data_args = Ok data_args' →
     Main.detect_last_checkpoint training_args w = Ok last_checkpoint →
     Main.main model_args data_args training_args adapter_args w
     = Main.Io [] (Raise (AttributeError
                            "'NoneType' object has no attribute 'split'"))).
Proof.
  intros Hname Htrain Hval.
  assert (Main.get_raw_datasets data_args w
          = Main.Io [] (Raise (AttributeError
                                 "'NoneType' object has no attribute 'split'")))
    as Hload.
  { unfold Main.get_raw_datasets. by rewrite Hname, Htrain. }
  split_and!; [| |done|].
  - unfold Args.post_init. rewrite Hname, Htrain, Hval. simpl.
    destruct (Args.assert_csv_or_json _ _) as [[]|e] eqn:Hassert; simpl.
    + by destruct (Args.task_name data_args).
    + unfold Args.assert_csv_or_json in Hassert.
      destruct (Args.file_extension file) as [ext|e'] eqn:Hext; simpl in *.
      * repeat case_match; by simplify_eq.
      * unfold Args.file_extension, list_getitem_Z, list_getitem in Hext.
        repeat case_match; by simplify_eq.
  - intros extension task Hext Hin Htask. unfold Args.post_init.
    rewrite Hname, Htrain, Hval, Htask. simpl.
    assert (Args.assert_csv_or_json file
              "`validation_file` should be a csv or a json file." = Ok ())
      as ->; [|done].
    apply assert_csv_or_json_Ok. by exists extension.
  - intros model_args training_args adapter_args data_args' last_checkpoint
      Hinit Hckpt.
    assert (Main.get_raw_datasets data_args' w
            = Main.Io [] (Raise (AttributeError
                                   "'NoneType' object has no attribute 'split'")))
      as Hload'.
    { unfold Args.post_init in Hinit. rewrite Hname, Htrain, Hval in Hinit.
      simpl in Hinit. apply bind_Ok in Hinit as ([] & _ & Hinit).
      destruct (Args.task_name data_args); [|done]. injection Hinit as <-.
      unfold Main.get_raw_datasets. simpl. by rewrite Hname, Htrain. }
    unfold Main.main. rewrite Hinit, Hckpt. unfold Main.lift.
    rewrite !io_bind_Ok_l. simpl. by rewrite Hload'.
Qed.

Lemma local_files_need_train_file_witness :
  Main.main (Args.model_args_with false false)
    (Args.data_args_with None None (Some "dev.json") None)
    (Main.training_args_with false true false)
    (Main.adapter_args_with false None) Main.a_world
  = Main.Io [] (Raise (AttributeError
                         "'NoneType' object has no attribute 'split'")).
Proof.
  destruct (local_files_need_train_file
              (Args.data_args_with None None (Some "dev.json") None)
              Main.a_world "dev.json") as (_ & _ & _ & Hmain);
    [reflexivity..|].
  by eapply Hmain.
Defined.


(** C8, as the claim states it, fails on the order: an adapter load
    requested without adapter training is reported only after the dataset,
    the configuration, the tokenizer and the model have been loaded. *)
Lemma adapter_error_after_model_loading :
  Main.main (Args.model_args_with false false)
    (Args.data_args_with (Some "conll2003") None None None)
    (Main.training_args_with true true false)
    (Main.adapter_args_with false (Some "ner/conll2003@ukp")) Main.a_world
  = Main.Io
      [Main.load_dataset "conll2003" None None;
       Main.AutoConfig_from_pretrained "bert-base-uncased";
       Main.AutoTokenizer_from_pretrained (Some "bert-base-uncased");
       Main.AutoModelForTokenClassification_from_pretrained
         "bert-base-uncased"]
      (Raise (ValueError Main.adapter_message)).
Proof. vm_compute. reflexivity. Qed.

Example missing_test_split_after_model_loading :
  Main.main (Args.model_args_with false false)
    (Args.data_args_with None (Some "train.json") (Some "dev.json") None)
    (Main.training_args_with true true true)
    (Main.adapter_args_with false None) Main.a_world
  = Main.Io
      [Main.load_dataset "json" None
         (Some [("train", "train.json"); ("validation", "dev.json")]);
       Main.AutoConfig_from_pretrained "bert-base-uncased";
       Main.AutoTokenizer_from_pretrained (Some "bert-base-uncased");
       Main.AutoModelForTokenClassification_from_pretrained
         "bert-base-uncased";
       Main.dataset_map "train"; Main.dataset_map "validation"]
      (Raise (ValueError Main.predict_message)).
Proof. vm_compute. reflexivity. Qed.

Example missing_validation_split_after_model_loading :
  Main.main (Args.model_args_with true false)
    (Args.data_args_with None (Some "train.csv") None None)
    (Main.training_args_with true true false)
    (Main.adapter_args_with false None) Main.a_world
  = Main.Io
      [Main.load_dataset "csv" None (Some [("train", "train.csv")]);
       Main.AutoConfig_from_pretrained "bert-base-uncased";
       Main.AutoTokenizer_from_pretrained (Some "bert-base-uncased");
       Main.AutoModelForTokenClassification_from_pretrained
         "bert-base-uncased";
       Main.BertEmbed_from_pretrained (Some "bert-base-uncased");
       Main.BertEmbed_from_pretrained (Some "bert-mlm-emb-only");
       Main.replace_embeddings "BertMetaEmbed";
       Main.freeze_embedding_sources;
       Main.dataset_map "train"]
      (Raise (ValueError Main.eval_message)).
Proof. vm_compute. reflexivity. Qed.

Example full_run :
  Main.main (Args.model_args_with false false)
    (Args.data_args_with (Some "conll2003") None None None)
    (Main.training_args_with true true true)
    (Main.adapter_args_with true None) Main.a_world
  = Main.Io
      [Main.load_dataset "conll2003" None None;
       Main.AutoConfig_from_pretrained "bert-base-uncased";
       Main.AutoTokenizer_from_pretrained (Some "bert-base-uncased");
       Main.AutoModelForTokenClassification_from_pretrained
         "bert-base-uncased";
       Main.AdapterConfig_load (Some "pfeiffer");
       Main.model_add_adapter "conll2003";
       Main.model_train_adapter "conll2003";
       Main.set_active_adapters None "conll2003";
       Main.dataset_map "train"; Main.dataset_map "validation";
       Main.dataset_map "test"; Main.load_metric "./metrics/seqeval";
       Main.trainer_init; Main.trainer_train None; Main.trainer_evaluate;
       Main.trainer_predict;
       Main.write_file "out/predictions.txt"
         ("B-LOC I-LOC O O" +:+ Predict.newline)]
      (Ok ()).
Proof. vm_compute. reflexivity. Qed.


Section main_facts.
Import Args Main.

Lemma bind_Raise {A B} (m : result A) (f : A → result B) e :
  m ≫= f = Raise e → m = Raise e ∨ ∃ a, m = Ok a ∧ f a = Raise e.
Proof.
  destruct m as [a|e']; intros H.
  - right. exists a. split; [reflexivity|exact H].
  - left. injection H as ->. reflexivity.
Qed.

Local Ltac not_late :=
  let H := fresh in
  intros [H|[H|H]]; try discriminate H;
  injection H as H; cbv in H; discriminate H.

Local Ltac raise_sites :=
  repeat match goal with
    | H : _ ≫= _ = Raise _ |- _ => apply bind_Raise in H as [H|(? & _ & H)]
    | H : Raise _ = Raise _ |- _ => injection H as <-
    | H : Ok _ = Raise _ |- _ => discriminate H
    | H : list_getitem _ _ = Raise _ |- _ => unfold list_getitem in H
    | H : list_getitem_Z _ _ = Raise _ |- _ => unfold list_getitem_Z in H
    | H : match ?x with _ => _ end = Raise _ |- _ => destruct x eqn:?
    end.

Lemma items_getitem_Raise {X} (d : list (string * X)) key e :
  items_getitem d key = Raise e → e = KeyError (VStr key).
Proof.
  induction d as [|[k x] d IH]; simpl; [by intros [= <-]|].
  by destruct (String.eqb k key).
Qed.

Lemma file_extension_not_late file e :
  file_extension file = Raise e → ¬ late_error e.
Proof. unfold file_extension. intros H. raise_sites; not_late. Qed.

Lemma post_init_not_late lower data_args e :
  post_init lower data_args = Raise e → ¬ late_error e.
Proof.
  unfold post_init, assert_csv_or_json. intros H.
  destruct (is_none _ && _ && _); [injection H as <-; not_late|].
  raise_sites; try not_late; by eapply file_extension_not_late.
Qed.

Lemma detect_last_checkpoint_not_late training_args w e :
  detect_last_checkpoint training_args w = Raise e → ¬ late_error e.
Proof. unfold detect_last_checkpoint. intros H. raise_sites. not_late. Qed.

Lemma get_raw_datasets_not_late data_args w tr e :
  get_raw_datasets data_args w = Io tr (Raise e) → ¬ late_error e.
Proof.
  unfold get_raw_datasets. destruct (dataset_name data_args); [done|].
  destruct (train_file data_args) as [file|]; simpl.
  - destruct (file_extension file) eqn:Hext; simpl; [done|].
    intros [= <- <-]. by eapply file_extension_not_late.
  - intros [= <- <-]. not_late.
Qed.

Lemma select_columns_and_labels_not_late data_args training_args w raw e :
  select_columns_and_labels data_args training_args w raw = Raise e →
  ¬ late_error e.
Proof.
  unfold select_columns_and_labels, Columns.resolve_text_column,
    Columns.resolve_label_column. intros H.
  raise_sites;
    try match goal with
      | H : items_getitem _ _ = Raise _ |- _ =>
          apply items_getitem_Raise in H as ->
      end; not_late.
Qed.

Lemma load_model_and_tokenizer_loads model_args w :
  ∃ tr, load_model_and_tokenizer model_args w = Io tr (Ok ()) ∧
        Exists is_model_load tr.
Proof.
  unfold load_model_and_tokenizer.
  repeat case_match; cbn; (eexists; split; [reflexivity|]);
    repeat first [apply Exists_cons_hd; exact I | apply Exists_cons_tl].
Qed.

(** Whatever follows the model loading, the run's trace has it. *)
Lemma after_model_loading {B} model_args w (k : io B) :
  Exists is_model_load (trace (load_model_and_tokenizer model_args w ;; k)).
Proof.
  destruct (load_model_and_tokenizer_loads model_args w) as (tr & -> & Hex).
  rewrite io_bind_Ok_l. simpl. apply Exists_app. by left.
Qed.
End main_facts.


(** * Further properties *)

(** ** Label alignment: special tokens, continuation subwords, failures *)

Section align_more.
Import Align.
Context (label_to_id : gmap pyval Z).
Implicit Types (tags : list pyval) (W : list (option nat)).

Lemma label_for_Raise flag tags prev o e :
  label_for label_to_id flag tags prev o = Raise e →
  ∃ w, o = Some w ∧
    ((e = IndexError "list index out of range" ∧ (length tags ≤ w)%nat) ∨
     (∃ t, e = KeyError t ∧ tags !! w = Some t ∧ label_to_id !! t = None)).
Proof.
  unfold label_for. destruct o as [w|]; [|done]. intros He. exists w.
  split; [done|].
  assert (list_getitem tags w ≫= dict_getitem label_to_id = Raise e) as Hget.
  { case_decide; [done|]. by destruct flag. }
  unfold list_getitem in Hget.
  destruct (tags !! w) as [t|] eqn:Ht; simpl in Hget.
  - right. exists t. unfold dict_getitem in Hget.
    destruct (label_to_id !! t) eqn:Hid; [done|]. by injection Hget as <-.
  - left. injection Hget as <-. split; [done|]. by apply lookup_ge_None.
Qed.

Lemma align_loop_Raise flag tags W prev acc e :
  align_loop label_to_id flag tags W prev acc = Raise e →
  ∃ w, Some w ∈ W ∧
    ((e = IndexError "list index out of range" ∧ (length tags ≤ w)%nat) ∨
     (∃ t, e = KeyError t ∧ tags !! w = Some t ∧ label_to_id !! t = None)).
Proof.
  revert prev acc. induction W as [|o W IH]; intros prev acc; simpl; [done|].
  destruct (label_for label_to_id flag tags prev o) as [x|e'] eqn:Hfor; simpl.
  - intros (w & ? & ?)%IH. exists w. split; [by right|done].
  - intros [= <-]. apply label_for_Raise in Hfor as (w & -> & ?).
    exists w. split; [by left|done].
Qed.
End align_more.

(** X1. A position whose word id is [None] (a special or padding token) is
    labelled -100 under either policy. *)
Theorem none_word_id_is_ignored
    (label_to_id : gmap pyval Z) (label_all_tokens : bool)
    (tags : list pyval) (W : list (option nat)) (label_ids : list Z)
    (i : nat) :
  Align.align_labels label_to_id label_all_tokens tags W = Ok label_ids →
  W !! i = Some None →
  label_ids !! i = Some (-100).
Proof.
  intros [_ Hpt]%align_labels_pointwise Hi.
  destruct (Hpt i None Hi) as (x & Hx & Hfor).
  apply label_for_Ok in Hfor. by subst.
Qed.

Lemma none_word_id_is_ignored_witness :
  [-100; 0; 1; -100; 2; 2; -100] !! 3%nat = Some (-100).
Proof.
  apply (none_word_id_is_ignored Scenario.label_to_id false
           [VStr "B-LOC"; VStr "I-LOC"; VStr "O"; VStr "O"]
           [None; Some 0; Some 1; None; Some 2; Some 3; None]%nat
           [-100; 0; 1; -100; 2; 2; -100] 3).
  - vm_compute. reflexivity.
  - reflexivity.
Defined.

(** X2. A subword that continues the word of the position before it is
    labelled -100 when only first subwords are labelled, and gets the label
    of the position before it when all subwords are labelled. *)
Theorem continuation_subword_label
    (label_to_id : gmap pyval Z) (label_all_tokens : bool)
    (tags : list pyval) (W : list (option nat)) (label_ids : list Z)
    (i w : nat) :
  Align.align_labels label_to_id label_all_tokens tags W = Ok label_ids →
  W !! i = Some (Some w) →
  W !! S i = Some (Some w) →
  label_ids !! S i = if label_all_tokens then label_ids !! i else Some (-100).
Proof.
  intros [_ Hpt]%align_labels_pointwise Hi HSi.
  destruct (Hpt (S i) _ HSi) as (x & Hx & Hfor).
  apply label_for_Ok in Hfor.
  rewrite decide_True in Hfor
    by (unfold Align.tracker, Align.tracker_from; by rewrite Hi).
  destruct label_all_tokens; [|by subst].
  destruct Hfor as (t & Ht & Hid).
  destruct (Hpt i _ Hi) as (y & Hy & Hfor').
  apply label_for_Ok in Hfor'.
  assert (∃ t', tags !! w = Some t' ∧ label_to_id !! t' = Some y)
    as (t' & ? & ?) by (by case_decide).
  simplify_eq. by rewrite Hx, Hy.
Qed.

Lemma continuation_subword_label_witness :
  [-100; 0; 1; 1; 2; 2; -100] !! 3%nat = [-100; 0; 1; 1; 2; 2; -100] !! 2%nat.
Proof.
  apply (continuation_subword_label Scenario.label_to_id true
           [VStr "B-LOC"; VStr "I-LOC"; VStr "O"; VStr "O"]
           [None; Some 0; Some 1; Some 1; Some 2; Some 3; None]%nat
           [-100; 0; 1; 1; 2; 2; -100] 2 1).
  - vm_compute. reflexivity.
  - reflexivity.
  - reflexivity.
Defined.

(** X3. Labelling first subwords only is labelling all subwords and then
    overwriting the continuation positions with -100: when the all-subword
    labelling of an example succeeds, so does the first-subword labelling,
    and the two differ at continuation positions only. *)
Theorem first_subword_labels_mask_all_subword_labels
    (label_to_id : gmap pyval Z)
    (tags : list pyval) (W : list (option nat)) (all_ids : list Z) :
  Align.align_labels label_to_id true tags W = Ok all_ids →
  ∃ first_ids,
    Align.align_labels label_to_id false tags W = Ok first_ids ∧
    length first_ids = length all_ids ∧
    ∀ i word_idx, W !! i = Some word_idx →
      first_ids !! i =
      if decide (is_Some word_idx ∧ Align.tracker W i = word_idx)
      then Some (-100) else all_ids !! i.
Proof.
  intros Hall. apply align_labels_pointwise in Hall as [Hlen Hpt].
  set (mask := λ (i : nat) (x : Z),
         if decide (is_Some (default None (W !! i)) ∧
                    Align.tracker W i = default None (W !! i))
         then -100 else x).
  exists (imap mask all_ids).
  assert (∀ i o, W !! i = Some o →
    ∃ x, imap mask all_ids !! i = Some x ∧
      Align.label_for label_to_id false tags (Align.tracker W i) o = Ok x)
    as Hfirst.
  { intros i o Hi. destruct (Hpt i o Hi) as (x & Hx & Hfor).
    exists (mask i x). rewrite list_lookup_imap, Hx. split; [done|].
    apply label_for_Ok in Hfor. apply label_for_Ok.
    unfold mask. rewrite Hi. simpl. destruct o as [w|].
    - destruct (decide (Align.tracker W i = Some w)) as [Heq|Hne].
      + by rewrite decide_True by (split; [by eexists|done]).
      + by rewrite decide_False by naive_solver.
    - rewrite decide_False; [done|]. intros [[? [=]] _]. }
  split_and!.
  - unfold Align.align_labels. apply align_loop_Ok.
    exists (imap mask all_ids). by rewrite length_imap.
  - by rewrite length_imap.
  - intros i o Hi. rewrite list_lookup_imap.
    destruct (Hpt i o Hi) as (x & -> & _). simpl. unfold mask.
    rewrite Hi. simpl. by repeat case_decide.
Qed.

Lemma first_subword_labels_mask_all_subword_labels_witness :
  ∃ first_ids,
    Align.align_labels Scenario.label_to_id false
      [VStr "B-LOC"; VStr "I-LOC"; VStr "O"; VStr "O"]
      [None; Some 0; Some 1; Some 1; Some 2; Some 3; None]%nat
    = Ok first_ids ∧ length first_ids = 7%nat.
Proof.
  destruct (first_subword_labels_mask_all_subword_labels Scenario.label_to_id
              [VStr "B-LOC"; VStr "I-LOC"; VStr "O"; VStr "O"]
              [None; Some 0; Some 1; Some 1; Some 2; Some 3; None]%nat
              [-100; 0; 1; 1; 2; 2; -100])
    as (first_ids & H1 & H2 & _).
  - vm_compute. reflexivity.
  - by exists first_ids.
Defined.

(** X4. The alignment of an example fails in two ways only: with an
    [IndexError], when some word id is not below the number of tags, or
    with a [KeyError] carrying a tag of the example that [label_to_id] does
    not know. *)
Theorem align_labels_failures
    (label_to_id : gmap pyval Z) (label_all_tokens : bool)
    (tags : list pyval) (W : list (option nat)) (e : exn) :
  Align.align_labels label_to_id label_all_tokens tags W = Raise e →
  ∃ w, Some w ∈ W ∧
    ((e = IndexError "list index out of range" ∧ (length tags ≤ w)%nat) ∨
     (∃ t, e = KeyError t ∧ tags !! w = Some t ∧ label_to_id !! t = None)).
Proof. apply align_loop_Raise. Qed.

Lemma align_labels_failures_witness :
  ∃ w, Some w ∈ [None; Some 0; Some 1]%nat ∧
    ((KeyError (VStr "B-MISC") = IndexError "list index out of range" ∧
      (2 ≤ w)%nat) ∨
     (∃ t, KeyError (VStr "B-MISC") = KeyError t ∧
           [VStr "O"; VStr "B-MISC"] !! w = Some t ∧
           Scenario.label_to_id !! t = None)).
Proof.
  apply (align_labels_failures Scenario.label_to_id false
           [VStr "O"; VStr "B-MISC"] [None; Some 0; Some 1]%nat).
  vm_compute. reflexivity.
Defined.


(** ** Label vocabulary: the ids, the inverse map, decoding *)

Section vocab_more.
Import Vocab.

Lemma identity_dict_lookup (n : nat) k v :
  identity_dict n !! k = Some v ↔
  ∃ i, (i < n)%nat ∧ k = VInt (Z.of_nat i) ∧ v = Z.of_nat i.
Proof.
  unfold identity_dict. induction n as [|n IH].
  - simpl. rewrite lookup_empty. split; [done|]. intros (i & ? & _). lia.
  - rewrite seq_S, foldl_app. simpl.
    destruct (decide (k = VInt (Z.of_nat n))) as [->|Hne].
    + rewrite lookup_insert_eq. split.
      * intros [= <-]. exists n. split_and!; [lia|done..].
      * intros (i & _ & [= Hi] & ->). f_equal. lia.
    + rewrite lookup_insert_ne by done. rewrite IH. split.
      * intros (i & ? & -> & ->). exists i. split_and!; [lia|done..].
      * intros (i & Hi & -> & ->). exists i. split_and!; [|done..].
        destruct (decide (i = n)) as [->|]; [done|lia].
Qed.

(** The vocabulary of either branch: every id is a position of
    [label_list], reached from exactly one key. *)
Lemma label_vocabulary_lookup set_iter feat labels k v :
  (∀ X, set_iter X ≡ₚ elements X) →
  (label_vocabulary set_iter feat labels).2 !! k = Some v ↔
  ∃ i name, v = Z.of_nat i ∧
    (label_vocabulary set_iter feat labels).1 !! i = Some name ∧
    k = match feat with
        | ClassLabel _ => VInt (Z.of_nat i)
        | Value _ => VStr name
        end.
Proof.
  intros Hiter. destruct feat as [names|dtype]; simpl.
  - rewrite identity_dict_lookup. split.
    + intros (i & Hi & -> & ->).
      destruct (lookup_lt_is_Some_2 names i Hi) as [name Hname].
      by exists i, name.
    + intros (i & name & -> & Hname & ->). exists i.
      split; [by eapply lookup_lt_Some|done].
  - rewrite enumerate_dict_lookup by by apply get_label_list_NoDup.
    naive_solver.
Qed.
End vocab_more.

(** X5. In either branch of the vocabulary construction, [label_to_id] is
    one-to-one from its keys onto the ids 0 .. [num_labels] - 1: every id is
    below [num_labels], every number below [num_labels] is the id of some
    key, and no two keys share an id. *)
Theorem label_to_id_bijective
    (set_iter : gset string → list string) (feat : Vocab.feature)
    (labels : list (list string)) :
  (∀ X, set_iter X ≡ₚ elements X) →
  let label_list := (Vocab.label_vocabulary set_iter feat labels).1 in
  let label_to_id := (Vocab.label_vocabulary set_iter feat labels).2 in
  (∀ k v, label_to_id !! k = Some v →
     0 ≤ v < Z.of_nat (ModelConfig.num_labels label_list)) ∧
  (∀ i, (i < ModelConfig.num_labels label_list)%nat →
     ∃ k, label_to_id !! k = Some (Z.of_nat i)) ∧
  (∀ k1 k2 v, label_to_id !! k1 = Some v → label_to_id !! k2 = Some v →
     k1 = k2).
Proof.
  intros Hiter label_list label_to_id. unfold ModelConfig.num_labels.
  split_and!.
  - intros k v (i & name & -> & Hname & _)%label_vocabulary_lookup; [|done].
    apply lookup_lt_Some in Hname. fold label_list in Hname. lia.
  - intros i Hi.
    destruct (lookup_lt_is_Some_2 label_list i Hi) as [name Hname].
    eexists. apply label_vocabulary_lookup; [done|]. by exists i, name.
  - intros k1 k2 v (i & name & -> & Hname & ->)%label_vocabulary_lookup
      (j & name' & Hij & Hname' & ->)%label_vocabulary_lookup; [|done..].
    apply Nat2Z.inj in Hij as <-. by simplify_eq.
Qed.

Lemma label_to_id_bijective_witness :
  ∃ k, (Vocab.label_vocabulary Vocab.iter_reversed (Vocab.Value "string")
          [["O"; "B-LOC"]; ["I-LOC"; "O"]]).2 !! k = Some 2.
Proof.
  destruct (label_to_id_bijective Vocab.iter_reversed (Vocab.Value "string")
              [["O"; "B-LOC"]; ["I-LOC"; "O"]]) as (_ & Honto & _).
  - intros X. apply reverse_Permutation.
  - apply (Honto 2%nat). vm_compute. lia.
Defined.


Section id2label_facts.
Implicit Types (items : list (pyval * Z)) (d : gmap Z pyval).

Local Abbreviation put := (λ d '(l, i), <[i := l]> d).

Lemma id2label_fold_other items d (i : Z) :
  i ∉ items.*2 → foldl put d items !! i = d !! i.
Proof.
  revert d. induction items as [|[l j] items IH]; intros d Hi; simpl; [done|].
  apply not_elem_of_cons in Hi as [Hne Hi].
  rewrite IH by done. by apply lookup_insert_ne.
Qed.

Lemma id2label_fold_lookup items d (i : Z) (l : pyval) :
  NoDup items.*2 → (l, i) ∈ items → foldl put d items !! i = Some l.
Proof.
  revert d. induction items as [|[l' j] items IH]; intros d Hnd Hin;
    [by apply elem_of_nil in Hin|].
  apply NoDup_cons in Hnd as [Hj Hnd]. simpl.
  apply elem_of_cons in Hin as [[= <- <-]|Hin].
  - rewrite id2label_fold_other by done. apply lookup_insert_eq.
  - by apply IH.
Qed.

Lemma id2label_inverse (label_to_id : gmap pyval Z) items (i : Z) (l : pyval) :
  (∀ k1 k2 v, label_to_id !! k1 = Some v → label_to_id !! k2 = Some v →
     k1 = k2) →
  items ≡ₚ map_to_list label_to_id →
  ModelConfig.id2label items !! i = Some l ↔ label_to_id !! l = Some i.
Proof.
  intros Hinj Hitems. unfold ModelConfig.id2label.
  assert (∀ k v, (k, v) ∈ items ↔ label_to_id !! k = Some v) as Hin.
  { intros k v. by rewrite Hitems, elem_of_map_to_list. }
  assert (NoDup items.*2) as Hnd.
  { apply NoDup_fmap_2_strong.
    - intros [k1 v1] [k2 v2] H1%Hin H2%Hin Hv. simpl in Hv. subst v2.
      by rewrite (Hinj k1 k2 v1).
    - rewrite Hitems. apply NoDup_map_to_list. }
  split.
  - intros Hi. destruct (decide (i ∈ items.*2)) as [Hmem|Hnot].
    + apply list_elem_of_fmap in Hmem as ([k v] & -> & Hkv). simpl in Hi.
      rewrite (id2label_fold_lookup _ _ _ k Hnd Hkv) in Hi.
      injection Hi as <-. by apply Hin.
    + by rewrite id2label_fold_other, lookup_empty in Hi.
  - intros Hl%Hin. by apply id2label_fold_lookup.
Qed.
End id2label_facts.

(** X6. [id2label] is the inverse of [label_to_id], in either branch of the
    vocabulary construction and whatever the order in which the dictionary
    yields its items: [id2label[i]] is [l] exactly when [label_to_id[l]] is
    [i]. *)
Theorem id2label_inverts_label_to_id
    (set_iter : gset string → list string) (feat : Vocab.feature)
    (labels : list (list string)) (items : list (pyval * Z))
    (i : Z) (l : pyval) :
  (∀ X, set_iter X ≡ₚ elements X) →
  items ≡ₚ map_to_list (Vocab.label_vocabulary set_iter feat labels).2 →
  ModelConfig.id2label items !! i = Some l ↔
  (Vocab.label_vocabulary set_iter feat labels).2 !! l = Some i.
Proof.
  intros Hiter Hitems. apply id2label_inverse; [|done].
  intros k1 k2 v (n & name & -> & Hname & ->)%label_vocabulary_lookup
    (m & name' & Hnm & Hname' & ->)%label_vocabulary_lookup; [|done..].
  apply Nat2Z.inj in Hnm as <-. by simplify_eq.
Qed.

Lemma id2label_inverts_label_to_id_witness :
  ModelConfig.id2label
    (map_to_list (Vocab.label_vocabulary Vocab.iter_elements
                    (Vocab.Value "string") [["O"; "B-LOC"]; ["I-LOC"; "O"]]).2)
  !! 2 = Some (VStr "O").
Proof.
  apply (id2label_inverts_label_to_id Vocab.iter_elements
           (Vocab.Value "string") [["O"; "B-LOC"]; ["I-LOC"; "O"]]).
  - done.
  - done.
  - vm_compute. reflexivity.
Defined.


Lemma list_getitem_Z_of_nat {A} (l : list A) (i : nat) (x : A) :
  l !! i = Some x → list_getitem_Z l (Z.of_nat i) = Ok x.
Proof.
  intros Hi. unfold list_getitem_Z, list_getitem.
  rewrite (bool_decide_false (Z.of_nat i < 0)) by lia.
  rewrite (bool_decide_false (Z.of_nat i < 0)) by lia.
  by rewrite Nat2Z.id, Hi.
Qed.

(** X7. Decoding an id gives back its tag: when [label_to_id[k]] is [v],
    [label_list[v]] exists, and for a scanned vocabulary it is the tag [k]
    itself. *)
Theorem label_list_decodes_label_to_id
    (set_iter : gset string → list string) (feat : Vocab.feature)
    (labels : list (list string)) (k : pyval) (v : Z) :
  (∀ X, set_iter X ≡ₚ elements X) →
  (Vocab.label_vocabulary set_iter feat labels).2 !! k = Some v →
  ∃ name,
    list_getitem_Z (Vocab.label_vocabulary set_iter feat labels).1 v
    = Ok name ∧
    match feat with
    | Vocab.ClassLabel _ => k = VInt v
    | Vocab.Value _ => k = VStr name
    end.
Proof.
  intros Hiter (i & name & -> & Hname & ->)%label_vocabulary_lookup; [|done].
  exists name. split; [by apply list_getitem_Z_of_nat|]. by destruct feat.
Qed.

Lemma label_list_decodes_label_to_id_witness :
  ∃ name,
    list_getitem_Z
      (Vocab.label_vocabulary Vocab.iter_elements (Vocab.Value "string")
         [["O"; "B-LOC"]; ["I-LOC"; "O"]]).1 1 = Ok name ∧
    VStr "I-LOC" = VStr name.
Proof.
  apply (label_list_decodes_label_to_id Vocab.iter_elements
           (Vocab.Value "string") [["O"; "B-LOC"]; ["I-LOC"; "O"]]
           (VStr "I-LOC") 1).
  - done.
  - vm_compute. reflexivity.
Defined.

Lemma align_labels_values (label_to_id : gmap pyval Z) flag
    (tags : list pyval) (W : list (option nat)) (label_ids : list Z) :
  Align.align_labels label_to_id flag tags W = Ok label_ids →
  ∀ x, x ∈ label_ids → x = -100 ∨ ∃ t, t ∈ tags ∧ label_to_id !! t = Some x.
Proof.
  intros [Hlen Hpt]%align_labels_pointwise x (i & Hi)%list_elem_of_lookup_1.
  destruct (lookup_lt_is_Some_2 W i) as [o Ho].
  { rewrite <-Hlen. by eapply lookup_lt_Some. }
  destruct (Hpt i o Ho) as (y & Hy & Hfor). simplify_eq.
  apply label_for_Ok in Hfor. destruct o as [w|]; [|by left].
  assert (x = -100 ∨ ∃ t, tags !! w = Some t ∧ label_to_id !! t = Some x)
    as [?|(t & ? & ?)]; [|by left|].
  { case_decide; [destruct flag|]; eauto. }
  right. exists t. split; [by eapply list_elem_of_lookup_2|done].
Qed.

(** X8. The aligner and the reducer fit together: with a scanned
    vocabulary, the gold labels that the aligner produces for an example
    never make the reducer's reference list fail, and every reference tag
    handed to the scorer is the tag whose id is the gold label at that kept
    position. *)
Theorem aligned_labels_decode_to_tags
    (set_iter : gset string → list string) (train_labels : list (list string))
    (label_all_tokens : bool) (tags : list pyval) (W : list (option nat))
    (label_ids prediction : list Z) :
  (∀ X, set_iter X ≡ₚ elements X) →
  let label_list := Vocab.get_label_list set_iter train_labels in
  let label_to_id := Vocab.enumerate_dict label_list in
  Align.align_labels label_to_id label_all_tokens tags W = Ok label_ids →
  ∃ references,
    Metrics.kept_labels label_list (zip prediction label_ids)
    = Ok references ∧
    Forall2 (λ pl tag, label_to_id !! VStr tag = Some pl.2)
            (filter (λ pl, pl.2 ≠ -100) (zip prediction label_ids))
            references.
Proof.
  intros Hiter label_list label_to_id Halign.
  pose proof (align_labels_values _ _ _ _ _ Halign) as Hvalues.
  pose proof (get_label_list_NoDup set_iter Hiter train_labels) as Hnd.
  assert (∀ p l, (p, l) ∈ zip prediction label_ids → l ≠ -100 →
    ∃ i tag, l = Z.of_nat i ∧ label_list !! i = Some tag) as Hgold.
  { intros p l Hin Hne. apply elem_of_zip_r in Hin.
    destruct (Hvalues l Hin) as [?|(t & _ & Ht)]; [done|].
    apply enumerate_dict_lookup in Ht as (i & tag & _ & -> & ?); [|done].
    by exists i, tag. }
  clear Halign Hvalues. revert Hgold.
  generalize (zip prediction label_ids). intros pairs.
  induction pairs as [|[p l] pairs IH]; intros Hgold; simpl.
  - exists []. split; [done|]. rewrite filter_nil. constructor.
  - destruct IH as (refs & Hrefs & Hall).
    { intros p' l' ?. apply (Hgold p'). by right. }
    rewrite Hrefs. case_decide as Hl.
    + destruct (Hgold p l) as (i & tag & -> & Htag); [by left|done|].
      rewrite (list_getitem_Z_of_nat _ _ _ Htag). simpl.
      exists (tag :: refs). split; [done|].
      rewrite filter_cons_True by done. constructor; [|done]. simpl.
      apply enumerate_dict_lookup; [done|]. by exists i, tag.
    + exists refs. split; [done|].
      by rewrite filter_cons_False by naive_solver.
Qed.

Lemma aligned_labels_decode_to_tags_witness :
  ∃ references,
    Metrics.kept_labels
      (Vocab.get_label_list Vocab.iter_elements [["O"; "B-LOC"]; ["I-LOC"; "O"]])
      (zip [2; 0; 0; 1; 2; 2; 2] [-100; 0; 1; -100; 2; 2; -100])
    = Ok references ∧ length references = 4%nat.
Proof.
  destruct (aligned_labels_decode_to_tags Vocab.iter_elements
              [["O"; "B-LOC"]; ["I-LOC"; "O"]] false
              [VStr "B-LOC"; VStr "I-LOC"; VStr "O"; VStr "O"]
              [None; Some 0; Some 1; Some 1; Some 2; Some 3; None]%nat
              [-100; 0; 1; -100; 2; 2; -100] [2; 0; 0; 1; 2; 2; 2])
    as (references & Hrefs & Hall).
  - done.
  - vm_compute. reflexivity.
  - exists references. split; [done|].
    apply Forall2_length in Hall. rewrite <-Hall. vm_compute. reflexivity.
Defined.


(** ** Metrics reducer: shapes, flat output, missing overall entries *)

(** X9. The two filtered lists handed to the scorer have the same shape:
    the same number of examples, and for every example as many references
    as predictions. *)
Theorem filtered_lists_same_shape
    (label_list : list string) (predictions labels : list (list Z))
    (true_predictions true_labels : list (list string)) :
  Metrics.true_predictions label_list predictions labels
  = Ok true_predictions →
  Metrics.true_labels label_list predictions labels = Ok true_labels →
  Forall2 (λ ps ls, length ps = length ls) true_predictions true_labels.
Proof.
  unfold Metrics.true_predictions, Metrics.true_labels.
  rewrite !per_example_Ok. generalize (zip predictions labels).
  intros rows Hps. revert true_labels.
  induction Hps as [|row ps rows tp Hrow _ IH]; intros tl Hls.
  - apply Forall2_nil_inv_l in Hls as ->. constructor.
  - apply Forall2_cons_inv_l in Hls as (ls & tl' & Hrow' & Hls & ->).
    constructor; [|by apply IH].
    apply kept_predictions_Ok, Forall2_length in Hrow.
    apply kept_labels_Ok, Forall2_length in Hrow'. congruence.
Qed.

Lemma filtered_lists_same_shape_witness :
  Forall2 (λ ps ls : list string, length ps = length ls)
          [["B-LOC"; "I-LOC"]; []] [["B-LOC"; "O"]; []].
Proof.
  apply (filtered_lists_same_shape ["B-LOC"; "I-LOC"; "O"]
           [[2; 0; 1]; [1; 1]] [[-100; 0; 2]; [-100; -100]]).
  - reflexivity.
  - reflexivity.
Defined.

Section flatten_more.
Import Metrics.
Context {V : Type}.
Implicit Types (results : list (string * metric_value V))
  (final : gmap string (metric_value V)).

Lemma nested_fold_lookup key (d : list (string * V)) final k x :
  foldl (λ final '(n, v), <[key +:+ "_" +:+ n := Scalar v]> final) final d
  !! k = Some x →
  final !! k = Some x ∨
  ∃ v n, x = Scalar v ∧ (n, v) ∈ d ∧ k = key +:+ "_" +:+ n.
Proof.
  revert final. induction d as [|[n v] d IH]; intros final; simpl;
    [by left|].
  intros [Hk|(v' & n' & -> & ? & ->)]%IH.
  - destruct (decide (key +:+ "_" +:+ n = k)) as [<-|Hne].
    + rewrite lookup_insert_eq in Hk. injection Hk as <-.
      right. exists v, n. split_and!; [done|by left|done].
    + rewrite lookup_insert_ne in Hk by done. by left.
  - right. exists v', n'. split_and!; [done|by right|done].
Qed.

Lemma flatten_fold_lookup results final k x :
  foldl flatten_entry final results !! k = Some x →
  final !! k = Some x ∨
  ∃ v, x = Scalar v ∧
    ((k, Scalar v) ∈ results ∨
     ∃ key d n, (key, Nested d) ∈ results ∧ (n, v) ∈ d ∧
                k = key +:+ "_" +:+ n).
Proof.
  revert final. induction results as [|[key value] results IH];
    intros final; cbn [foldl]; [by left|].
  intros [Hk|(v & -> & Hsrc)]%IH.
  - destruct value as [v|d]; simpl in Hk.
    + destruct (decide (key = k)) as [->|Hne].
      * rewrite lookup_insert_eq in Hk. injection Hk as <-.
        right. exists v. split; [done|]. left. by left.
      * rewrite lookup_insert_ne in Hk by done. by left.
    + apply nested_fold_lookup in Hk as [?|(v & n & -> & ? & ->)];
        [by left|].
      right. exists v. split; [done|]. right. exists key, d, n.
      split_and!; [by left|done..].
  - right. exists v. split; [done|].
    destruct Hsrc as [?|(key' & d & n & ? & ? & ->)]; [left; by right|].
    right. exists key', d, n. split_and!; [by right|done..].
Qed.
End flatten_more.

(** X10. The entity-level output is flat and invents nothing: every value
    in it is a number, and it is the number the scorer reported either
    under that very key or, for a key [<entity>_<metric>], as [<metric>] of
    the nested entry [<entity>]. *)
Theorem entity_level_output_is_flat {V : Type}
    (results : list (string * Metrics.metric_value V))
    (k : string) (x : Metrics.metric_value V) :
  Metrics.flatten_results results !! k = Some x →
  ∃ v, x = Metrics.Scalar v ∧
    ((k, Metrics.Scalar v) ∈ results ∨
     ∃ key d n, (key, Metrics.Nested d) ∈ results ∧ (n, v) ∈ d ∧
                k = key +:+ "_" +:+ n).
Proof.
  unfold Metrics.flatten_results.
  intros [Hempty|Hsrc]%flatten_fold_lookup; [|done].
  by rewrite lookup_empty in Hempty.
Qed.

Lemma entity_level_output_is_flat_witness :
  ∃ v, Metrics.Scalar 1 = Metrics.Scalar v ∧
    (("LOC_recall", Metrics.Scalar v) ∈ Metrics.seqeval_like ∨
     ∃ key d n, (key, Metrics.Nested d) ∈ Metrics.seqeval_like ∧ (n, v) ∈ d ∧
                "LOC_recall" = key +:+ "_" +:+ n).
Proof.
  apply (entity_level_output_is_flat Metrics.seqeval_like "LOC_recall").
  vm_compute. reflexivity.
Defined.

Lemma items_getitem_Raise_absent {X} (d : list (string * X)) key e :
  items_getitem d key = Raise e → e = KeyError (VStr key) ∧ key ∉ d.*1.
Proof.
  induction d as [|[k x] d IH]; simpl.
  - intros [= <-]. split; [done|]. by intros ?%elem_of_nil.
  - destruct (String.eqb_spec k key) as [->|Hne]; [done|].
    intros [-> Hnot]%IH. split; [done|].
    by intros [?|?]%elem_of_cons.
Qed.

Lemma items_getitem_Ok_present {X} (d : list (string * X)) key x :
  items_getitem d key = Ok x → key ∈ d.*1.
Proof.
  intros Hin%items_getitem_Ok. apply list_elem_of_fmap. by exists (key, x).
Qed.

(** X11. The overall output fails exactly when the scorer's result lacks
    one of overall_precision, overall_recall, overall_f1, overall_accuracy,
    and then with a [KeyError] for the first of them, in that order, that is
    missing. *)
Theorem overall_output_missing_entry {V : Type}
    (results : list (string * Metrics.metric_value V)) (e : exn) :
  Metrics.overall_results results = Raise e ↔
  ∃ present key rest,
    ["overall_precision"; "overall_recall"; "overall_f1"; "overall_accuracy"]
    = present ++ key :: rest ∧
    Forall (λ k, k ∈ results.*1) present ∧
    (key ∉ results.*1) ∧
    e = KeyError (VStr key).
Proof.
  unfold Metrics.overall_results. split.
  - intros He.
    destruct (items_getitem results "overall_precision") as [p|e1] eqn:H1.
    2:{ injection He as <-. apply items_getitem_Raise_absent in H1 as [-> ?].
        by exists [], "overall_precision",
             ["overall_recall"; "overall_f1"; "overall_accuracy"]. }
    apply items_getitem_Ok_present in H1. simpl in He.
    destruct (items_getitem results "overall_recall") as [r|e2] eqn:H2.
    2:{ injection He as <-. apply items_getitem_Raise_absent in H2 as [-> ?].
        exists ["overall_precision"], "overall_recall",
          ["overall_f1"; "overall_accuracy"].
        split_and!; [done|by repeat constructor|done..]. }
    apply items_getitem_Ok_present in H2. simpl in He.
    destruct (items_getitem results "overall_f1") as [f|e3] eqn:H3.
    2:{ injection He as <-. apply items_getitem_Raise_absent in H3 as [-> ?].
        exists ["overall_precision"; "overall_recall"], "overall_f1",
          ["overall_accuracy"].
        split_and!; [done|by repeat constructor|done..]. }
    apply items_getitem_Ok_present in H3. simpl in He.
    destruct (items_getitem results "overall_accuracy") as [a|e4] eqn:H4;
      [done|].
    injection He as <-. apply items_getitem_Raise_absent in H4 as [-> ?].
    exists ["overall_precision"; "overall_recall"; "overall_f1"],
      "overall_accuracy", [].
    split_and!; [done|by repeat constructor|done..].
  - intros (present & key & rest & Hsplit & Hpresent & Habsent & ->).
    assert (∀ k, k ∈ present →
      ∃ x, items_getitem results k = Ok x) as Hget.
    { intros k Hk. apply items_getitem_total.
      by eapply Forall_forall in Hpresent. }
    assert (items_getitem results key = Raise (KeyError (VStr key))) as Hkey.
    { destruct (items_getitem results key) as [x|e'] eqn:Hk.
      - by apply items_getitem_Ok_present in Hk.
      - by apply items_getitem_Raise_absent in Hk as [-> _]. }
    destruct present as [|k1 present]; simplify_eq/=; [by rewrite Hkey|].
    destruct (Hget "overall_precision") as [p ->]; [by left|]. simpl.
    destruct present as [|k2 present]; simplify_eq/=; [by rewrite Hkey|].
    destruct (Hget "overall_recall") as [r ->]; [by right; left|]. simpl.
    destruct present as [|k3 present]; simplify_eq/=; [by rewrite Hkey|].
    destruct (Hget "overall_f1") as [f ->]; [by right; right; left|]. simpl.
    destruct present as [|k4 present]; simplify_eq/=; [by rewrite Hkey|].
    by destruct present.
Qed.

Example overall_output_without_f1 :
  Metrics.overall_results
    [("overall_precision", Metrics.Scalar 1); ("overall_recall", Metrics.Scalar 1);
     ("overall_accuracy", Metrics.Scalar 1)]
  = Raise (KeyError (VStr "overall_f1")).
Proof. reflexivity. Qed.


(** ** Writing the predictions *)

Section predict_facts.
Import Predict.

Lemma str_app_cons c s t : String c s +:+ t = String c (s +:+ t).
Proof. reflexivity. Qed.

Lemma str_app_nil_l t : EmptyString +:+ t = t.
Proof. reflexivity. Qed.

Lemma str_app_assoc s t u : (s +:+ t) +:+ u = s +:+ (t +:+ u).
Proof.
  induction s as [|c s IH]; [done|]. by rewrite !str_app_cons, IH.
Qed.

Lemma has_char_app c s t :
  has_char c (s +:+ t) = has_char c s || has_char c t.
Proof.
  induction s as [|c' s IH]; [done|]. rewrite str_app_cons. simpl.
  by destruct (Ascii.eqb c' c).
Qed.

Lemma str_split_no_sep sep s :
  has_char sep s = false → str_split sep s = [s].
Proof.
  induction s as [|c s IH]; simpl; [done|].
  destruct (Ascii.eqb c sep); [done|]. intros Hs. by rewrite IH.
Qed.

Lemma str_split_app_sep sep s rest :
  has_char sep s = false →
  str_split sep (s +:+ String sep rest) = s :: str_split sep rest.
Proof.
  induction s as [|c s IH]; intros Hs.
  - rewrite str_app_nil_l. simpl. by rewrite Ascii.eqb_refl.
  - rewrite str_app_cons. simpl in *.
    destruct (Ascii.eqb c sep); [done|]. by rewrite IH.
Qed.

(** Splitting a joined list on the separator gives the list back, when it
    is not empty and no element holds the separator. *)
Lemma str_split_concat sep (l : list string) :
  l ≠ [] → Forall (λ s, has_char sep s = false) l →
  str_split sep (String.concat (String sep EmptyString) l) = l.
Proof.
  intros Hne Hall. induction Hall as [|x l Hx Hall IH]; [done|].
  destruct l as [|y l]; [by apply str_split_no_sep|].
  change (String.concat (String sep EmptyString) (x :: y :: l))
    with (x +:+ (String sep EmptyString
                 +:+ String.concat (String sep EmptyString) (y :: l))).
  rewrite str_app_cons, str_app_nil_l.
  rewrite str_split_app_sep by done. by rewrite IH.
Qed.

Lemma has_char_concat c sep (l : list string) :
  has_char c sep = false → Forall (λ s, has_char c s = false) l →
  has_char c (String.concat sep l) = false.
Proof.
  intros Hsep Hall. induction Hall as [|x l Hx Hall IH]; [done|].
  destruct l as [|y l]; [done|].
  change (String.concat sep (x :: y :: l))
    with (x +:+ (sep +:+ String.concat sep (y :: l))).
  by rewrite !has_char_app, Hx, Hsep, IH.
Qed.

Lemma written_from (file : string) (tps : list (list string)) :
  foldl (λ file prediction, file +:+ prediction_line prediction) file tps
  = file +:+ written tps.
Proof.
  unfold written. revert file. induction tps as [|p tps IH]; intros file.
  - simpl. induction file as [|c file IHf]; [done|].
    by rewrite str_app_cons, <-IHf.
  - simpl. rewrite IH, (IH (_ +:+ _)), str_app_nil_l.
    by rewrite str_app_assoc.
Qed.

Lemma written_cons p tps :
  written (p :: tps) = prediction_line p +:+ written tps.
Proof.
  unfold written at 1. simpl. by rewrite str_app_nil_l, written_from.
Qed.

Lemma str_split_written (tps : list (list string)) :
  Forall (Forall (λ s, has_char "010" s = false)) tps →
  str_split "010" (written tps)
  = (String.concat " " <$> tps) ++ [EmptyString].
Proof.
  intros Hall. induction Hall as [|p tps Hp Hall IH]; [done|].
  rewrite written_cons. unfold prediction_line, newline.
  rewrite str_app_assoc, str_app_cons, str_app_nil_l.
  rewrite str_split_app_sep by by apply has_char_concat.
  by rewrite IH.
Qed.

Lemma list_getitem_Z_elem_of {A} (l : list A) (i : Z) (x : A) :
  list_getitem_Z l i = Ok x → x ∈ l.
Proof.
  unfold list_getitem_Z, list_getitem.
  set (j := if bool_decide (i < 0) then i + Z.of_nat (length l) else i).
  destruct (bool_decide (j < 0)); [done|].
  destruct (l !! Z.to_nat j) as [y|] eqn:Hy; [|done].
  intros [= <-]. by eapply list_elem_of_lookup_2.
Qed.

Lemma true_predictions_elem_of label_list predictions labels tp :
  Metrics.true_predictions label_list predictions labels = Ok tp →
  Forall (Forall (λ s, s ∈ label_list)) tp.
Proof.
  unfold Metrics.true_predictions. rewrite per_example_Ok.
  generalize (zip predictions labels). intros rows Hrows.
  induction Hrows as [|row ps rows tp' Hrow _ IH]; constructor; [|done].
  apply kept_predictions_Ok in Hrow.
  induction Hrow as [|pl s pairs ps' Hs _ IHp]; constructor; [|done].
  by eapply list_getitem_Z_elem_of.
Qed.
End predict_facts.

(** X12. predictions.txt can be read back: when no label name holds a
    space or a newline, splitting the written text on newlines gives one
    space-joined line per example followed by one empty piece, and
    splitting the line of an example that kept at least one position on
    spaces gives back its predicted tags.  (An example that kept no
    position is written as an empty line.) *)
Theorem predictions_file_reads_back
    (label_list : list string) (predictions labels : list (list Z))
    (file : string) :
  Forall (λ name, Predict.has_char " " name = false ∧
                  Predict.has_char "010" name = false) label_list →
  Predict.predictions_file label_list predictions labels = Ok file →
  ∃ true_predictions,
    Metrics.true_predictions label_list predictions labels
    = Ok true_predictions ∧
    str_split "010" file
    = (String.concat " " <$> true_predictions) ++ [EmptyString] ∧
    ∀ prediction, prediction ∈ true_predictions → prediction ≠ [] →
      str_split " " (String.concat " " prediction) = prediction.
Proof.
  intros Hnames Hfile. unfold Predict.predictions_file in Hfile.
  apply bind_Ok in Hfile as (tp & Htp & [= <-]).
  exists tp. split; [done|].
  pose proof (true_predictions_elem_of _ _ _ _ Htp) as Hin.
  assert (∀ c, Forall (λ name, Predict.has_char c name = false) label_list →
    Forall (Forall (λ s, Predict.has_char c s = false)) tp) as Hfree.
  { intros c Hc. eapply Forall_impl; [exact Hin|]. intros p Hp.
    eapply Forall_impl; [exact Hp|]. intros s Hs.
    by eapply Forall_forall in Hc. }
  split.
  - apply str_split_written, Hfree.
    eapply Forall_impl; [exact Hnames|]. by intros name [_ ?].
  - intros p Hp Hne. apply str_split_concat; [done|].
    eapply Forall_forall in Hfree; [exact Hfree| |exact Hp].
    eapply Forall_impl; [exact Hnames|]. by intros name [? _].
Qed.

Lemma predictions_file_reads_back_witness :
  ∃ true_predictions,
    Metrics.true_predictions ["B-LOC"; "I-LOC"; "O"]
      [[2; 0; 1]; [1; 1]] [[-100; 0; 2]; [-100; -100]] = Ok true_predictions ∧
    str_split "010" ("B-LOC I-LOC" +:+ Predict.newline +:+ Predict.newline)
    = (String.concat " " <$> true_predictions) ++ [EmptyString].
Proof.
  destruct (predictions_file_reads_back ["B-LOC"; "I-LOC"; "O"]
              [[2; 0; 1]; [1; 1]] [[-100; 0; 2]; [-100; -100]]
              ("B-LOC I-LOC" +:+ Predict.newline +:+ Predict.newline))
    as (tp & Htp & Hsplit & _).
  - repeat constructor.
  - reflexivity.
  - by exists tp.
Defined.


(** ** The driver: which checks can fire, and when *)

Section run_facts.
Import Args Main Run.

Lemma outcome_bind {A B} (m : io A) (f : A → io B) :
  outcome (m ≫= f) = outcome m ≫= (λ a, outcome (f a)).
Proof. destruct m as [tr [a|e]]; simpl; [by destruct (f a)|done]. Qed.

Lemma trace_bind {A B} (m : io A) (f : A → io B) :
  trace (m ≫= f)
  = trace m ++ match outcome m with
               | Ok a => trace (f a)
               | Raise _ => []
               end.
Proof.
  destruct m as [tr [a|e]]; simpl; [by destruct (f a)|].
  by rewrite app_nil_r.
Qed.

Lemma outcome_bind_Raise {A B} (m : io A) (f : A → io B) e :
  outcome (m ≫= f) = Raise e →
  outcome m = Raise e ∨ ∃ a, outcome m = Ok a ∧ outcome (f a) = Raise e.
Proof. rewrite outcome_bind. apply bind_Raise. Qed.

Lemma outcome_bind_Ok {A B} (m : io A) (f : A → io B) b :
  outcome (m ≫= f) = Ok b →
  ∃ a, outcome m = Ok a ∧ outcome (f a) = Ok b.
Proof. rewrite outcome_bind. apply bind_Ok. Qed.

Lemma quiet_bind {A B} (m : io A) (f : A → io B) :
  quiet m → (∀ a, outcome m = Ok a → quiet (f a)) → quiet (m ≫= f).
Proof.
  unfold quiet. intros Hm Hf. rewrite trace_bind. apply Forall_app.
  split; [done|]. destruct (outcome m) as [a|e]; [by apply Hf|constructor].
Qed.

Lemma quiet_call (e : event) : is_trainer_call e = false → quiet (call e).
Proof. intros He. by repeat constructor. Qed.

Lemma quiet_ret {A} (a : A) : quiet (mret a : io A).
Proof. constructor. Qed.

Lemma quiet_lift {A} (r : result A) : quiet (lift r).
Proof. constructor. Qed.

Lemma quiet_raise {A} (e : exn) : quiet (raise e : io A).
Proof. constructor. Qed.

Local Ltac quiet_step :=
  first [ apply quiet_ret | apply quiet_lift | apply quiet_raise
        | apply quiet_call; reflexivity
        | apply quiet_bind; [|intros ? _] ].

Local Ltac quiet_phase := repeat first [quiet_step | case_match].

Lemma get_raw_datasets_quiet data_args w : quiet (get_raw_datasets data_args w).
Proof. unfold get_raw_datasets. quiet_phase. Qed.

Lemma load_model_and_tokenizer_quiet model_args w :
  quiet (load_model_and_tokenizer model_args w).
Proof. unfold load_model_and_tokenizer. quiet_phase. Qed.

Lemma setup_meta_embeddings_quiet model_args :
  quiet (setup_meta_embeddings model_args).
Proof.
  unfold setup_meta_embeddings, load_embeddings, optional_embedding,
    optional_tokenizer. quiet_phase.
Qed.

Lemma setup_adapters_quiet data_args adapter_args w :
  quiet (setup_adapters data_args adapter_args w).
Proof. unfold setup_adapters. quiet_phase. Qed.

Lemma preprocess_quiet data_args training_args w context raw :
  quiet (preprocess data_args training_args w context raw).
Proof. unfold preprocess, prepare_split. quiet_phase. Qed.

Lemma outcome_bind_eq {A B} (m : io A) (f : A → io B) a :
  outcome m = Ok a → outcome (m ≫= f) = outcome (f a).
Proof. intros Ha. by rewrite outcome_bind, Ha. Qed.

Lemma list_getitem_Z_Raise {A} (l : list A) i e :
  list_getitem_Z l i = Raise e → e = IndexError "list index out of range".
Proof.
  unfold list_getitem_Z, list_getitem. repeat case_match; by intros [= <-].
Qed.

Lemma kept_predictions_Raise label_list pairs e :
  Metrics.kept_predictions label_list pairs = Raise e →
  e = IndexError "list index out of range".
Proof.
  induction pairs as [|[p l] pairs IH]; simpl; [done|].
  case_decide; [|done].
  intros [Hx|(x & _ & Hx)]%bind_Raise; [by eapply list_getitem_Z_Raise|].
  apply bind_Raise in Hx as [Hx|(xs & _ & Hx)]; [by apply IH|done].
Qed.

Lemma kept_labels_Raise label_list pairs e :
  Metrics.kept_labels label_list pairs = Raise e →
  e = IndexError "list index out of range".
Proof.
  induction pairs as [|[p l] pairs IH]; simpl; [done|].
  case_decide; [|done].
  intros [Hx|(x & _ & Hx)]%bind_Raise; [by eapply list_getitem_Z_Raise|].
  apply bind_Raise in Hx as [Hx|(xs & _ & Hx)]; [by apply IH|done].
Qed.

Lemma per_example_Raise inner rows e :
  Metrics.per_example inner rows = Raise e →
  ∃ pairs, inner pairs = Raise e.
Proof.
  induction rows as [|[prediction label] rows IH]; simpl; [done|].
  intros [H|(x & _ & H)]%bind_Raise; [by eexists|].
  apply bind_Raise in H as [H|(xs & _ & H)]; [by apply IH|done].
Qed.

Lemma true_predictions_Raise label_list predictions labels e :
  Metrics.true_predictions label_list predictions labels = Raise e →
  e = IndexError "list index out of range".
Proof.
  intros [pairs H]%per_example_Raise. by eapply kept_predictions_Raise.
Qed.

Lemma overall_results_Raise {V} (results : list (string * Metrics.metric_value V))
    e :
  Metrics.overall_results results = Raise e → metrics_error e.
Proof.
  unfold Metrics.overall_results. intros H. right.
  repeat match type of H with
    | _ ≫= _ = Raise _ =>
        apply bind_Raise in H as [H|(? & _ & H)];
        [apply items_getitem_Raise in H as ->; eexists; split; [done|];
         rewrite !elem_of_cons; tauto|]
    end.
  done.
Qed.

Lemma compute_metrics_Raise {V} label_list
    (scorer : list (list string) → list (list string) →
              list (string * Metrics.metric_value V))
    flag predictions labels e :
  Metrics.compute_metrics label_list scorer flag predictions labels = Raise e →
  metrics_error e.
Proof.
  unfold Metrics.compute_metrics.
  intros [H|(tp & _ & H)]%bind_Raise.
  { left. by eapply true_predictions_Raise. }
  apply bind_Raise in H as [H|(tl & _ & H)].
  { left. apply per_example_Raise in H as [pairs H].
    by eapply kept_labels_Raise. }
  destruct flag; [done|]. by eapply overall_results_Raise.
Qed.

Lemma call_compute_metrics_Raise data_args w context p e :
  call_compute_metrics data_args w context p = Raise e → metrics_error e.
Proof.
  unfold call_compute_metrics.
  intros [H|(? & _ & H)]%bind_Raise; [by eapply compute_metrics_Raise|done].
Qed.

Lemma compute_metrics_rounds_Raise data_args w context rounds e :
  compute_metrics_rounds data_args w context rounds = Raise e →
  metrics_error e.
Proof.
  induction rounds as [|p rounds IH]; simpl; [done|].
  intros [H|(? & _ & H)]%bind_Raise;
    [by eapply call_compute_metrics_Raise|by apply IH].
Qed.

Lemma predictions_file_Raise label_list predictions labels e :
  Predict.predictions_file label_list predictions labels = Raise e →
  metrics_error e.
Proof.
  unfold Predict.predictions_file.
  intros [H|(? & _ & H)]%bind_Raise; [|done].
  left. by eapply true_predictions_Raise.
Qed.

(** After the trainer has been constructed, only the scorer wrapper and the
    prediction filter can fail. *)
Lemma run_trainer_Raise data_args training_args w context last_checkpoint e :
  outcome (run_trainer data_args training_args w context last_checkpoint)
  = Raise e →
  metrics_error e.
Proof.
  unfold run_trainer. intros H.
  apply outcome_bind_Raise in H as [H|(? & _ & H)]; [done|].
  apply outcome_bind_Raise in H as [H|(? & _ & H)]; [done|].
  apply outcome_bind_Raise in H as [H|(? & _ & H)].
  { destruct (do_train training_args); [|done].
    apply outcome_bind_Raise in H as [H|(? & _ & H)]; [done|].
    eapply compute_metrics_rounds_Raise. exact H. }
  apply outcome_bind_Raise in H as [H|(? & _ & H)].
  { destruct (do_eval training_args); [|done].
    apply outcome_bind_Raise in H as [H|(? & _ & H)]; [done|].
    eapply call_compute_metrics_Raise. exact H. }
  destruct (do_predict training_args); [|done].
  apply outcome_bind_Raise in H as [H|(? & _ & H)]; [done|].
  apply outcome_bind_Raise in H as [H|(? & _ & H)].
  { eapply call_compute_metrics_Raise. exact H. }
  apply outcome_bind_Raise in H as [H|(file & _ & H)].
  { eapply predictions_file_Raise. exact H. }
  by destruct (is_world_process_zero w).
Qed.

(** A trainer that returns has made the requested calls. *)
Lemma run_trainer_calls data_args training_args w context last_checkpoint :
  outcome (run_trainer data_args training_args w context last_checkpoint)
  = Ok () →
  filter (λ e, is_trainer_call e)
    (trace (run_trainer data_args training_args w context last_checkpoint))
  = requested_phases training_args
      (if is_none (resume_from_checkpoint training_args)
       then last_checkpoint
       else resume_from_checkpoint training_args).
Proof.
  unfold run_trainer, requested_phases.
  destruct (compute_metrics_rounds data_args w context (train_evaluations w))
    as [[]|?];
    destruct (call_compute_metrics data_args w context (evaluate_output w))
      as [[]|?];
    destruct (call_compute_metrics data_args w context (predict_output w))
      as [[]|?];
    destruct (Predict.predictions_file _ _ _) as [file|?];
    destruct (is_world_process_zero w), (do_train training_args),
      (do_eval training_args), (do_predict training_args); simpl; done.
Qed.
End run_facts.


Section run_more.
Import Args Main Run.


Lemma quiet_filter {A} (m : io A) :
  quiet m → filter (λ e, is_trainer_call e) (trace m) = [].
Proof.
  unfold quiet. generalize (trace m). intros tr.
  induction 1 as [|e tr He _ IH]; [done|].
  rewrite filter_cons_False; [done|]. rewrite He. exact id.
Qed.

Lemma filter_trace_bind {A B} (m : io A) (f : A → io B) a :
  quiet m → outcome m = Ok a →
  filter (λ e, is_trainer_call e) (trace (m ≫= f))
  = filter (λ e, is_trainer_call e) (trace (f a)).
Proof.
  intros Hm Ha. by rewrite trace_bind, Ha, filter_app, quiet_filter.
Qed.

Lemma items_getitem_contains {X} (d : list (string * X)) key :
  items_contains d key = true ↔ ∃ x, items_getitem d key = Ok x.
Proof.
  unfold items_contains. induction d as [|[k x] d IH]; simpl.
  - split; [done|]. by intros [x ?].
  - rewrite (String.eqb_sym key k).
    destruct (String.eqb k key); [|done]. split; [by eexists|done].
Qed.

Lemma items_getitem_absent {X} (d : list (string * X)) key :
  items_contains d key = false →
  items_getitem d key = Raise (KeyError (VStr key)).
Proof.
  intros Habs. destruct (items_getitem d key) as [x|e] eqn:Hget.
  - assert (items_contains d key = true) as Hin; [|congruence].
    apply items_getitem_contains. by exists x.
  - by apply items_getitem_Raise in Hget as ->.
Qed.
End run_more.



Example unseen_tag_stops_the_map :
  Main.main (Args.model_args_with false false)
    (Args.data_args_with None (Some "train.json") (Some "dev.json") None)
    (Main.training_args_with true true false)
    (Main.adapter_args_with false None) Run.unseen_tag_world
  = Main.Io
      [Main.load_dataset "json" None
         (Some [("train", "train.json"); ("validation", "dev.json")]);
       Main.AutoConfig_from_pretrained "bert-base-uncased";
       Main.AutoTokenizer_from_pretrained (Some "bert-base-uncased");
       Main.AutoModelForTokenClassification_from_pretrained
         "bert-base-uncased";
       Main.dataset_map "train"; Main.dataset_map "validation"]
      (Raise (KeyError (VStr "B-MISC"))).
Proof. vm_compute. reflexivity. Qed.

Example stray_class_fails_after_training :
  Main.main (Args.model_args_with false false)
    (Args.data_args_with (Some "conll2003") None None None)
    (Main.training_args_with true true false)
    (Main.adapter_args_with false None) Run.stray_class_world
  = Main.Io
      [Main.load_dataset "conll2003" None None;
       Main.AutoConfig_from_pretrained "bert-base-uncased";
       Main.AutoTokenizer_from_pretrained (Some "bert-base-uncased");
       Main.AutoModelForTokenClassification_from_pretrained
         "bert-base-uncased";
       Main.dataset_map "train"; Main.dataset_map "validation";
       Main.load_metric "./metrics/seqeval"; Main.trainer_init;
       Main.trainer_train None; Main.trainer_evaluate]
      (Raise (IndexError "list index out of range")).
Proof. vm_compute. reflexivity. Qed.

(** X14. A run of [main] that completes constructs the trainer once and
    then makes exactly the requested calls, in the order train, evaluate,
    predict; training resumes from [resume_from_checkpoint] when it is
    given and otherwise from the checkpoint detected in the output
    directory. *)
Theorem completed_run_trainer_calls
    (model_args : Args.ModelArguments)
    (data_args : Args.DataTrainingArguments)
    (training_args : Args.TrainingArguments)
    (adapter_args : Args.MultiLingAdapterArguments) (w : Main.world) :
  Main.outcome (Main.main model_args data_args training_args adapter_args w)
  = Ok () →
  ∃ last_checkpoint,
    Main.detect_last_checkpoint training_args w = Ok last_checkpoint ∧
    filter (λ ev, Run.is_trainer_call ev)
      (Main.trace
         (Main.main model_args data_args training_args adapter_args w))
    = Run.requested_phases training_args
        (if is_none (Args.resume_from_checkpoint training_args)
         then last_checkpoint
         else Args.resume_from_checkpoint training_args).
Proof.
  unfold Main.main. intros Hrun.
  apply outcome_bind_Ok in Hrun as (data_args' & Hinit & Hrun).
  rewrite (filter_trace_bind _ _ data_args') by (done || apply quiet_lift).
  apply outcome_bind_Ok in Hrun as (last_checkpoint & Hckpt & Hrun).
  rewrite (filter_trace_bind _ _ last_checkpoint)
    by (done || apply quiet_lift).
  exists last_checkpoint. split; [done|].
  apply outcome_bind_Ok in Hrun as (raw & Hraw & Hrun).
  rewrite (filter_trace_bind _ _ raw)
    by (done || apply get_raw_datasets_quiet).
  apply outcome_bind_Ok in Hrun as (context & Hsel & Hrun).
  rewrite (filter_trace_bind _ _ context) by (done || apply quiet_lift).
  apply outcome_bind_Ok in Hrun as ([] & Hload & Hrun).
  rewrite (filter_trace_bind _ _ ())
    by (done || apply load_model_and_tokenizer_quiet).
  apply outcome_bind_Ok in Hrun as ([] & Hmeta & Hrun).
  rewrite (filter_trace_bind _ _ ())
    by (done || apply setup_meta_embeddings_quiet).
  apply outcome_bind_Ok in Hrun as ([] & Hadapters & Hrun).
  rewrite (filter_trace_bind _ _ ())
    by (done || apply setup_adapters_quiet).
  apply outcome_bind_Ok in Hrun as ([] & Hprep & Hrun).
  rewrite (filter_trace_bind _ _ ()) by (done || apply preprocess_quiet).
  by apply run_trainer_calls.
Qed.

Lemma completed_run_trainer_calls_witness :
  ∃ last_checkpoint,
    Main.detect_last_checkpoint (Main.training_args_with true false true)
      Main.a_world = Ok last_checkpoint ∧
    filter (λ ev, Run.is_trainer_call ev)
      (Main.trace
         (Main.main (Args.model_args_with false false)
            (Args.data_args_with (Some "conll2003") None None None)
            (Main.training_args_with true false true)
            (Main.adapter_args_with true None) Main.a_world))
    = [Main.trainer_init; Main.trainer_train last_checkpoint;
       Main.trainer_predict].
Proof.
  destruct (completed_run_trainer_calls (Args.model_args_with false false)
              (Args.data_args_with (Some "conll2003") None None None)
              (Main.training_args_with true false true)
              (Main.adapter_args_with true None) Main.a_world)
    as (last_checkpoint & Hckpt & Hcalls).
  - vm_compute. reflexivity.
  - exists last_checkpoint. split; [done|]. rewrite Hcalls.
    reflexivity.
Defined.


Section check_facts.
Import Args Main Run.

Local Ltac not_check :=
  let H := fresh in
  let Hin := fresh in
  intros (? & H & Hin);
  first [ discriminate H
        | injection H as <-;
          repeat (apply elem_of_cons in Hin as [Hin|Hin];
                  [cbv in Hin; discriminate Hin|]);
          by apply elem_of_nil in Hin ].

Local Ltac sites :=
  repeat match goal with
    | H : _ ≫= _ = Raise _ |- _ => apply bind_Raise in H as [H|(? & _ & H)]
    | H : Raise _ = Raise _ |- _ => injection H as <-
    | H : Ok _ = Raise _ |- _ => discriminate H
    | H : list_getitem _ _ = Raise _ |- _ => unfold list_getitem in H
    | H : list_getitem_Z _ _ = Raise _ |- _ => unfold list_getitem_Z in H
    | H : items_getitem _ _ = Raise _ |- _ =>
        apply items_getitem_Raise in H as ->
    | H : match ?x with _ => _ end = Raise _ |- _ => destruct x eqn:?
    end.

Lemma post_init_not_check lower data_args e :
  post_init lower data_args = Raise e → ¬ check_error e.
Proof.
  unfold post_init, assert_csv_or_json, file_extension. intros H.
  destruct (is_none _ && _ && _); [injection H as <-; not_check|].
  sites; not_check.
Qed.

Lemma detect_last_checkpoint_not_check training_args w e :
  detect_last_checkpoint training_args w = Raise e → ¬ check_error e.
Proof. unfold detect_last_checkpoint. intros H. sites. not_check. Qed.

Lemma get_raw_datasets_not_check data_args w e :
  outcome (get_raw_datasets data_args w) = Raise e → ¬ check_error e.
Proof.
  unfold get_raw_datasets, file_extension.
  destruct (dataset_name data_args); [done|].
  destruct (train_file data_args) as [file|]; simpl.
  - destruct (list_getitem_Z (str_split "." file) (-1)) eqn:Hext; simpl;
      [done|]. intros [= <-]. sites; not_check.
  - intros [= <-]. not_check.
Qed.

Lemma select_columns_and_labels_not_check data_args training_args w raw e :
  select_columns_and_labels data_args training_args w raw = Raise e →
  ¬ check_error e.
Proof.
  unfold select_columns_and_labels, Columns.resolve_text_column,
    Columns.resolve_label_column. intros H. sites; not_check.
Qed.

Lemma select_columns_and_labels_train data_args training_args w raw context :
  select_columns_and_labels data_args training_args w raw = Ok context →
  do_train training_args = true → items_contains raw "train" = true.
Proof.
  unfold select_columns_and_labels. intros (split & Hsplit & _)%bind_Ok Htrain.
  rewrite Htrain in Hsplit. apply items_getitem_contains. by exists split.
Qed.

Lemma setup_meta_embeddings_Raise model_args e :
  outcome (setup_meta_embeddings model_args) = Raise e →
  ∃ msg, e = TypeError msg.
Proof.
  unfold setup_meta_embeddings, load_embeddings, optional_embedding,
    optional_tokenizer.
  repeat case_match; simpl; intros Hraise; try discriminate Hraise;
    injection Hraise as <-; by eexists.
Qed.

Lemma setup_adapters_Raise data_args adapter_args w e :
  outcome (setup_adapters data_args adapter_args w) = Raise e →
  e = ValueError adapter_message ∧ train_adapter adapter_args = false ∧
  truthy (load_adapter adapter_args)
  || truthy (load_lang_adapter adapter_args) = true.
Proof.
  unfold setup_adapters.
  repeat case_match; simpl; intros Hraise; try discriminate Hraise.
  by injection Hraise as <-.
Qed.

Lemma lookup_error_not_check e : lookup_error e → ¬ check_error e.
Proof. intros [[key ->]|[msg ->]] (? & ? & _); discriminate. Qed.

Lemma metrics_error_not_check e : metrics_error e → ¬ check_error e.
Proof. intros [->|(key & -> & _)] (? & ? & _); discriminate. Qed.

Lemma labels_loop_Raise label_to_id flag (encs : list Align.encoding) i
    column acc e :
  Align.labels_loop label_to_id flag encs i column acc = Raise e →
  lookup_error e.
Proof.
  revert i acc. induction column as [|label column IH]; intros i acc; simpl;
    [done|].
  intros [Henc|(enc & _ & Hrest)]%bind_Raise.
  { unfold list_getitem in Henc. destruct (encs !! i); [done|].
    injection Henc as <-. right. by eexists. }
  apply bind_Raise in Hrest as [Halign|(label_ids & _ & Hrest)];
    [|by eapply IH].
  apply align_loop_Raise in Halign
    as (word & _ & [[-> _]|(tag & -> & _)]); [right|left]; by eexists.
Qed.

Lemma select_range_Raise dataset n e :
  select_range dataset n = Raise e → lookup_error e.
Proof.
  unfold select_range. case_bool_decide; [|done].
  intros [= <-]. right. by eexists.
Qed.

Lemma label_cells_Raise dataset name e :
  label_cells dataset name = Raise e → lookup_error e.
Proof.
  unfold label_cells. destruct (items_getitem (columns dataset) name); [done|].
  intros [Hget|(rows & _ & ?)]%bind_Raise; [|done].
  apply items_getitem_Raise in Hget as ->. left. by eexists.
Qed.

(** The function mapped over a split fails in a lookup only: a column or
    a tag that is not there, or a word id past the tags of its example. *)
Lemma map_tokenize_and_align_labels_Raise data_args w context dataset e :
  map_tokenize_and_align_labels data_args w context dataset = Raise e →
  lookup_error e.
Proof.
  unfold map_tokenize_and_align_labels. case_bool_decide; [done|].
  intros [Hget|(words & _ & Hrest)]%bind_Raise.
  { apply items_getitem_Raise in Hget as ->. left. by eexists. }
  apply bind_Raise in Hrest as [Hcells|(tags & _ & Hrest)].
  { by eapply label_cells_Raise. }
  apply bind_Raise in Hrest as [Halign|(? & _ & ?)]; [|done].
  unfold Align.tokenize_and_align_labels in Halign.
  apply bind_Raise in Halign as [Hloop|(? & _ & ?)]; [|done].
  by eapply labels_loop_Raise.
Qed.

Lemma prepare_split_Raise requested split message max_samples data_args w
    context raw e :
  outcome (prepare_split requested split message max_samples data_args w
             context raw) = Raise e →
  (e = ValueError message ∧ requested = true ∧
   items_contains raw split = false) ∨
  lookup_error e.
Proof.
  unfold prepare_split. destruct requested; [|done].
  destruct (items_contains raw split) eqn:Hin; cbn [negb];
    [|simpl; intros [= <-]; by left].
  intros Hraise. right.
  apply outcome_bind_Raise in Hraise as [Hget|(dataset & _ & Hraise)].
  { simpl in Hget. apply items_getitem_Raise in Hget as ->.
    left. by eexists. }
  apply outcome_bind_Raise in Hraise as [Hsel|(selected & _ & Hraise)].
  { simpl in Hsel. destruct max_samples as [n|]; [|done].
    by eapply select_range_Raise. }
  apply outcome_bind_Raise in Hraise as [?|([] & _ & Hraise)]; [done|].
  eapply map_tokenize_and_align_labels_Raise. exact Hraise.
Qed.

Lemma preprocess_Raise data_args training_args w context raw e :
  outcome (preprocess data_args training_args w context raw) = Raise e →
  (e = ValueError fast_tokenizer_message ∧ tokenizer_is_fast w = false) ∨
  (e = ValueError train_message ∧ do_train training_args = true ∧
   items_contains raw "train" = false) ∨
  (e = ValueError eval_message ∧ do_eval training_args = true ∧
   items_contains raw "validation" = false) ∨
  (e = ValueError predict_message ∧ do_predict training_args = true ∧
   items_contains raw "test" = false) ∨
  lookup_error e.
Proof.
  unfold preprocess. intros Hraise.
  apply outcome_bind_Raise in Hraise as [Hfast|([] & _ & Hraise)].
  { destruct (tokenizer_is_fast w); [done|]. injection Hfast as <-.
    by left. }
  apply outcome_bind_Raise in Hraise as [Htrain|([] & _ & Hraise)].
  { apply prepare_split_Raise in Htrain as [?|?]; [right; by left|].
    by do 4 right. }
  apply outcome_bind_Raise in Hraise as [Heval|([] & _ & Hraise)].
  { apply prepare_split_Raise in Heval as [?|?]; [do 2 right; by left|].
    by do 4 right. }
  apply prepare_split_Raise in Hraise as [?|?]; [do 3 right; by left|].
  by do 4 right.
Qed.
End check_facts.


Section check_causes.
Import Args Main Run.

(** What a check error at the end of a run of [main] tells about the
    configuration. *)
Lemma main_check_error model_args data_args training_args adapter_args w e :
  outcome (main model_args data_args training_args adapter_args w) = Raise e →
  check_error e →
  (e = ValueError adapter_message ∧ train_adapter adapter_args = false ∧
   truthy (load_adapter adapter_args)
   || truthy (load_lang_adapter adapter_args) = true) ∨
  (e = ValueError fast_tokenizer_message ∧ tokenizer_is_fast w = false) ∨
  (e = ValueError eval_message ∧ do_eval training_args = true) ∨
  (e = ValueError predict_message ∧ do_predict training_args = true).
Proof.
  unfold main. intros Hrun Hcheck.
  apply outcome_bind_Raise in Hrun as [Hrun|(data_args' & Hinit & Hrun)].
  { by apply post_init_not_check in Hrun. }
  apply outcome_bind_Raise in Hrun as [Hrun|(last_checkpoint & Hckpt & Hrun)].
  { by apply detect_last_checkpoint_not_check in Hrun. }
  apply outcome_bind_Raise in Hrun as [Hrun|(raw & Hraw & Hrun)].
  { by apply get_raw_datasets_not_check in Hrun. }
  apply outcome_bind_Raise in Hrun as [Hrun|(context & Hsel & Hrun)].
  { by apply select_columns_and_labels_not_check in Hrun. }
  apply outcome_bind_Raise in Hrun as [Hrun|([] & _ & Hrun)].
  { destruct (load_model_and_tokenizer_loads model_args w) as (tr & Hl & _).
    by rewrite Hl in Hrun. }
  apply outcome_bind_Raise in Hrun as [Hrun|([] & _ & Hrun)].
  { apply setup_meta_embeddings_Raise in Hrun as [msg ->].
    by destruct Hcheck as (? & ? & _). }
  apply outcome_bind_Raise in Hrun as [Hrun|([] & _ & Hrun)].
  { apply setup_adapters_Raise in Hrun. by left. }
  apply outcome_bind_Raise in Hrun as [Hrun|([] & _ & Hrun)].
  2:{ apply run_trainer_Raise in Hrun.
      by apply metrics_error_not_check in Hrun. }
  apply preprocess_Raise in Hrun
    as [[-> ?]|[(-> & Htrain & Habsent)|[(-> & ? & _)|[(-> & ? & _)|Hlookup]]]].
  - right. by left.
  - simpl in Hsel.
    apply select_columns_and_labels_train in Hsel; [|done]. congruence.
  - right. right. by left.
  - right. right. by right.
  - by apply lookup_error_not_check in Hlookup.
Qed.
End check_causes.

(** ** Configuration errors *)

Section configuration_facts.
Import Args Main Run.

Lemma load_model_and_tokenizer_returns model_args w :
  outcome (load_model_and_tokenizer model_args w) = Ok ().
Proof.
  by destruct (load_model_and_tokenizer_loads model_args w) as (tr & -> & _).
Qed.

(** A run whose data arguments, output directory, data, columns and
    embeddings raise nothing goes on with the adapters. *)
Lemma main_reaches_adapters model_args data_args training_args adapter_args w
    data_args' last_checkpoint raw context :
  post_init (str_lower w) data_args = Ok data_args' →
  detect_last_checkpoint training_args w = Ok last_checkpoint →
  outcome (get_raw_datasets data_args' w) = Ok raw →
  select_columns_and_labels data_args' training_args w raw = Ok context →
  outcome (setup_meta_embeddings model_args) = Ok () →
  outcome (main model_args data_args training_args adapter_args w)
  = outcome (setup_adapters data_args' adapter_args w;;
             preprocess data_args' training_args w context raw;;
             run_trainer data_args' training_args w context last_checkpoint).
Proof.
  intros Hinit Hckpt Hraw Hsel Hmeta. unfold main.
  rewrite (outcome_bind_eq _ _ data_args') by exact Hinit.
  rewrite (outcome_bind_eq _ _ last_checkpoint) by exact Hckpt.
  rewrite (outcome_bind_eq _ _ raw) by exact Hraw.
  rewrite (outcome_bind_eq _ _ context) by exact Hsel.
  rewrite (outcome_bind_eq _ _ ())
    by apply load_model_and_tokenizer_returns.
  by rewrite (outcome_bind_eq _ _ ()) by exact Hmeta.
Qed.
End configuration_facts.

(** C8, amended.  Each of the configuration errors is a [ValueError] with
    its own message.  The missing-source error is raised when the data
    arguments are constructed, before any call into the dataset or model
    libraries.  The other two are raised by [main] when the run reaches
    their checks without an earlier exception: the adapter error (an
    adapter load requested without adapter training) once the data
    arguments, the output directory, the data, the columns and labels and
    the embeddings have raised nothing; the missing validation split of a
    requested evaluation once, further, the adapters and the train split
    have raised nothing and the tokenizer is a fast one; the missing test
    split of a requested prediction once the validation split has raised
    nothing either.  In a run that does not train, a missing validation
    split never reaches its check: the column selection has raised
    [KeyError] 'validation'.  A run that ends in the adapter error or in
    a missing-split error has loaded the model before. *)
Theorem configuration_errors
    (model_args : Args.ModelArguments)
    (data_args : Args.DataTrainingArguments)
    (training_args : Args.TrainingArguments)
    (adapter_args : Args.MultiLingAdapterArguments) (w : Main.world) :
  let run := Main.main model_args data_args training_args adapter_args w in
  (Args.dataset_name data_args = None → Args.train_file data_args = None →
   Args.validation_file data_args = None →
     Args.post_init (Main.str_lower w) data_args
     = Raise (ValueError
                "Need either a dataset name or a training/validation file.") ∧
     run
     = Main.Io []
         (Raise (ValueError
                   "Need either a dataset name or a training/validation file."))) ∧
  (∀ data_args' last_checkpoint raw_datasets context,
     Args.post_init (Main.str_lower w) data_args = Ok data_args' →
     Main.detect_last_checkpoint training_args w = Ok last_checkpoint →
     Main.outcome (Main.get_raw_datasets data_args' w) = Ok raw_datasets →
     Main.select_columns_and_labels data_args' training_args w raw_datasets
     = Ok context →
     Main.outcome (Main.setup_meta_embeddings model_args) = Ok () →
     (Args.train_adapter adapter_args = false →
      truthy (Args.load_adapter adapter_args)
      || truthy (Args.load_lang_adapter adapter_args) = true →
      Main.outcome run
      = Raise (ValueError
                 ("Adapters can only be loaded in adapters training mode."
                  +:+ "Use --train_adapter to enable adapter training"))) ∧
     (Main.outcome (Main.setup_adapters data_args' adapter_args w) = Ok () →
      Main.tokenizer_is_fast w = true →
      Main.outcome
        (Main.prepare_split (Args.do_train training_args) "train"
           "--do_train requires a train dataset"
           (Args.max_train_samples data_args') data_args' w context
           raw_datasets) = Ok () →
      (Args.do_eval training_args = true →
       items_contains raw_datasets "validation" = false →
       Main.outcome run
       = Raise (ValueError "--do_eval requires a validation dataset")) ∧
      (Main.outcome
         (Main.prepare_split (Args.do_eval training_args) "validation"
            "--do_eval requires a validation dataset"
            (Args.max_eval_samples data_args') data_args' w context
            raw_datasets) = Ok () →
       Args.do_predict training_args = true →
       items_contains raw_datasets "test" = false →
       Main.outcome run
       = Raise (ValueError "--do_predict requires a test dataset")))) ∧
  (∀ data_args' raw_datasets,
     Args.do_train training_args = false →
     items_contains raw_datasets "validation" = false →
     Main.select_columns_and_labels data_args' training_args w raw_datasets
     = Raise (KeyError (VStr "validation"))) ∧
  (∀ e, Main.outcome run = Raise e → Main.late_error e →
        Exists Main.is_model_load (Main.trace run)).
Proof.
  intros run. split_and!.
  - intros Hname Htrain Hval.
    assert (Args.post_init (Main.str_lower w) data_args
            = Raise (ValueError Args.need_source_message)) as Hinit.
    { unfold Args.post_init. by rewrite Hname, Htrain, Hval. }
    split; [exact Hinit|]. unfold run, Main.main. by rewrite Hinit.
  - intros data_args' last_checkpoint raw context Hinit Hckpt Hraw Hsel Hmeta.
    pose proof (main_reaches_adapters model_args data_args training_args
                  adapter_args w _ _ _ _ Hinit Hckpt Hraw Hsel Hmeta) as Hrun.
    fold run in Hrun. split.
    + intros Htrain Hload. rewrite Hrun, outcome_bind.
      unfold Main.setup_adapters. by rewrite Htrain, Hload.
    + intros Hadapters Hfast Hprep_train.
      rewrite Hrun, (outcome_bind_eq _ _ ()) by exact Hadapters.
      rewrite outcome_bind.
      assert (Main.outcome
                (Main.preprocess data_args' training_args w context raw)
              = Main.outcome
                  (Main.prepare_split (Args.do_eval training_args)
                     "validation" Main.eval_message
                     (Args.max_eval_samples data_args') data_args' w context
                     raw;;
                   Main.prepare_split (Args.do_predict training_args)
                     "test" Main.predict_message
                     (Args.max_predict_samples data_args') data_args' w
                     context raw)) as ->.
      { unfold Main.preprocess. rewrite Hfast. cbn [negb].
        rewrite (outcome_bind_eq _ _ ()) by done.
        by rewrite (outcome_bind_eq _ _ ()) by exact Hprep_train. }
      split.
      * intros Heval Hval. rewrite outcome_bind.
        unfold Main.prepare_split. by rewrite Heval, Hval.
      * intros Hprep_eval Hpredict Htest.
        rewrite (outcome_bind_eq _ _ ()) by exact Hprep_eval.
        unfold Main.prepare_split. by rewrite Hpredict, Htest.
  - intros data_args' raw Htrain Habsent.
    unfold Main.select_columns_and_labels.
    by rewrite Htrain, (items_getitem_absent _ _ Habsent).
  - intros e. unfold run, Main.main, Main.lift.
    destruct (Args.post_init (Main.str_lower w) data_args)
      as [data_args'|e0] eqn:Hinit.
    2:{ intros [= <-] Hlate. by apply post_init_not_late in Hinit. }
    rewrite io_bind_Ok_l.
    destruct (Main.detect_last_checkpoint training_args w)
      as [last_checkpoint|e0] eqn:Hckpt.
    2:{ intros [= <-] Hlate.
        by apply detect_last_checkpoint_not_late in Hckpt. }
    rewrite io_bind_Ok_l.
    destruct (Main.get_raw_datasets data_args' w) as [tr1 [raw|e0]] eqn:Hraw.
    2:{ intros [= <-] Hlate. by apply get_raw_datasets_not_late in Hraw. }
    rewrite io_bind_Ok_l.
    destruct (Main.select_columns_and_labels data_args' training_args w raw)
      as [context|e0] eqn:Hsel.
    2:{ intros [= <-] Hlate.
        by apply select_columns_and_labels_not_late in Hsel. }
    rewrite io_bind_Ok_l. intros _ _. cbn [Main.trace app].
    apply Exists_app. right. apply after_model_loading.
Qed.

Lemma configuration_errors_witness :
  Main.outcome
    (Main.main (Args.model_args_with false false)
       (Args.data_args_with None (Some "train.json") (Some "dev.json") None)
       (Main.training_args_with true true true)
       (Main.adapter_args_with false None) Main.a_world)
  = Raise (ValueError "--do_predict requires a test dataset").
Proof.
  destruct (configuration_errors (Args.model_args_with false false)
              (Args.data_args_with None (Some "train.json") (Some "dev.json")
                                   None)
              (Main.training_args_with true true true)
              (Main.adapter_args_with false None) Main.a_world)
    as (_ & Hlate & _).
  edestruct Hlate as [_ Hsplits]; [reflexivity..|].
  edestruct Hsplits as [_ Htest]; [reflexivity..|].
  apply Htest; reflexivity.
Defined.


(** X15. [main] never raises "--do_train requires a train dataset": when
    training is requested and the loaded data has no train split, the
    column selection has already failed with [KeyError] 'train', before any
    model is loaded. *)
Theorem train_split_check_never_fires
    (model_args : Args.ModelArguments)
    (data_args : Args.DataTrainingArguments)
    (training_args : Args.TrainingArguments)
    (adapter_args : Args.MultiLingAdapterArguments) (w : Main.world) :
  Main.outcome (Main.main model_args data_args training_args adapter_args w)
  ≠ Raise (ValueError Main.train_message) ∧
  (∀ raw_datasets,
     Args.do_train training_args = true →
     items_contains raw_datasets "train" = false →
     Main.select_columns_and_labels data_args training_args w raw_datasets
     = Raise (KeyError (VStr "train"))).
Proof.
  split.
  - intros Hrun. apply main_check_error in Hrun
      as [(He & _)|[(He & _)|[(He & _)|(He & _)]]];
      try (injection He as He; cbv in He; discriminate He).
    eexists. split; [done|]. do 2 right. by left.
  - intros raw Htrain Habsent. unfold Main.select_columns_and_labels.
    by rewrite Htrain, (items_getitem_absent _ _ Habsent).
Qed.

(** X16. A check error at the end of a run of [main] has its cause in the
    configuration: the adapter error means an adapter load was requested
    without adapter training, the tokenizer error means the tokenizer is
    not a fast one, and a missing-split error means that the phase was
    requested. *)
Theorem check_errors_have_causes
    (model_args : Args.ModelArguments)
    (data_args : Args.DataTrainingArguments)
    (training_args : Args.TrainingArguments)
    (adapter_args : Args.MultiLingAdapterArguments) (w : Main.world)
    (e : exn) :
  Main.outcome (Main.main model_args data_args training_args adapter_args w)
  = Raise e →
  Run.check_error e →
  (e = ValueError Main.adapter_message ∧
   Args.train_adapter adapter_args = false ∧
   truthy (Args.load_adapter adapter_args)
   || truthy (Args.load_lang_adapter adapter_args) = true) ∨
  (e = ValueError Main.fast_tokenizer_message ∧
   Main.tokenizer_is_fast w = false) ∨
  (e = ValueError Main.eval_message ∧ Args.do_eval training_args = true) ∨
  (e = ValueError Main.predict_message ∧
   Args.do_predict training_args = true).
Proof. apply main_check_error. Qed.

Lemma check_errors_have_causes_witness :
  Args.do_predict (Main.training_args_with true true true) = true.
Proof.
  destruct (check_errors_have_causes (Args.model_args_with false false)
              (Args.data_args_with None (Some "train.json") (Some "dev.json")
                                   None)
              (Main.training_args_with true true true)
              (Main.adapter_args_with false None) Main.a_world
              (ValueError Main.predict_message))
    as [(He & _)|[(He & _)|[(He & _)|(_ & Hpredict)]]].
  - vm_compute. reflexivity.
  - eexists. split; [reflexivity|]. do 4 right. left.
  - injection He as He. cbv in He. discriminate He.
  - injection He as He. cbv in He. discriminate He.
  - injection He as He. cbv in He. discriminate He.
  - exact Hpredict.
Defined.


(** ** Construction of the data arguments, and what loading makes of it *)

Section construction_facts.
Import Args Main.

Lemma post_init_Ok lower data_args data_args' :
  post_init lower data_args = Ok data_args' →
  ∃ task, task_name data_args = Some task ∧
    data_args' = set_task_name data_args (Some (lower task)).
Proof.
  unfold post_init. case_match; [done|].
  intros ([] & _ & ([] & _ & Htask)%bind_Ok)%bind_Ok.
  destruct (task_name data_args) as [task|]; [|done].
  injection Htask as <-. by exists task.
Qed.

Lemma ascii_lower_idemp c : ascii_lower (ascii_lower c) = ascii_lower c.
Proof. by destruct c as [[] [] [] [] [] [] [] []]. Qed.

Lemma lower_ascii_idemp s : lower_ascii (lower_ascii s) = lower_ascii s.
Proof.
  induction s as [|c s IH]; [done|]. simpl. by rewrite ascii_lower_idemp, IH.
Qed.
End construction_facts.

(** X17. Once the data arguments have been constructed, loading makes
    exactly one [load_dataset] call and cannot fail in the script, unless
    neither a dataset name nor a train file was given.  With a dataset name
    the hub dataset is loaded and the files are not looked at; without one,
    every given file is handed to the loader named by the extension of the
    train file (csv or json), whatever the extension of the validation and
    test files. *)
Theorem loading_after_construction (lower : string → string)
    (data_args data_args' : Args.DataTrainingArguments) (w : Main.world) :
  Args.post_init lower data_args = Ok data_args' →
  match Args.dataset_name data_args, Args.train_file data_args with
  | Some name, _ =>
      Main.get_raw_datasets data_args' w
      = Main.Io
          [Main.load_dataset name (Args.dataset_config_name data_args) None]
          (Ok (Main.loaded_dataset w name
                 (Args.dataset_config_name data_args) None))
  | None, Some file =>
      ∃ extension,
        Args.file_extension file = Ok extension ∧
        extension ∈ ["csv"; "json"] ∧
        let data_files :=
          [("train", file)]
          ++ match Args.validation_file data_args with
             | Some validation => [("validation", validation)]
             | None => []
             end
          ++ match Args.test_file data_args with
             | Some test => [("test", test)]
             | None => []
             end in
        Main.get_raw_datasets data_args' w
        = Main.Io [Main.load_dataset extension None (Some data_files)]
            (Ok (Main.loaded_dataset w extension None (Some data_files)))
  | None, None =>
      Main.get_raw_datasets data_args' w
      = Main.Io [] (Raise (AttributeError
                             "'NoneType' object has no attribute 'split'"))
  end.
Proof.
  intros Hinit.
  destruct (post_init_checks_train_and_validation _ _ _ Hinit) as [Htrain _].
  apply post_init_Ok in Hinit as (task & _ & ->).
  unfold Main.get_raw_datasets. simpl.
  destruct (Args.dataset_name data_args) as [name|]; [done|].
  destruct (Args.train_file data_args) as [file|]; [|done].
  destruct (Htrain file eq_refl) as (extension & Hext & Hin).
  exists extension. split_and!; [done..|]. rewrite Hext.
  by destruct (Args.validation_file data_args), (Args.test_file data_args).
Qed.

Lemma loading_after_construction_witness :
  Main.get_raw_datasets
    (Args.data_args_with None (Some "train.csv") (Some "dev.json") None)
    Main.a_world
  = Main.Io
      [Main.load_dataset "csv" None
         (Some [("train", "train.csv"); ("validation", "dev.json")])]
      (Ok [("train", Main.file_split); ("validation", Main.file_split)]).
Proof.
  destruct (loading_after_construction lower_ascii
              (Args.data_args_with None (Some "train.csv") (Some "dev.json")
                                   None)
              (Args.data_args_with None (Some "train.csv") (Some "dev.json")
                                   None)
              Main.a_world) as (extension & Hext & _ & Hload).
  - reflexivity.
  - injection Hext as <-. exact Hload.
Defined.

(** X18. Construction changes nothing but [task_name], which becomes
    its lower case, and constructing again from the result cannot fail: it
    gives the same configuration with the task name lower-cased once more,
    which is the result itself wherever [str.lower] leaves the lower-cased
    name as it is. *)
Theorem post_init_again (lower : string → string)
    (data_args data_args' : Args.DataTrainingArguments) :
  Args.post_init lower data_args = Ok data_args' →
  ∃ task, Args.task_name data_args = Some task ∧
    data_args' = Args.set_task_name data_args (Some (lower task)) ∧
    Args.post_init lower data_args'
    = Ok (Args.set_task_name data_args (Some (lower (lower task)))) ∧
    (lower (lower task) = lower task →
     Args.post_init lower data_args' = Ok data_args').
Proof.
  intros Hinit. pose proof (post_init_Ok _ _ _ Hinit) as (task & Htask & ->).
  exists task. split; [done|]. split; [done|].
  assert (Args.post_init lower
            (Args.set_task_name data_args (Some (lower task)))
          = Ok (Args.set_task_name data_args (Some (lower (lower task)))))
    as Hagain.
  { unfold Args.post_init in *. simpl.
    destruct (is_none _ && _ && _); [done|].
    apply bind_Ok in Hinit as ([] & -> & Hinit). simpl.
    by apply bind_Ok in Hinit as ([] & -> & _). }
  split; [done|]. intros Hlower. by rewrite Hagain, Hlower.
Qed.

Lemma post_init_again_witness :
  Args.post_init lower_ascii
    (Args.data_args_with (Some "conll2003") None None None)
  = Ok (Args.data_args_with (Some "conll2003") None None None).
Proof.
  destruct (post_init_again lower_ascii
              (Args.set_task_name
                 (Args.data_args_with (Some "conll2003") None None None)
                 (Some "NER"))
              (Args.data_args_with (Some "conll2003") None None None))
    as (task & Htask & _ & _ & Hsame).
  - reflexivity.
  - injection Htask as <-. apply Hsame. reflexivity.
Defined.


(** X19. An evaluation-only run takes its columns and features from the
    validation split, but a vocabulary that has to be scanned is scanned
    from the train split: without a train split the run stops with
    [KeyError] 'train' when the tags are not a [ClassLabel], and goes on
    with the declared names and the identity map when they are. *)
Theorem eval_only_vocabulary
    (data_args : Args.DataTrainingArguments)
    (training_args : Args.TrainingArguments) (w : Main.world)
    (raw_datasets : list (string * Main.Dataset)) (split : Main.Dataset)
    (text label : string) (feature : Vocab.feature) :
  Args.do_train training_args = false →
  items_getitem raw_datasets "validation" = Ok split →
  Columns.resolve_columns data_args (Main.column_names split)
  = Ok (text, label) →
  items_getitem (Main.features split) label = Ok feature →
  items_contains raw_datasets "train" = false →
  Main.select_columns_and_labels data_args training_args w raw_datasets
  = match feature with
    | Vocab.ClassLabel names =>
        Ok {| Main.raw_datasets := raw_datasets;
              Main.text_column := text;
              Main.label_column := label;
              Main.label_list := names;
              Main.label_to_id := Vocab.identity_dict (length names) |}
    | Vocab.Value _ => Raise (KeyError (VStr "train"))
    end.
Proof.
  intros Htrain Hsplit Hcolumns Hfeature Habsent.
  apply bind_Ok in Hcolumns as (text' & Htext & Hcolumns).
  apply bind_Ok in Hcolumns as (label' & Hlabel & [= -> ->]).
  unfold Main.select_columns_and_labels.
  rewrite Htrain, Hsplit. simpl. rewrite Htext. simpl. rewrite Hlabel. simpl.
  rewrite Hfeature. simpl. destruct feature as [names|dtype]; [done|].
  by rewrite (items_getitem_absent _ _ Habsent).
Qed.

Lemma eval_only_vocabulary_witness :
  Main.select_columns_and_labels
    (Args.data_args_with (Some "conll2003") None None None)
    (Main.training_args_with false true false) Run.validation_only_world
    [("validation", Main.file_split)]
  = Raise (KeyError (VStr "train")).
Proof.
  apply (eval_only_vocabulary
           (Args.data_args_with (Some "conll2003") None None None)
           (Main.training_args_with false true false)
           Run.validation_only_world [("validation", Main.file_split)]
           Main.file_split "words" "labels" (Vocab.Value "string"));
    reflexivity.
Defined.

Example eval_only_run_without_train_split :
  Main.main (Args.model_args_with false false)
    (Args.data_args_with (Some "conll2003") None None None)
    (Main.training_args_with false true false)
    (Main.adapter_args_with false None) Run.validation_only_world
  = Main.Io [Main.load_dataset "conll2003" None None]
      (Raise (KeyError (VStr "train"))).
Proof. vm_compute. reflexivity. Qed.

(** ** File extensions *)

Section extension_facts.
Import Predict.

Lemma str_split_nonempty sep s : str_split sep s ≠ [].
Proof.
  destruct s as [|c s]; simpl; [done|].
  destruct (Ascii.eqb c sep); [done|]. by destruct (str_split sep s).
Qed.

Lemma str_split_snoc sep stem last :
  has_char sep last = false →
  str_split sep (stem +:+ String sep last) = str_split sep stem ++ [last].
Proof.
  intros Hlast. induction stem as [|c stem IH].
  - rewrite str_app_nil_l. simpl.
    by rewrite Ascii.eqb_refl, str_split_no_sep.
  - rewrite str_app_cons. simpl. rewrite IH.
    destruct (Ascii.eqb c sep); [done|].
    pose proof (str_split_nonempty sep stem).
    by destruct (str_split sep stem).
Qed.

Lemma str_split_last sep s :
  ∃ init last,
    str_split sep s = init ++ [last] ∧ has_char sep last = false ∧
    (s = last ∨ ∃ stem, s = stem +:+ String sep last).
Proof.
  induction s as [|c s (init & last & Hs & Hlast & Hshape)].
  - exists [], EmptyString. split_and!; [done..|by left].
  - simpl. rewrite Hs. destruct (Ascii.eqb_spec c sep) as [->|Hne].
    + exists (EmptyString :: init), last. split_and!; [done..|]. right.
      destruct Hshape as [->|[stem ->]]; [by exists EmptyString|].
      by exists (String sep stem).
    + destruct init as [|piece init]; simpl.
      * exists [], (String c last). split_and!; [done| |].
        -- simpl. by rewrite (proj2 (Ascii.eqb_neq c sep)).
        -- destruct Hshape as [->|[stem ->]]; [by left|].
           apply (f_equal length) in Hs.
           assert (has_char sep (stem +:+ String sep last) = true) as Hhas.
           { rewrite has_char_app. simpl. rewrite Ascii.eqb_refl.
             by destruct (has_char sep stem). }
           rewrite str_split_snoc in Hs by done.
           rewrite length_app in Hs. simpl in Hs.
           pose proof (str_split_nonempty sep stem).
           destruct (str_split sep stem); [done|simpl in Hs; lia].
      * exists (String c piece :: init), last. split_and!; [done..|]. right.
        destruct Hshape as [->|[stem ->]].
        -- rewrite str_split_no_sep in Hs by done.
           by destruct init.
        -- by exists (String c stem).
Qed.

Lemma list_getitem_Z_last {A} (init : list A) (last : A) :
  list_getitem_Z (init ++ [last]) (-1) = Ok last.
Proof.
  unfold list_getitem_Z, list_getitem.
  rewrite (bool_decide_true (-1 < 0)) by lia.
  rewrite length_app. simpl. rewrite bool_decide_false by lia.
  replace (Z.to_nat (-1 + Z.of_nat (length init + 1))) with (length init)
    by lia.
  by rewrite list_lookup_middle.
Qed.
End extension_facts.

(** X20. [file.split(".")[-1]] never fails, and [extension] is its value
    exactly when [extension] has no dot and [file] is either [extension]
    itself (a name without a dot is its own extension) or something, a dot,
    and [extension]. *)
Theorem file_extension_spec (file extension : string) :
  Args.file_extension file = Ok extension ↔
  Predict.has_char "." extension = false ∧
  (file = extension ∨ ∃ stem, file = stem +:+ "." +:+ extension).
Proof.
  unfold Args.file_extension. split.
  - destruct (str_split_last "." file) as (init & last & -> & ? & ?).
    rewrite list_getitem_Z_last. by intros [= <-].
  - intros [Hext [->|[stem ->]]].
    + rewrite str_split_no_sep by done. apply (list_getitem_Z_last []).
    + change ("." +:+ extension) with (String "." extension).
      rewrite str_split_snoc by done. apply list_getitem_Z_last.
Qed.

Example json_is_its_own_extension :
  Args.post_init lower_ascii (Args.data_args_with None (Some "json") None None)
  = Ok (Args.data_args_with None (Some "json") None None).
Proof. reflexivity. Qed.


(** ** Freezing: what the loop never does *)

Lemma freeze_embeddings_only_clears
    (named_parameters : list (string * nat)) (requires_grad : gmap nat bool) :
  let after := Freeze.freeze_embeddings named_parameters requires_grad in
  (∀ p, after !! p = Some true → requires_grad !! p = Some true) ∧
  (∀ p, is_Some (requires_grad !! p) → is_Some (after !! p)) ∧
  Freeze.freeze_embeddings named_parameters after = after.
Proof.
  intros after. unfold after. split_and!.
  - intros p. rewrite freeze_embeddings_lookup. by case_decide.
  - intros p. rewrite freeze_embeddings_lookup.
    case_decide; [by eexists|done].
  - apply map_eq. intros p. rewrite !freeze_embeddings_lookup.
    by case_decide.
Qed.

(** X21. The set-up of the composer variants never turns a trainability
    flag on and never removes a parameter from the store, whatever the
    aliasing between names: a parameter that is trainable afterwards was
    trainable before, and every parameter known before is known
    afterwards.  Freezing a second time changes nothing. *)
Theorem freezing_only_clears_flags
    (model_args : Args.ModelArguments)
    (named_parameters : list (string * nat)) (requires_grad : gmap nat bool) :
  let after := Freeze.metaemb_setup model_args named_parameters requires_grad in
  (∀ p, after !! p = Some true → requires_grad !! p = Some true) ∧
  (∀ p, is_Some (requires_grad !! p) → is_Some (after !! p)) ∧
  Freeze.metaemb_setup model_args named_parameters after = after.
Proof.
  unfold Freeze.metaemb_setup.
  destruct (Args.use_metaemb model_args);
    [apply freeze_embeddings_only_clears|].
  destruct (Args.use_domain_metaemb model_args);
    [apply freeze_embeddings_only_clears|done].
Qed.

Example freeze_with_aliased_parameter :
  Freeze.metaemb_setup (Args.model_args_with true false)
    [("embeddings.embedding_1.word_embeddings.weight", 0%nat);
     ("cls.predictions.decoder.weight", 0%nat);
     ("encoder.layer.0.output.dense.weight", 1%nat)]
    {[ 0%nat := true; 1%nat := true ]}
  = {[ 0%nat := false; 1%nat := true ]}.
Proof. vm_compute. reflexivity. Qed.


(** ** A tag that the training data does not have *)

(** X22. The scanned vocabulary knows the tags of the training sequences
    only: an example carrying a tag that occurs in none of them cannot be
    aligned once a subword of the tagged word is reached; the alignment ends
    in an exception instead of a label list. *)
Theorem unseen_tag_fails_alignment
    (set_iter : gset string → list string) (train_labels : list (list string))
    (label_all_tokens : bool) (tags : list pyval) (W : list (option nat))
    (i w : nat) (tag : string) :
  (∀ X, set_iter X ≡ₚ elements X) →
  (∀ sequence, sequence ∈ train_labels → tag ∉ sequence) →
  W !! i = Some (Some w) →
  (∀ j, (j < i)%nat → W !! j ≠ Some (Some w)) →
  tags !! w = Some (VStr tag) →
  ∃ e,
    Align.align_labels
      (Vocab.enumerate_dict (Vocab.get_label_list set_iter train_labels))
      label_all_tokens tags W
    = Raise e.
Proof.
  intros Hiter Hunseen Hi Hfirst Htag.
  destruct (Align.align_labels _ _ _ _) as [label_ids|e] eqn:Halign;
    [|by exists e].
  exfalso. apply align_labels_pointwise in Halign as [_ Hpt].
  destruct (Hpt i _ Hi) as (x & _ & Hfor). apply label_for_Ok in Hfor.
  rewrite decide_False in Hfor.
  - destruct Hfor as (t & Ht & Hid). simplify_eq.
    apply enumerate_dict_lookup in Hid as (n & name & [= <-] & _ & Hname);
      [|by apply get_label_list_NoDup].
    apply list_elem_of_lookup_2, elem_of_get_label_list in Hname
      as (sequence & ? & ?); [|done].
    by apply (Hunseen sequence).
  - unfold Align.tracker, Align.tracker_from. destruct i as [|i]; [done|].
    intros Heq. apply (Hfirst i); [lia|].
    destruct (W !! i) as [o|] eqn:Ho; simpl in Heq; by subst.
Qed.

Lemma unseen_tag_fails_alignment_witness :
  ∃ e,
    Align.align_labels
      (Vocab.enumerate_dict
         (Vocab.get_label_list Vocab.iter_elements
            [["O"; "B-LOC"]; ["I-LOC"; "O"]]))
      false [VStr "O"; VStr "B-MISC"] [None; Some 0; Some 1; None]%nat
    = Raise e.
Proof.
  apply (unseen_tag_fails_alignment Vocab.iter_elements
           [["O"; "B-LOC"]; ["I-LOC"; "O"]] false
           [VStr "O"; VStr "B-MISC"] [None; Some 0; Some 1; None]%nat
           2 1 "B-MISC").
  - done.
  - intros sequence Hseq Hin.
    repeat (apply elem_of_cons in Hseq as [->|Hseq];
            [repeat (apply elem_of_cons in Hin as [Hin|Hin];
                     [discriminate Hin|]);
             by apply elem_of_nil in Hin|]).
    by apply elem_of_nil in Hseq.
  - reflexivity.
  - intros j Hj. destruct j as [|[|j]]; [discriminate..|lia].
  - reflexivity.
Defined.
